(** * auto-kick: a shallow embedding of [src/index.ts]

    The plugin removes blacklisted members from chat groups.  This file
    embeds its TypeScript source in Rocq and states the properties of
    its specification over that embedding.

    Layout: Part I holds the definitions (JavaScript strings, the
    [BlacklistManager] class, the [ConcurrencyController] class, the
    closures of [apply] and the event handlers), Part II the theorems. *)

From stdpp Require Import gmap list numbers strings.
From Stdlib Require Import ZArith QArith Qcanon Lia.

Local Open Scope Z_scope.

(* stdpp's solvers clear hypotheses by name and warn when one is absent *)
Set Warnings "-clear-no-such-hyp".

(* ===================================================================== *)
(** * Part I: definitions                                                 *)
(* ===================================================================== *)

(** ** JavaScript strings

    A JavaScript string is a sequence of UTF-16 code units.  The source
    uses [trim], [includes], [toLowerCase] and [===] on strings;
    [toLowerCase] depends on the Unicode tables of the runtime and is a
    parameter further down. *)

Module JsString.

Abbreviation js_string := (list N).

(** Code units of an ASCII literal. *)
Definition lit (s : string) : js_string :=
  (λ c, N.of_nat (Ascii.nat_of_ascii c)) <$> String.list_ascii_of_string s.

(** ECMAScript [WhiteSpace] and [LineTerminator] code units, the ones
    [String.prototype.trim] strips. *)
Definition is_white_space (c : N) : bool :=
  (bool_decide (c ∈ [9; 10; 11; 12; 13; 32; 160; 5760; 8232; 8233;
                     8239; 8287; 12288; 65279])
   || ((8192 <=? c) && (c <=? 8202)))%N.

Fixpoint trimStart (s : js_string) : js_string :=
  match s with
  | c :: s' => if is_white_space c then trimStart s' else s
  | [] => []
  end.

Definition trimEnd (s : js_string) : js_string :=
  reverse (trimStart (reverse s)).

Definition trim (s : js_string) : js_string := trimEnd (trimStart s).

(** [s.startsWith(k)] *)
Fixpoint startsWith (s k : js_string) {struct k} : bool :=
  match k, s with
  | [], _ => true
  | _ :: _, [] => false
  | b :: k', a :: s' => bool_decide (a = b) && startsWith s' k'
  end.

(** [s.includes(k)]: [k] occurs in [s] as a contiguous run. *)
Fixpoint includes (s k : js_string) : bool :=
  startsWith s k ||
  match s with
  | [] => false
  | _ :: s' => includes s' k
  end.

(** Truthiness of a string value: the empty string is falsy. *)
Definition truthy (s : js_string) : bool :=
  match s with [] => false | _ => true end.

(** The filter predicate of [updateBlacklist]:
    [x && x.trim().length > 0]. *)
Definition has_content (s : js_string) : bool :=
  truthy s && bool_decide (0 < length (trim s))%nat.

End JsString.
Import JsString.

(** ** Arrays *)

(** [[...new Set(xs)]]: the distinct elements of [xs], each at the place
    of its first occurrence. *)
Fixpoint unique_in_order (xs : list js_string) : list js_string :=
  match xs with
  | [] => []
  | x :: xs' => x :: filter (λ y, y ≠ x) (unique_in_order xs')
  end.

(** [Array.prototype.slice(start, end)] with its treatment of negative
    and out-of-range indices. *)
Definition relative_index (len i : Z) : Z :=
  if i <? 0 then Z.max (len + i) 0 else Z.min i len.

Definition slice {A} (xs : list A) (start stop : Z) : list A :=
  let len := Z.of_nat (length xs) in
  let k := relative_index len start in
  let final := relative_index len stop in
  take (Z.to_nat (final - k)) (drop (Z.to_nat k) xs).

(** ** Stats and Config

    [Config] has the options the code reads.  The message templates and
    the log level are left out: messages and log lines are kept by the
    call site that builds them, not as formatted text.  A JavaScript
    number that counts or measures milliseconds is an integer here. *)

Record Stats := {
  totalScanned : Z;
  totalKicked : Z;
  totalFailed : Z;
  lastScanTime : Z;
  (** a running average: a JavaScript number that need not be integral,
      kept here as an exact rational *)
  averageScanTime : Qc
}.

Inductive MatchMode := contains | regex.

Record Config := {
  blacklist : list js_string;
  nicknameBlacklist : list js_string;
  enableJoinScan : bool;
  enableMemberJoin : bool;
  enableDelayedNicknameCheck : bool;
  delayedCheckTime : Z;
  notifyAdmins : bool;
  scanDelay : Z;
  batchSize : Z;
  maxConcurrent : Z;
  kickDelay : Z;
  retryAttempts : Z;
  retryDelay : Z;
  enableStats : bool;
  skipBotMembers : bool;
  verifyKickResult : bool;
  verifyDelay : Z;
  nicknameMatchMode : MatchMode
}.

(** ** class BlacklistManager *)

Module BlacklistManager.

Record t := {
  blacklistSet : gset js_string;
  nicknameBlacklist : list js_string;
  stats : Stats
}.

Definition Qc_of (z : Z) : Qc := Q2Qc (inject_Z z).

Definition Qc_max (a b : Qc) : Qc := if decide (a ≤ b)%Qc then b else a.

(** The [for ... of uniqueEntries] loop: [this.blacklistSet.add]. *)
Definition add_all (entries : list js_string) (s : gset js_string)
  : gset js_string :=
  foldl (λ acc userId, acc ∪ {[userId]}) s entries.

Definition updateBlacklist (this : t)
    (blacklist nicknameBlacklist : list js_string) : t :=
  let validEntries := filter (λ userId, has_content userId = true) blacklist in
  let uniqueEntries := unique_in_order (trim <$> validEntries) in
  {| blacklistSet := add_all uniqueEntries ∅;
     nicknameBlacklist :=
       trim <$> filter (λ keyword, has_content keyword = true) nicknameBlacklist;
     stats := stats this |}.

Definition zero_stats : Stats :=
  {| totalScanned := 0; totalKicked := 0; totalFailed := 0;
     lastScanTime := 0; averageScanTime := 0%Qc |}.

(** [new BlacklistManager(blacklist, nicknameBlacklist)] *)
Definition new (blacklist nicknameBlacklist : list js_string) : t :=
  updateBlacklist
    {| blacklistSet := ∅; nicknameBlacklist := []; stats := zero_stats |}
    blacklist nicknameBlacklist.

Definition isBlacklisted (this : t) (userId : js_string) : bool :=
  bool_decide (userId ∈ blacklistSet this).

Definition updateStats (this : t) (scanned kicked failed scanTime : Z) : t :=
  let s := stats this in
  let totalScanned' := totalScanned s + scanned in
  let totalScans :=
    Qc_max 1 (Qc_of totalScanned' / Qc_of (Z.max 1 scanned))%Qc in
  {| blacklistSet := blacklistSet this;
     nicknameBlacklist := nicknameBlacklist this;
     stats :=
       {| totalScanned := totalScanned';
          totalKicked := totalKicked s + kicked;
          totalFailed := totalFailed s + failed;
          lastScanTime := scanTime;
          averageScanTime :=
            ((averageScanTime s * (totalScans - 1) + Qc_of scanTime)
             / totalScans)%Qc |} |}.

Definition size (this : t) : nat := size (blacklistSet this).

Definition nicknameSize (this : t) : nat := length (nicknameBlacklist this).

End BlacklistManager.

(** ** class ConcurrencyController

    [execute] and [processQueue] run on the single JavaScript thread, so
    each stretch of code between two [await]s is one atomic step.  The
    controller is driven by three kinds of events:
    - [Execute]: a caller invokes [execute(task)];
    - [Settle n o]: the promise of the [n]th submitted task settles with
      outcome [o], the wrapper pushed by [execute] calls [resolve] or
      [reject] and returns;
    - [Resume n]: the [await task()] of the [processQueue] activation
      that started wrapper [n] resumes and runs its [finally] block.
    Tasks are named by their submission number.  The fields after
    [queue] are ghost state: they record what happened, the code does
    not store them. *)

Module ConcurrencyController.
Section Controller.

(** result type and error type of the submitted tasks *)
Context {T E : Type}.

Inductive outcome := Resolved (value : T) | Rejected (error : E).

Record t := {
  maxConcurrent : Z;
  running : Z;
  queue : list nat;
  submitted : nat;
  admitted : list nat;
  executing : list nat;
  finishing : list nat;
  settled : list (nat * outcome)
}.

(** [new ConcurrencyController(maxConcurrent)] *)
Definition new (maxConcurrent : Z) : t :=
  {| maxConcurrent := maxConcurrent; running := 0; queue := [];
     submitted := 0; admitted := []; executing := []; finishing := [];
     settled := [] |}.

(** [processQueue] up to its [await task()]: the guard, [running++],
    [queue.shift()] and the call that starts the wrapper. *)
Definition processQueue (c : t) : t :=
  if bool_decide (maxConcurrent c ≤ running c)
     || bool_decide (length (queue c) = 0%nat)
  then c
  else
    match queue c with
    | [] => c
    | task :: rest =>
        {| maxConcurrent := maxConcurrent c;
           running := running c + 1;
           queue := rest;
           submitted := submitted c;
           admitted := admitted c ++ [task];
           executing := executing c ++ [task];
           finishing := finishing c;
           settled := settled c |}
    end.

(** [execute(task)]: [queue.push(wrapper)] then [processQueue()]. *)
Definition execute (c : t) : t :=
  processQueue
    {| maxConcurrent := maxConcurrent c;
       running := running c;
       queue := queue c ++ [submitted c];
       submitted := S (submitted c);
       admitted := admitted c;
       executing := executing c;
       finishing := finishing c;
       settled := settled c |}.

(** The wrapper of task [n]: [resolve(result)] or [reject(error)]. *)
Definition settle (n : nat) (o : outcome) (c : t) : t :=
  {| maxConcurrent := maxConcurrent c;
     running := running c;
     queue := queue c;
     submitted := submitted c;
     admitted := admitted c;
     executing := filter (λ m, m ≠ n) (executing c);
     finishing := finishing c ++ [n];
     settled := settled c ++ [(n, o)] |}.

(** The [finally] block of [processQueue]: [running--] then
    [processQueue()]. *)
Definition resume (n : nat) (c : t) : t :=
  processQueue
    {| maxConcurrent := maxConcurrent c;
       running := running c - 1;
       queue := queue c;
       submitted := submitted c;
       admitted := admitted c;
       executing := executing c;
       finishing := filter (λ m, m ≠ n) (finishing c);
       settled := settled c |}.

Inductive event :=
| Execute
| Settle (n : nat) (o : outcome)
| Resume (n : nat).

(** One event; [None] when the event cannot happen in [c] (a task that
    is not executing cannot settle, an activation that is not waiting
    cannot resume). *)
Definition step (ev : event) (c : t) : option t :=
  match ev with
  | Execute => Some (execute c)
  | Settle n o =>
      if bool_decide (n ∈ executing c) then Some (settle n o c) else None
  | Resume n =>
      if bool_decide (n ∈ finishing c) then Some (resume n c) else None
  end.

Fixpoint run (evs : list event) (c : t) : option t :=
  match evs with
  | [] => Some c
  | ev :: evs' =>
      match step ev c with
      | Some c' => run evs' c'
      | None => None
      end
  end.




End Controller.
Arguments outcome : clear implicits.
Arguments t : clear implicits.
Arguments event : clear implicits.
End ConcurrencyController.

(** ** Values exchanged with the platform *)

(** A thrown JavaScript [Error]; [message] may be missing, the source
    reads it with [?.]. *)
Record Error := { message : option js_string }.

(** How an awaited call ends: with a value, with a thrown error, or not
    at all ([Hangs]: the awaited promise never settles). *)
Inductive Res (A : Type) :=
| Ok (a : A)
| Throw (e : Error)
| Hangs.
Arguments Ok {A} a.
Arguments Throw {A} e.
Arguments Hangs {A}.

Definition is_ok {A} (r : Res A) : bool :=
  match r with Ok _ => true | _ => false end.

Module User.
Record t := {
  id : js_string;
  name : option js_string;
  username : option js_string;
  isBot : bool
}.
End User.

Module Member.
Record t := {
  user : User.t;
  nick : option js_string;
  nickname : option js_string;
  displayName : option js_string
}.
End Member.

(** The fields of a session the source reads.  [has_send] tells whether
    the object has a [send] method: the sessions delivered by the host
    have one, the object literal [{ guildId, userId, bot }] built by
    [delayedNicknameCheck] has none. *)
Module Session.
Record t := {
  userId : js_string;
  guildId : option js_string;
  username : option js_string;
  author_name : option js_string;
  author_isBot : bool;
  user_name : option js_string;
  has_send : bool
}.
End Session.

Inductive KickReason :=
| IdBlacklist                                        (* 'QQ号黑名单' *)
| NicknameBlacklist (matchedKeyword : option js_string). (* `昵称黑名单 (匹配: ...)` *)

(** The texts handed to [session.send], by the template that builds
    them. *)
Inductive Message :=
| AdminNotify (displayName : js_string) (reason : KickReason)
| StillInGroupWarning (displayName : js_string)
| KickFailedWarning (displayName : js_string).

(** The lines handed to [logger], by call site. *)
Inductive LogEntry :=
| LogFound (displayName userId : js_string) (reason : KickReason)
| LogNotifyFailed (e : Error)
| LogKicked (displayName userId : js_string) (reason : KickReason)
| LogKickFailed (displayName userId : js_string) (reason : KickReason)
| LogNicknameChanged (userId originalNickname currentNickname : js_string)
| LogNicknameViolation (currentNickname : js_string) (matchedKeyword : option js_string)
| LogDelayedCheckFailed (userId : js_string) (e : Error)
| LogScanStart (guildId : option js_string)
| LogScanReport (scanned blacklisted kicked failed scanTime : Z)
| LogScanClean (scanned scanTime : Z)
| LogScanFailed (e : Error)
| LogBotJoined (guildId : option js_string)
| LogMemberJoined (userId : js_string)
| LogMemberApiFailed (e : Error)
| LogUserInfoFailed (e : Error)
| LogNewMember (nickname userId : js_string)
| LogDelayedCheckArmed (userId : js_string)
| LogStarted
| LogBlacklistSize (n : nat)
| LogNicknameKeywords (n : nat) (keywords : list js_string)
| LogModes (mode : MatchMode) (verify : bool)
| LogDelayedCheck (enabled : bool)
| LogDelayedCheckHint.

(** What a run does to the outside, in order: platform calls, messages
    ([delivered] tells whether [send] returned normally), pauses, log
    lines. *)
Inductive Effect :=
| CallKick (guildId : option js_string) (userId : js_string)
| CallMemberList (guildId : option js_string)
| CallMember (guildId : option js_string) (userId : js_string)
| CallUser (userId : js_string)
| CallSend (m : Message) (delivered : bool)
| Sleep (ms : Z)
| Log (entry : LogEntry).

(** The platform API client and the host's clock and timers.  The world
    [W] is whatever the platform's answers depend on; every call may
    change it. *)
Class Platform (W : Type) := {
  kickGuildMember : option js_string → js_string → W → Res () * W;
  getGuildMemberList : option js_string → W → Res (option (list Member.t)) * W;
  getGuildMember : option js_string → js_string → W → Res (option Member.t) * W;
  getUser : js_string → W → Res (option User.t) * W;
  send : Session.t → Message → W → Res () * W;
  Date_now : W → Z * W;
  (** the world after [ms] milliseconds of [setTimeout] *)
  elapse : Z → W → W
}.

(** What the source takes from the JavaScript runtime: [toLowerCase]
    and the regular-expression engine ([RegExp pattern flags] is [None]
    when the constructor throws a SyntaxError). *)
Class Runtime := {
  toLowerCase : js_string → js_string;
  Regex : Type;
  RegExp : js_string → js_string → option Regex;
  test : Regex → js_string → bool
}.

Definition SyntaxError : Error :=
  {| message := Some (lit "Invalid regular expression") |}.

Definition TypeError_not_a_function : Error :=
  {| message := Some (lit "session.send is not a function") |}.

(** ['踢人API调用成功但用户仍在群里'] *)
Definition still_in_group_error : Error :=
  {| message := Some [36386; 20154; 65; 80; 73; 35843; 29992; 25104; 21151;
                      20294; 29992; 25143; 20173; 22312; 32676; 37324]%N |}.

(** ['用户不存在'] *)
Definition user_does_not_exist : js_string :=
  [29992; 25143; 19981; 23384; 22312]%N.

(** ** State of one plugin instance *)

Module CacheEntry.
Record t := {
  nickname : js_string;
  guildId : option js_string;
  joinTime : Z
}.
End CacheEntry.

(** A callback armed with [setTimeout] and not yet run. *)
Inductive Timer :=
| RecheckTimer (userId : js_string) (guildId : option js_string)
               (nickname : js_string)
| ScanTimer (session : Session.t).

Record App {W : Type} := {
  world : W;
  blacklistManager : BlacklistManager.t;
  (** [concurrencyController.running] *)
  running : Z;
  newUserNicknameCache : gmap js_string CacheEntry.t;
  (** armed one-shot timers, oldest first *)
  timers : list Timer;
  (** whether [configCheckInterval] is still armed *)
  configCheckInterval : bool;
  (** ghost: everything done to the outside so far *)
  trace : list Effect
}.
Arguments App : clear implicits.

(** ** The computations of the plugin

    An [async] function of the source is a function from the state of
    the instance to a result and a new state.  A run is followed from
    its call to its end without other handlers in between; the
    interleaving of several tasks at the scheduler is the subject of
    [ConcurrencyController] above. *)

Definition M (W A : Type) : Type := App W → Res A * App W.

Section Monad.
Context {W : Type}.

Definition ret {A} (a : A) : M W A := λ st, (Ok a, st).

Definition bind {A B} (m : M W A) (f : A → M W B) : M W B :=
  λ st,
    match m st with
    | (Ok a, st') => f a st'
    | (Throw e, st') => (Throw e, st')
    | (Hangs, st') => (Hangs, st')
    end.

(** [throw e] *)
Definition throw {A} (e : Error) : M W A := λ st, (Throw e, st).

(** [try { body } catch (error) { handler }] *)
Definition try_catch {A} (body : M W A) (handler : Error → M W A) : M W A :=
  λ st,
    match body st with
    | (Throw e, st') => handler e st'
    | other => other
    end.

Definition set_world (w : W) (st : App W) : App W :=
  {| world := w; blacklistManager := blacklistManager st;
     running := running st;
     newUserNicknameCache := newUserNicknameCache st;
     timers := timers st; configCheckInterval := configCheckInterval st;
     trace := trace st |}.

Definition set_blacklistManager (bm : BlacklistManager.t) (st : App W) : App W :=
  {| world := world st; blacklistManager := bm; running := running st;
     newUserNicknameCache := newUserNicknameCache st;
     timers := timers st; configCheckInterval := configCheckInterval st;
     trace := trace st |}.

Definition set_running (n : Z) (st : App W) : App W :=
  {| world := world st; blacklistManager := blacklistManager st;
     running := n;
     newUserNicknameCache := newUserNicknameCache st;
     timers := timers st; configCheckInterval := configCheckInterval st;
     trace := trace st |}.

Definition set_cache (c : gmap js_string CacheEntry.t) (st : App W) : App W :=
  {| world := world st; blacklistManager := blacklistManager st;
     running := running st; newUserNicknameCache := c;
     timers := timers st; configCheckInterval := configCheckInterval st;
     trace := trace st |}.

Definition set_timers (ts : list Timer) (st : App W) : App W :=
  {| world := world st; blacklistManager := blacklistManager st;
     running := running st;
     newUserNicknameCache := newUserNicknameCache st;
     timers := ts; configCheckInterval := configCheckInterval st;
     trace := trace st |}.

Definition set_configCheckInterval (b : bool) (st : App W) : App W :=
  {| world := world st; blacklistManager := blacklistManager st;
     running := running st;
     newUserNicknameCache := newUserNicknameCache st;
     timers := timers st; configCheckInterval := b;
     trace := trace st |}.

Definition emit (e : Effect) (st : App W) : App W :=
  {| world := world st; blacklistManager := blacklistManager st;
     running := running st;
     newUserNicknameCache := newUserNicknameCache st;
     timers := timers st; configCheckInterval := configCheckInterval st;
     trace := trace st ++ [e] |}.

(** [logger.info], [.warn], [.error], [.debug] *)
Definition log (entry : LogEntry) : M W () :=
  λ st, (Ok (), emit (Log entry) st).

End Monad.

Notation "'let*' x ':=' m 'in' k" := (bind m (λ x, k))
  (at level 10, x name, m at level 100, k at level 200,
   format "'[v' 'let*'  x  :=  m  'in'  '/' k ']'").
Notation "m ;;; k" := (bind m (λ _, k))
  (at level 100, right associativity,
   format "'[v' m  ;;;  '/' k ']'").

(** Counting in traces. *)
Definition is_kick (e : Effect) : bool :=
  match e with CallKick _ _ => true | _ => false end.

(** The number of calls of [kickGuildMember]. *)
Definition kick_calls (tr : list Effect) : nat :=
  length (filter (λ e, is_kick e = true) tr).

Definition is_send (e : Effect) : bool :=
  match e with CallSend _ _ => true | _ => false end.

(** The messages that reached the users. *)
Definition delivered (tr : list Effect) : list Message :=
  omap (λ e, match e with CallSend m true => Some m | _ => None end) tr.

(** The calls of [session.send] that reached the platform. *)
Definition sends (tr : list Effect) : list Effect :=
  filter (λ e, is_send e = true) tr.

Definition is_member_lookup (e : Effect) : bool :=
  match e with CallMember _ _ => true | _ => false end.

(** The number of calls of [getGuildMember]. *)
Definition member_lookups (tr : list Effect) : nat :=
  length (filter (λ e, is_member_lookup e = true) tr).

Module NicknameCheck.
(** [{ isBlacklisted: boolean, matchedKeyword?: string }] *)
Record t := {
  isBlacklisted : bool;
  matchedKeyword : option js_string
}.
End NicknameCheck.

(** Truthiness of a value that is a string, [null] or [undefined]. *)
Definition truthy_opt (v : option js_string) : bool :=
  match v with Some s => truthy s | None => false end.

(** [a || b] on such values, [b] being a string. *)
Definition js_or (a : option js_string) (b : js_string) : js_string :=
  match a with
  | Some s => if truthy s then s else b
  | None => b
  end.

(** One round of the field probes of [getUserNickname]:
    [value && typeof value === 'string' && value.trim()] selects
    [value.trim()]. *)
Definition probe (value : option js_string) : option js_string :=
  match value with
  | Some v => if truthy v && truthy (trim v) then Some (trim v) else None
  | None => None
  end.

Fixpoint first_probe (values : list (option js_string)) : option js_string :=
  match values with
  | [] => None
  | value :: rest =>
      match probe value with
      | Some nickname => Some nickname
      | None => first_probe rest
      end
  end.

Definition getUserNickname (member : option Member.t)
    (session : option Session.t) : option js_string :=
  let nickname :=
    match member with
    | Some m =>
        first_probe [User.name (Member.user m); User.username (Member.user m);
                     Member.nick m; Member.nickname m; Member.displayName m]
    | None => None
    end in
  match nickname, session with
  | None, Some s =>
      first_probe [Session.username s; Session.author_name s;
                   Session.user_name s]
  | _, _ => nickname
  end.

(** [error.message?.includes(text)] *)
Definition message_includes (e : Error) (text : js_string) : bool :=
  match message e with
  | Some m => includes m text
  | None => false
  end.

(** Counters of one scan. *)
Record ScanCounts := {
  scannedCount : Z;
  blacklistedCount : Z;
  kickedCount : Z;
  failedKickCount : Z
}.

(** [a % b === 0] on integers: false when [b] is [0] (the remainder is
    [NaN]). *)
Definition divides_js (b a : Z) : bool :=
  negb (b =? 0) && (Z.rem a b =? 0).

Inductive AppEvent :=
| GuildAdded (session : Session.t)
| GuildMemberAdded (session : Session.t)
| TimerFires (k : nat)
| IntervalTick
| Dispose.

Section Plugin.
Context {W : Type} `{!Platform W} `{!Runtime}.
Variable config : Config.

(** *** Calls to the outside *)

Definition bot_kickGuildMember (guildId : option js_string)
    (userId : js_string) : M W () :=
  λ st,
    let '(r, w) := kickGuildMember guildId userId (world st) in
    (r, emit (CallKick guildId userId) (set_world w st)).

Definition bot_getGuildMemberList (guildId : option js_string)
  : M W (option (list Member.t)) :=
  λ st,
    let '(r, w) := getGuildMemberList guildId (world st) in
    (r, emit (CallMemberList guildId) (set_world w st)).

Definition bot_getGuildMember (guildId : option js_string)
    (userId : js_string) : M W (option Member.t) :=
  λ st,
    let '(r, w) := getGuildMember guildId userId (world st) in
    (r, emit (CallMember guildId userId) (set_world w st)).

Definition bot_getUser (userId : js_string) : M W (option User.t) :=
  λ st,
    let '(r, w) := getUser userId (world st) in
    (r, emit (CallUser userId) (set_world w st)).

(** The [blacklistManager] of the closure, as it is at this point. *)
Definition read_blacklistManager : M W BlacklistManager.t :=
  λ st, (Ok (blacklistManager st), st).

(** [session.send(text)]: a TypeError when the session object has no
    such method. *)
Definition session_send (session : Session.t) (m : Message) : M W () :=
  λ st,
    if Session.has_send session then
      let '(r, w) := send session m (world st) in
      (r, emit (CallSend m (is_ok r)) (set_world w st))
    else (Throw TypeError_not_a_function, st).

(** [await new Promise(resolve => setTimeout(resolve, ms))] *)
Definition sleep (ms : Z) : M W () :=
  λ st, (Ok (), emit (Sleep ms) (set_world (elapse ms (world st)) st)).

(** [Date.now()] *)
Definition date_now : M W Z :=
  λ st, let '(t, w) := Date_now (world st) in (Ok t, set_world w st).

(** [new RegExp(pattern, flags)] *)
Definition new_RegExp (pattern flags : js_string) : M W Regex :=
  match RegExp pattern flags with
  | Some r => ret r
  | None => throw SyntaxError
  end.

(** *** BlacklistManager.isNicknameBlacklisted *)

(** The [try]/[catch] in the body of the [for ... of] loop, as the
    test it performs on one keyword: [true] stands for the [return] of
    a match on that keyword, [false] for going on with the next
    keyword. *)
Definition keyword_matches (nickname keyword : js_string)
    (matchMode : MatchMode) : M W bool :=
  try_catch
    (match matchMode with
     | regex =>
         let* re := new_RegExp keyword (lit "i") in
         ret (test re nickname)
     | contains =>
         ret (includes (toLowerCase nickname) (toLowerCase keyword))
     end)
    (λ error, ret (includes (toLowerCase nickname) (toLowerCase keyword))).

Fixpoint isNicknameBlacklisted_loop (keywords : list js_string)
    (nickname : js_string) (matchMode : MatchMode) : M W NicknameCheck.t :=
  match keywords with
  | [] =>
      ret {| NicknameCheck.isBlacklisted := false;
             NicknameCheck.matchedKeyword := None |}
  | keyword :: rest =>
      let* hit := keyword_matches nickname keyword matchMode in
      if hit
      then ret {| NicknameCheck.isBlacklisted := true;
                  NicknameCheck.matchedKeyword := Some keyword |}
      else isNicknameBlacklisted_loop rest nickname matchMode
  end.

Definition isNicknameBlacklisted (nickname : option js_string)
    (matchMode : MatchMode) : M W NicknameCheck.t :=
  λ st,
    let this := blacklistManager st in
    match nickname with
    | Some name =>
        if negb (truthy name)
           || bool_decide (length (BlacklistManager.nicknameBlacklist this) = 0%nat)
        then ret {| NicknameCheck.isBlacklisted := false;
                    NicknameCheck.matchedKeyword := None |} st
        else isNicknameBlacklisted_loop
               (BlacklistManager.nicknameBlacklist this) name matchMode st
    | None =>
        ret {| NicknameCheck.isBlacklisted := false;
               NicknameCheck.matchedKeyword := None |} st
    end.

(** *** verifyUserKicked

    Answers whether the user is still in the group. *)
Definition verifyUserKicked (session : Session.t) (userId : js_string)
  : M W bool :=
  try_catch
    (let* members := bot_getGuildMemberList (Session.guildId session) in
     let memberList := default [] members in
     ret (existsb
            (λ member, bool_decide (User.id (Member.user member) = userId))
            memberList))
    (λ error,
       try_catch
         (let* member := bot_getGuildMember (Session.guildId session) userId in
          ret (match member with Some _ => true | None => false end))
         (λ memberError,
            if message_includes memberError (lit "not found")
               || message_includes memberError user_does_not_exist
            then ret false
            else throw memberError)).

(** *** kickUserWithRetry

    [kickUserWithRetry_from n i] is the [for] loop at index [i] with
    [n] iterations left.  Inside an iteration [Some b] stands for
    [return b], [None] for reaching the end of the loop body.
    [after_kick] is the part of the [try] block that follows the
    removal call. *)
Definition after_kick (i : Z) (session : Session.t)
    (userId displayName : js_string) : M W (option bool) :=
  if verifyKickResult config then
    sleep (verifyDelay config) ;;;
    let* isStillInGroup := verifyUserKicked session userId in
    if negb isStillInGroup then ret (Some true)
    else if i =? retryAttempts config - 1 then
      session_send session (StillInGroupWarning displayName) ;;;
      ret (Some false)
    else throw still_in_group_error
  else ret (Some true).

(** The [catch] block of the loop body. *)
Definition on_error (i : Z) (session : Session.t) (displayName : js_string)
    (error : Error) : M W (option bool) :=
  if i <? retryAttempts config - 1 then
    sleep (retryDelay config) ;;; ret None
  else
    session_send session (KickFailedWarning displayName) ;;; ret None.

(** The loop body: [try { kick; after_kick } catch { on_error }]. *)
Definition kick_attempt (i : Z) (session : Session.t)
    (userId displayName : js_string) : M W (option bool) :=
  try_catch
    (bot_kickGuildMember (Session.guildId session) userId ;;;
     after_kick i session userId displayName)
    (on_error i session displayName).

Fixpoint kickUserWithRetry_from (n : nat) (i : Z) (session : Session.t)
    (userId displayName : js_string) : M W bool :=
  match n with
  | O => ret false
  | S n' =>
      let* returned := kick_attempt i session userId displayName in
      match returned with
      | Some b => ret b
      | None => kickUserWithRetry_from n' (i + 1) session userId displayName
      end
  end.

Definition kickUserWithRetry (session : Session.t)
    (userId displayName : js_string) : M W bool :=
  kickUserWithRetry_from (Z.to_nat (retryAttempts config)) 0
    session userId displayName.

(** *** concurrencyController.execute, seen from the caller

    The run that calls [execute] is not interleaved with others, so
    the queue is empty when the wrapper is pushed: [processQueue]
    starts it at once when a slot is free, and otherwise nothing is
    there to start it later. *)
Definition execute {A} (task : M W A) : M W A :=
  λ st,
    if bool_decide (maxConcurrent config ≤ running st) then (Hangs, st)
    else
      match task (set_running (running st + 1) st) with
      | (Hangs, st') => (Hangs, st')
      | (r, st') => (r, set_running (running st' - 1) st')
      end.

(** *** checkAndKickUser *)

(** Lines 382-399: which blacklist, if any, flags the user. *)
Definition classify (userId : js_string) (nickname : option js_string)
  : M W (option KickReason) :=
  λ st,
    if BlacklistManager.isBlacklisted (blacklistManager st) userId
    then ret (Some IdBlacklist) st
    else if truthy_opt nickname then
      (let* nicknameCheck :=
         isNicknameBlacklisted nickname (nicknameMatchMode config) in
       if NicknameCheck.isBlacklisted nicknameCheck
       then ret (Some (NicknameBlacklist
                         (NicknameCheck.matchedKeyword nicknameCheck)))
       else ret None) st
    else ret None st.

(** Lines 405-430: what [checkAndKickUser] does with a flagged user. *)
Definition kick_flagged (session : Session.t)
    (userId displayName : js_string) (kickReason : KickReason) : M W bool :=
  log (LogFound displayName userId kickReason) ;;;
  (if notifyAdmins config then
     try_catch
       (session_send session (AdminNotify displayName kickReason))
       (λ error, log (LogNotifyFailed error))
   else ret ()) ;;;
  let* kickSuccess :=
    execute
      (let* success := kickUserWithRetry session userId displayName in
       (if success
        then log (LogKicked displayName userId kickReason)
        else log (LogKickFailed displayName userId kickReason)) ;;;
       ret success) in
  ret kickSuccess.

Definition checkAndKickUser (session : Session.t) (userId : js_string)
    (nickname : option js_string) : M W bool :=
  let displayName := js_or nickname userId in
  let* verdict := classify userId nickname in
  match verdict with
  | None => ret false
  | Some kickReason => kick_flagged session userId displayName kickReason
  end.

(** *** delayedNicknameCheck *)

Definition cache_delete (userId : js_string) : M W () :=
  λ st, (Ok (), set_cache (delete userId (newUserNicknameCache st)) st).

Definition delayedNicknameCheck (userId : js_string)
    (guildId : option js_string) (originalNickname : js_string) : M W () :=
  try_catch
    (let* memberInfo := bot_getGuildMember guildId userId in
     match memberInfo with
     | None => cache_delete userId
     | Some _ =>
         let currentNickname := getUserNickname memberInfo None in
         match currentNickname with
         | Some current =>
             if truthy current
                && bool_decide (current ≠ originalNickname)
                && bool_decide (current ≠ userId)
             then
               log (LogNicknameChanged userId originalNickname current) ;;;
               let* nicknameCheck :=
                 isNicknameBlacklisted currentNickname
                   (nicknameMatchMode config) in
               if NicknameCheck.isBlacklisted nicknameCheck then
                 log (LogNicknameViolation current
                        (NicknameCheck.matchedKeyword nicknameCheck)) ;;;
                 let kickSession :=
                   {| Session.userId := userId;
                      Session.guildId := guildId;
                      Session.username := None;
                      Session.author_name := None;
                      Session.author_isBot := false;
                      Session.user_name := None;
                      Session.has_send := false |} in
                 checkAndKickUser kickSession userId currentNickname ;;;
                 ret ()
               else ret ()
             else ret ()
         | None => ret ()
         end ;;;
         cache_delete userId
     end)
    (λ error,
       log (LogDelayedCheckFailed userId error) ;;;
       cache_delete userId).

(** *** scanExistingMembers *)

(** The body of [for (const member of batch)]. *)
Definition scan_member (session : Session.t) (member : Member.t)
    (c : ScanCounts) : M W ScanCounts :=
  let scanned := scannedCount c + 1 in
  let userId := User.id (Member.user member) in
  let nickname := getUserNickname (Some member) None in
  let* manager := read_blacklistManager in
  let* shouldKick :=
    if BlacklistManager.isBlacklisted manager userId then ret true
    else if truthy_opt nickname then
      let* nicknameCheck :=
        isNicknameBlacklisted nickname (nicknameMatchMode config) in
      ret (NicknameCheck.isBlacklisted nicknameCheck)
    else ret false in
  let* c' :=
    if shouldKick then
      let* kickResult := checkAndKickUser session userId nickname in
      ret {| scannedCount := scanned;
             blacklistedCount := blacklistedCount c + 1;
             kickedCount :=
               if kickResult then kickedCount c + 1 else kickedCount c;
             failedKickCount :=
               if kickResult then failedKickCount c
               else failedKickCount c + 1 |}
    else
      ret {| scannedCount := scanned;
             blacklistedCount := blacklistedCount c;
             kickedCount := kickedCount c;
             failedKickCount := failedKickCount c |} in
  (if (0 <? blacklistedCount c')
      && divides_js (maxConcurrent config) (scannedCount c')
   then sleep (kickDelay config)
   else ret ()) ;;;
  ret c'.

Fixpoint scan_batch (session : Session.t) (batch : list Member.t)
    (c : ScanCounts) : M W ScanCounts :=
  match batch with
  | [] => ret c
  | member :: rest =>
      let* c' := scan_member session member c in
      scan_batch session rest c'
  end.

(** The loop [for (let i = 0; i < filteredMembers.length; i +=
    config.batchSize)] from index [i] on.  [fuel] bounds the number of
    iterations; with [batchSize >= 1] the loop ends within
    [filteredMembers.length] of them, and with [batchSize <= 0] it
    never ends. *)
Fixpoint scan_batches (fuel : nat) (i : Z) (session : Session.t)
    (filteredMembers : list Member.t) (c : ScanCounts) : M W ScanCounts :=
  if i <? Z.of_nat (length filteredMembers) then
    match fuel with
    | O => λ st, (Hangs, st)
    | S fuel' =>
        let batch := slice filteredMembers i (i + batchSize config) in
        let* c' := scan_batch session batch c in
        (if i + batchSize config <? Z.of_nat (length filteredMembers)
         then sleep 1000
         else ret ()) ;;;
        scan_batches fuel' (i + batchSize config) session filteredMembers c'
    end
  else ret c.

Definition updateStats (scanned kicked failed scanTime : Z) : M W () :=
  λ st,
    (Ok (),
     set_blacklistManager
       (BlacklistManager.updateStats (blacklistManager st)
          scanned kicked failed scanTime) st).

Definition scanExistingMembers (session : Session.t) : M W () :=
  if negb (enableJoinScan config) then ret ()
  else
    let* startTime := date_now in
    log (LogScanStart (Session.guildId session)) ;;;
    try_catch
      (let* members := bot_getGuildMemberList (Session.guildId session) in
       let memberList := default [] members in
       let filteredMembers :=
         if skipBotMembers config
         then filter (λ member, User.isBot (Member.user member) = false)
                memberList
         else memberList in
       let* c :=
         scan_batches (length filteredMembers) 0 session filteredMembers
           {| scannedCount := 0; blacklistedCount := 0;
              kickedCount := 0; failedKickCount := 0 |} in
       let* finished := date_now in
       let scanTime := finished - startTime in
       (if enableStats config
        then updateStats (scannedCount c) (kickedCount c)
               (failedKickCount c) scanTime
        else ret ()) ;;;
       if 0 <? blacklistedCount c
       then log (LogScanReport (scannedCount c) (blacklistedCount c)
                   (kickedCount c) (failedKickCount c) scanTime)
       else log (LogScanClean (scannedCount c) scanTime))
      (λ error, log (LogScanFailed error)).

(** *** Event handlers *)

(** [setTimeout(callback, delay)]: the callback is armed; nothing
    keeps the handle. *)
Definition setTimeout (callback : Timer) : M W () :=
  λ st, (Ok (), set_timers (timers st ++ [callback]) st).

(** [ctx.on('guild-added', ...)] *)
Definition on_guild_added (session : Session.t) : M W () :=
  log (LogBotJoined (Session.guildId session)) ;;;
  setTimeout (ScanTimer session).

(** [!nickname || nickname === userId] *)
Definition unresolved (nickname : option js_string) (userId : js_string)
  : bool :=
  negb (truthy_opt nickname) || bool_decide (nickname = Some userId).

(** Lines 615-627: the cache entry and the one-shot timer of a delayed
    nickname check. *)
Definition register_recheck (session : Session.t)
    (userId nickname : js_string) : M W () :=
  log (LogDelayedCheckArmed userId) ;;;
  let* now := date_now in
  (λ st,
     (Ok (),
      set_cache
        (<[userId := {| CacheEntry.nickname := nickname;
                        CacheEntry.guildId := Session.guildId session;
                        CacheEntry.joinTime := now |}]>
           (newUserNicknameCache st)) st)) ;;;
  setTimeout (RecheckTimer userId (Session.guildId session) nickname).

(** [ctx.on('guild-member-added', ...)] *)
Definition on_guild_member_added (session : Session.t) : M W () :=
  if negb (enableMemberJoin config) then ret ()
  else
    let userId := Session.userId session in
    log (LogMemberJoined userId) ;;;
    if skipBotMembers config && Session.author_isBot session then ret ()
    else
      let nickname0 := getUserNickname None (Some session) in
      let* nickname1 :=
        if unresolved nickname0 userId
           && truthy_opt (Session.guildId session)
        then
          try_catch
            (let* memberInfo :=
               bot_getGuildMember (Session.guildId session) userId in
             let apiNickname := getUserNickname memberInfo None in
             ret (if truthy_opt apiNickname
                     && bool_decide (apiNickname ≠ Some userId)
                  then apiNickname else nickname0))
            (λ error, log (LogMemberApiFailed error) ;;; ret nickname0)
        else ret nickname0 in
      let* nickname2 :=
        if unresolved nickname1 userId then
          try_catch
            (let* userInfo := bot_getUser userId in
             let userNickname :=
               match userInfo with
               | Some u =>
                   if truthy_opt (User.name u) then User.name u
                   else if truthy_opt (User.username u) then User.username u
                   else None
               | None => None
               end in
             ret (if truthy_opt userNickname
                     && bool_decide (userNickname ≠ Some userId)
                  then userNickname else nickname1))
            (λ error, log (LogUserInfoFailed error) ;;; ret nickname1)
        else ret nickname1 in
      let* manager := read_blacklistManager in
      if unresolved nickname2 userId
         && BlacklistManager.isBlacklisted manager userId
      then checkAndKickUser session userId None ;;; ret ()
      else
        let nickname :=
          if unresolved nickname2 userId then userId
          else default userId nickname2 in
        log (LogNewMember nickname userId) ;;;
        let* immediateCheckResult :=
          checkAndKickUser session userId (Some nickname) in
        if negb immediateCheckResult
           && enableDelayedNicknameCheck config
           && bool_decide (nickname ≠ userId)
        then register_recheck session userId nickname
        else ret ().

(** The callback of an armed timer. *)
Definition timer_callback (timer : Timer) : M W () :=
  match timer with
  | RecheckTimer userId guildId nickname =>
      delayedNicknameCheck userId guildId nickname
  | ScanTimer session => scanExistingMembers session
  end.

(** The callback of [configCheckInterval]. *)
Definition reload_blacklist (st : App W) : App W :=
  set_blacklistManager
    (BlacklistManager.updateBlacklist (blacklistManager st)
       (blacklist config) (nicknameBlacklist config)) st.

(** [ctx.on('dispose', ...)]: [clearInterval(configCheckInterval)] and
    [newUserNicknameCache.clear()]. *)
Definition dispose (st : App W) : App W :=
  set_cache ∅ (set_configCheckInterval false st).

(** The state [apply] leaves behind. *)
Definition apply (w : W) : App W :=
  let bm :=
    BlacklistManager.new (blacklist config) (nicknameBlacklist config) in
  {| world := w;
     blacklistManager := bm;
     running := 0;
     newUserNicknameCache := ∅;
     timers := [];
     configCheckInterval := true;
     trace :=
       [Log LogStarted;
        Log (LogBlacklistSize (BlacklistManager.size bm));
        Log (LogNicknameKeywords (BlacklistManager.nicknameSize bm)
               (nicknameBlacklist config));
        Log (LogModes (nicknameMatchMode config) (verifyKickResult config));
        Log (LogDelayedCheck (enableDelayedNicknameCheck config))]
       ++ (if enableDelayedNicknameCheck config
           then [Log LogDelayedCheckHint] else []) |}.

(** One event of the host, run to its end; [None] when the event
    cannot happen (no such armed timer, interval already cleared). *)
Definition app_step (ev : AppEvent) (st : App W) : option (App W) :=
  match ev with
  | GuildAdded session => Some (on_guild_added session st).2
  | GuildMemberAdded session => Some (on_guild_member_added session st).2
  | TimerFires k =>
      match timers st !! k with
      | Some timer =>
          Some (timer_callback timer
                  (set_timers (delete k (timers st)) st)).2
      | None => None
      end
  | IntervalTick =>
      if configCheckInterval st then Some (reload_blacklist st) else None
  | Dispose => Some (dispose st)
  end.

Fixpoint app_run (evs : list AppEvent) (st : App W) : option (App W) :=
  match evs with
  | [] => Some st
  | ev :: evs' =>
      match app_step ev st with
      | Some st' => app_run evs' st'
      | None => None
      end
  end.

(** The armed recheck timers of one user in one guild. *)
Definition is_recheck_of (guildId : option js_string) (userId : js_string)
    (timer : Timer) : bool :=
  match timer with
  | RecheckTimer u g _ => bool_decide (u = userId) && bool_decide (g = guildId)
  | ScanTimer _ => false
  end.

Definition pending_rechecks (guildId : option js_string)
    (userId : js_string) (st : App W) : list Timer :=
  filter (λ timer, is_recheck_of guildId userId timer = true) (timers st).

End Plugin.

(** ** A scripted platform and a small runtime

    Concrete instances of [Platform] and [Runtime], used to run the
    definitions above on examples.  The world of the scripted platform
    is the list of answers still to come: each call takes the next
    answer when it is of its kind and fails otherwise. *)

Module Scripted.

Inductive Reply :=
| KickReply (r : Res ())
| MemberListReply (r : Res (option (list Member.t)))
| MemberReply (r : Res (option Member.t))
| UserReply (r : Res (option User.t))
| SendReply (r : Res ())
| NowReply (t : Z).

Definition off_script : Error := {| message := Some (lit "off script") |}.

Definition network_error : Error := {| message := Some (lit "timeout") |}.

Definition next_kick (w : list Reply) : Res () * list Reply :=
  match w with
  | KickReply r :: w' => (r, w')
  | _ => (Throw off_script, w)
  end.

Definition next_member_list (w : list Reply)
  : Res (option (list Member.t)) * list Reply :=
  match w with
  | MemberListReply r :: w' => (r, w')
  | _ => (Throw off_script, w)
  end.

Definition next_member (w : list Reply) : Res (option Member.t) * list Reply :=
  match w with
  | MemberReply r :: w' => (r, w')
  | _ => (Throw off_script, w)
  end.

Definition next_user (w : list Reply) : Res (option User.t) * list Reply :=
  match w with
  | UserReply r :: w' => (r, w')
  | _ => (Throw off_script, w)
  end.

Definition next_send (w : list Reply) : Res () * list Reply :=
  match w with
  | SendReply r :: w' => (r, w')
  | _ => (Throw off_script, w)
  end.

Definition next_now (w : list Reply) : Z * list Reply :=
  match w with
  | NowReply t :: w' => (t, w')
  | _ => (0, w)
  end.

#[global] Instance platform : Platform (list Reply) := {|
  kickGuildMember := λ _ _, next_kick;
  getGuildMemberList := λ _, next_member_list;
  getGuildMember := λ _ _, next_member;
  getUser := λ _, next_user;
  send := λ _ _, next_send;
  Date_now := next_now;
  elapse := λ _ w, w
|}.

(** Lower case of the letters A-Z; other code units are left alone. *)
Definition ascii_lower (s : js_string) : js_string :=
  (λ c, if (65 <=? c) && (c <=? 90) then c + 32 else c)%N <$> s.

(** A regular-expression engine for literal patterns: a pattern with
    a parenthesis or bracket in it is rejected as the real engine
    rejects an unbalanced one, any other pattern is searched for as it
    stands, ignoring case under the flag [i]. *)
Definition literal_RegExp (pattern flags : js_string)
  : option (js_string * bool) :=
  if bool_decide (Exists (λ c, c ∈ [40; 41; 91; 93]%N) pattern) then None
  else Some (pattern, includes flags (lit "i")).

Definition literal_test (re : js_string * bool) (s : js_string) : bool :=
  if re.2 then includes (ascii_lower s) (ascii_lower re.1)
  else includes s re.1.

#[global] Instance runtime : Runtime := {|
  toLowerCase := ascii_lower;
  Regex := js_string * bool;
  RegExp := literal_RegExp;
  test := literal_test
|}.

(** A configuration with the defaults of the schema and the given
    lists. *)
Definition config (blacklist nicknameBlacklist : list js_string)
    (mode : MatchMode) : Config :=
  {| blacklist := blacklist;
     nicknameBlacklist := nicknameBlacklist;
     enableJoinScan := true;
     enableMemberJoin := true;
     enableDelayedNicknameCheck := true;
     delayedCheckTime := 300000;
     notifyAdmins := false;
     scanDelay := 5000;
     batchSize := 50;
     maxConcurrent := 3;
     kickDelay := 2000;
     retryAttempts := 3;
     retryDelay := 5000;
     enableStats := true;
     skipBotMembers := true;
     verifyKickResult := true;
     verifyDelay := 2000;
     nicknameMatchMode := mode |}.

(** A session as the host delivers it. *)
Definition session (userId guildId : string) (username : option js_string)
  : Session.t :=
  {| Session.userId := lit userId;
     Session.guildId := Some (lit guildId);
     Session.username := username;
     Session.author_name := None;
     Session.author_isBot := false;
     Session.user_name := None;
     Session.has_send := true |}.

Definition member (userId : string) (nick : option js_string) : Member.t :=
  {| Member.user :=
       {| User.id := lit userId; User.name := None;
          User.username := None; User.isBot := false |};
     Member.nick := nick;
     Member.nickname := None;
     Member.displayName := None |}.

(** ['管理员'] and ['群管理员小明'] *)
Definition guanliyuan : js_string := [31649; 29702; 21592]%N.
Definition qun_guanliyuan_xiaoming : js_string :=
  [32676; 31649; 29702; 21592; 23567; 26126]%N.

End Scripted.

(** ** Vocabulary of the statements *)

(** [k] occurs in [s] as a contiguous run of code units. *)
Definition occurs_in (k s : js_string) : Prop :=
  ∃ before after, s = before ++ k ++ after.

(** A keyword matches a nickname, as the specification words it:
    in contains mode a substring test on the lower-cased strings; in
    regex mode the search [RegExp(keyword, 'i').test(nickname)], and for
    a keyword that does not compile the substring test again. *)
Definition Matches `{!Runtime} (matchMode : MatchMode)
    (nickname keyword : js_string) : Prop :=
  match matchMode with
  | contains => occurs_in (toLowerCase keyword) (toLowerCase nickname)
  | regex =>
      match RegExp keyword (lit "i") with
      | Some re => test re nickname = true
      | None => occurs_in (toLowerCase keyword) (toLowerCase nickname)
      end
  end.

(** The two shapes of an answer of [isNicknameBlacklisted]. *)
Definition no_match : NicknameCheck.t :=
  {| NicknameCheck.isBlacklisted := false;
     NicknameCheck.matchedKeyword := None |}.

Definition matched (keyword : js_string) : NicknameCheck.t :=
  {| NicknameCheck.isBlacklisted := true;
     NicknameCheck.matchedKeyword := Some keyword |}.

(** [keyword] is the first of [keywords] that matches [nickname]. *)
Definition first_match `{!Runtime} (matchMode : MatchMode)
    (nickname : js_string) (keywords : list js_string)
    (keyword : js_string) : Prop :=
  ∃ earlier later,
    keywords = earlier ++ keyword :: later
    ∧ Matches matchMode nickname keyword
    ∧ ∀ k, k ∈ earlier → ¬ Matches matchMode nickname k.



Definition not_kick (e : Effect) : Prop := is_kick e = false.

Definition not_send (e : Effect) : Prop := is_send e = false.

(** Every effect a computation adds to the trace satisfies [Q]. *)
Definition emits {W A : Type} (Q : Effect → Prop) (m : M W A) : Prop :=
  ∀ st r st',
    m st = (r, st') → ∃ tr, trace st' = trace st ++ tr ∧ Forall Q tr.

(** ** Vocabulary of the further properties *)

(** The call of [updateStats] that ends a scan, for the counters and
    the duration of that scan. *)
Definition record_scan (this : BlacklistManager.t) (scan : ScanCounts * Z)
  : BlacklistManager.t :=
  BlacklistManager.updateStats this (scannedCount scan.1) (kickedCount scan.1)
    (failedKickCount scan.1) scan.2.

(** The sum of a quantity over scans. *)
Definition total_of {A} (f : A → Z) (scans : list A) : Z :=
  foldr (λ scan acc, f scan + acc) 0 scans.

(** The parts of the instance that only the event handlers write: the
    lists and statistics, the cache, the armed timers, the interval. *)
Definition same_store {W} (st st' : App W) : Prop :=
  blacklistManager st' = blacklistManager st
  ∧ newUserNicknameCache st' = newUserNicknameCache st
  ∧ timers st' = timers st
  ∧ configCheckInterval st' = configCheckInterval st.

(** A computation that leaves the store and the scheduler alone. *)
Definition steady {W A} (m : M W A) : Prop :=
  ∀ st r st',
    m st = (r, st') → same_store st st' ∧ running st' = running st.

(** A computation that leaves the store alone and gives back the
    scheduler slot it took, unless it never returns. *)
Definition tidy {W A} (m : M W A) : Prop :=
  ∀ st r st',
    m st = (r, st') →
    same_store st st' ∧ (r ≠ Hangs → running st' = running st).

(** The messages [kickUserWithRetry] may send: the two warnings, for
    the display name it was given. *)
Definition warning_for (displayName : js_string) (e : Effect) : Prop :=
  ∀ m ok, e = CallSend m ok →
    m = StillInGroupWarning displayName ∨ m = KickFailedWarning displayName.



(** A user is flagged when the identifier is on the identifier
    blacklist or the nickname, if there is one, matches a keyword. *)
Definition flagged `{!Runtime} (this : BlacklistManager.t)
    (matchMode : MatchMode) (userId : js_string)
    (nickname : option js_string) : Prop :=
  BlacklistManager.isBlacklisted this userId = true
  ∨ ∃ name keyword,
      nickname = Some name ∧ name ≠ []
      ∧ keyword ∈ BlacklistManager.nicknameBlacklist this
      ∧ Matches matchMode name keyword.

(** ** A simulated platform

    One group with its member list and a clock.  A removal takes the
    user off the list when the bot is [allowed] to remove members and
    is refused otherwise; messages are always delivered. *)

Module Guild.

Record world := {
  members : list Member.t;
  clock : Z
}.

Definition permission_denied : Error :=
  {| message := Some (lit "permission denied") |}.

Definition not_found : Error := {| message := Some (lit "user not found") |}.

Definition is_user (userId : js_string) (member : Member.t) : bool :=
  bool_decide (User.id (Member.user member) = userId).

Definition remove (userId : js_string) (w : world) : world :=
  {| members := filter (λ member, is_user userId member = false) (members w);
     clock := clock w |}.

Definition platform (allowed : bool) : Platform world := {|
  kickGuildMember := λ _ userId w,
    if allowed then (Ok (), remove userId w)
    else (Throw permission_denied, w);
  getGuildMemberList := λ _ w, (Ok (Some (members w)), w);
  getGuildMember := λ _ userId w,
    match List.find (is_user userId) (members w) with
    | Some member => (Ok (Some member), w)
    | None => (Throw not_found, w)
    end;
  getUser := λ userId w,
    (Ok (Member.user <$> List.find (is_user userId) (members w)), w);
  send := λ _ _ w, (Ok (), w);
  Date_now := λ w, (clock w, w);
  elapse := λ ms w, {| members := members w; clock := clock w + ms |}
|}.

(** The bot may remove members. *)
Definition permitted : Platform world := platform true.

(** The bot may not. *)
Definition denied : Platform world := platform false.

(** A configuration with other limits. *)
Definition with_limits (cfg : Config)
    (batchSize maxConcurrent retryAttempts : Z) : Config :=
  {| blacklist := blacklist cfg;
     nicknameBlacklist := nicknameBlacklist cfg;
     enableJoinScan := enableJoinScan cfg;
     enableMemberJoin := enableMemberJoin cfg;
     enableDelayedNicknameCheck := enableDelayedNicknameCheck cfg;
     delayedCheckTime := delayedCheckTime cfg;
     notifyAdmins := notifyAdmins cfg;
     scanDelay := scanDelay cfg;
     batchSize := batchSize;
     maxConcurrent := maxConcurrent;
     kickDelay := kickDelay cfg;
     retryAttempts := retryAttempts;
     retryDelay := retryDelay cfg;
     enableStats := enableStats cfg;
     skipBotMembers := skipBotMembers cfg;
     verifyKickResult := verifyKickResult cfg;
     verifyDelay := verifyDelay cfg;
     nicknameMatchMode := nicknameMatchMode cfg |}.

(** A bot account among the members. *)
Definition bot_member (userId : string) : Member.t :=
  {| Member.user :=
       {| User.id := lit userId; User.name := None;
          User.username := None; User.isBot := true |};
     Member.nick := None;
     Member.nickname := None;
     Member.displayName := None |}.

End Guild.

(** The test of one keyword against a nickname, as a function: what
    the [try]/[catch] of [isNicknameBlacklisted] computes. *)
Definition keyword_hits `{!Runtime} (matchMode : MatchMode)
    (nickname keyword : js_string) : bool :=
  match matchMode with
  | contains => includes (toLowerCase nickname) (toLowerCase keyword)
  | regex =>
      match RegExp keyword (lit "i") with
      | Some re => test re nickname
      | None => includes (toLowerCase nickname) (toLowerCase keyword)
      end
  end.

(** Lines 504-513, as a function of the lists: whether the scan takes
    a member for blacklisted. *)
Definition should_kick `{!Runtime} (this : BlacklistManager.t)
    (matchMode : MatchMode) (userId : js_string)
    (nickname : option js_string) : bool :=
  BlacklistManager.isBlacklisted this userId
  || match nickname with
     | Some name =>
         truthy name
         && existsb (keyword_hits matchMode name)
              (BlacklistManager.nicknameBlacklist this)
     | None => false
     end.

(** The members a scan examines, and those of them it takes for
    blacklisted. *)
Definition scanned_members (config : Config) (members : option (list Member.t))
  : list Member.t :=
  if skipBotMembers config
  then filter (λ member, User.isBot (Member.user member) = false)
         (default [] members)
  else default [] members.

Definition member_flagged `{!Runtime} (this : BlacklistManager.t)
    (matchMode : MatchMode) (member : Member.t) : bool :=
  should_kick this matchMode (User.id (Member.user member))
    (getUserNickname (Some member) None).

(** The last line of a scan that ran to its end. *)
Definition scan_summary (scanned blacklisted kicked failed scanTime : Z)
  : LogEntry :=
  if 0 <? blacklisted
  then LogScanReport scanned blacklisted kicked failed scanTime
  else LogScanClean scanned scanTime.



(** Two managers with the same lists (their statistics may differ). *)
Definition same_lists (this this' : BlacklistManager.t) : Prop :=
  BlacklistManager.blacklistSet this' = BlacklistManager.blacklistSet this
  ∧ BlacklistManager.nicknameBlacklist this'
    = BlacklistManager.nicknameBlacklist this.

(** An effect that, if it is a removal call, removes a user who is
    flagged under the lists of [this], by the identifier or by some
    nickname. *)
Definition justified `{!Runtime} (this : BlacklistManager.t)
    (matchMode : MatchMode) (e : Effect) : Prop :=
  ∀ g u, e = CallKick g u → ∃ nickname, flagged this matchMode u nickname.

(** A computation that keeps the lists as they are and removes
    flagged users only. *)
Definition guarded {W A} `{!Runtime} (config : Config) (m : M W A) : Prop :=
  ∀ st r st',
    m st = (r, st') →
    same_lists (blacklistManager st) (blacklistManager st')
    ∧ ∃ tr,
        trace st' = trace st ++ tr
        ∧ Forall (justified (blacklistManager st) (nicknameMatchMode config))
            tr.


(** ** The chat commands of the earlier version ([unnamed/part_000])

    In the earlier version of the plugin the blacklist is the array
    [config.blacklist] itself; the commands [auto-kick.add],
    [auto-kick.remove] and [auto-kick.list] read and change it in
    place.  A command is a function from the array and the argument
    to the reply and the array afterwards. *)

Module Legacy.

(** The replies, by the template that builds them. *)
Inductive Reply :=
| AddUsage                          (* '请提供要添加的 QQ 号' *)
| AlreadyListed (qq : js_string)    (* `QQ 号 ${qq} 已在黑名单中` *)
| Added (qq : js_string)            (* `已将 QQ 号 ${qq} 添加到黑名单` *)
| RemoveUsage                       (* '请提供要移除的 QQ 号' *)
| NotListed (qq : js_string)        (* `QQ 号 ${qq} 不在黑名单中` *)
| Removed (qq : js_string)          (* `已将 QQ 号 ${qq} 从黑名单中移除` *)
| ListEmpty                         (* '黑名单为空' *)
| Listing (count : nat) (entries : list js_string).

(** [blacklist.includes(qq)] *)
Definition includes (blacklist : list js_string) (qq : js_string) : bool :=
  bool_decide (qq ∈ blacklist).

(** [blacklist.indexOf(qq)]; [None] stands for [-1]. *)
Fixpoint indexOf (blacklist : list js_string) (qq : js_string) : option nat :=
  match blacklist with
  | [] => None
  | entry :: rest =>
      if decide (entry = qq) then Some 0%nat else S <$> indexOf rest qq
  end.

(** [blacklist.splice(index, 1)] *)
Definition splice1 (blacklist : list js_string) (index : nat)
  : list js_string :=
  take index blacklist ++ drop (S index) blacklist.

(** [auto-kick.add <qq>] *)
Definition add (blacklist : list js_string) (qq : option js_string)
  : Reply * list js_string :=
  if negb (truthy_opt qq) then (AddUsage, blacklist)
  else
    let q := default [] qq in
    if includes blacklist q then (AlreadyListed q, blacklist)
    else (Added q, blacklist ++ [q]).

(** [auto-kick.remove <qq>] *)
Definition remove (blacklist : list js_string) (qq : option js_string)
  : Reply * list js_string :=
  if negb (truthy_opt qq) then (RemoveUsage, blacklist)
  else
    let q := default [] qq in
    match indexOf blacklist q with
    | None => (NotListed q, blacklist)
    | Some index => (Removed q, splice1 blacklist index)
    end.

(** [auto-kick.list] *)
Definition list (blacklist : list js_string) : Reply :=
  if bool_decide (length blacklist = 0%nat) then ListEmpty
  else Listing (length blacklist) blacklist.

End Legacy.

(** The members left in the simulated group when the users [removed]
    have been taken off the list. *)
Definition survivors (removed : list Member.t) (members : list Member.t)
  : list Member.t :=
  filter (λ member,
            User.id (Member.user member)
            ∉ (λ hit, User.id (Member.user hit)) <$> removed)
    members.


(** The counters of a scan after [scanned] more members, of which
    [hits] were taken for blacklisted and removed. *)
Definition counted (c : ScanCounts) (scanned hits : nat) : ScanCounts :=
  {| scannedCount := scannedCount c + Z.of_nat scanned;
     blacklistedCount := blacklistedCount c + Z.of_nat hits;
     kickedCount := kickedCount c + Z.of_nat hits;
     failedKickCount := failedKickCount c |}.
(* ===================================================================== *)
(** * Part II: theorems                                                   *)
(* ===================================================================== *)

(** ** JavaScript strings *)

Section StringFacts.
Implicit Types s k : js_string.

Lemma trimStart_head s :
  trimStart s = [] ∨ ∃ c t, trimStart s = c :: t ∧ is_white_space c = false.
Proof.
  induction s as [|c s IH]; simpl; [by left|].
  destruct (is_white_space c) eqn:Hc; [exact IH|].
  right. by exists c, s.
Qed.

Lemma trimStart_fixed c s :
  is_white_space c = false → trimStart (c :: s) = c :: s.
Proof. intros Hc. simpl. by rewrite Hc. Qed.

Lemma trimStart_idemp s : trimStart (trimStart s) = trimStart s.
Proof.
  destruct (trimStart_head s) as [->|(c & t & -> & Hc)]; [done|].
  by apply trimStart_fixed.
Qed.

Lemma trimStart_snoc c s :
  is_white_space c = false → trimStart (s ++ [c]) = trimStart s ++ [c].
Proof.
  intros Hc. induction s as [|d s IH]; simpl.
  - by rewrite Hc.
  - by destruct (is_white_space d).
Qed.

Lemma trimEnd_nil : trimEnd [] = [].
Proof. reflexivity. Qed.

Lemma trimEnd_cons c s :
  is_white_space c = false → trimEnd (c :: s) = c :: trimEnd s.
Proof.
  intros Hc. unfold trimEnd. rewrite reverse_cons, trimStart_snoc by done.
  by rewrite reverse_app.
Qed.

Lemma trimEnd_idemp s : trimEnd (trimEnd s) = trimEnd s.
Proof.
  unfold trimEnd. by rewrite reverse_involutive, trimStart_idemp.
Qed.

Lemma trim_nil : trim [] = [].
Proof. reflexivity. Qed.

Lemma trim_idemp s : trim (trim s) = trim s.
Proof.
  unfold trim.
  destruct (trimStart_head s) as [->|(c & t & -> & Hc)]; [done|].
  rewrite (trimEnd_cons c t Hc), (trimStart_fixed c _ Hc).
  by rewrite (trimEnd_cons c _ Hc), trimEnd_idemp.
Qed.

Lemma has_content_spec s : has_content s = true ↔ s ≠ [] ∧ trim s ≠ [].
Proof.
  unfold has_content. rewrite andb_true_iff, bool_decide_eq_true.
  destruct s as [|c s]; simpl.
  - split; [intros [? _]; done | intros [? _]; done].
  - split.
    + intros [_ Hlen]. split; [done|].
      intros Heq. rewrite Heq in Hlen. simpl in Hlen. lia.
    + intros [_ Hne]. split; [done|].
      destruct (trim (c :: s)); [done | simpl; lia].
Qed.

Lemma has_content_trim s : has_content s = true ↔ trim s ≠ [].
Proof.
  rewrite has_content_spec. split; [by intros [_ ?]|].
  intros H. split; [|done]. intros ->. by apply H.
Qed.

Lemma startsWith_spec s k : startsWith s k = true ↔ ∃ after, s = k ++ after.
Proof.
  revert s. induction k as [|b k IH]; intros s; simpl.
  - split; [intros _; by exists s | done].
  - destruct s as [|a s].
    + split; [done | intros [after H]; done].
    + rewrite andb_true_iff, bool_decide_eq_true, IH. split.
      * intros [-> [after ->]]. by exists after.
      * intros [after H]. simplify_eq. split; [done | by exists after].
Qed.

(** [includes] is the substring test. *)
Lemma includes_spec s k : includes s k = true ↔ occurs_in k s.
Proof.
  unfold occurs_in. induction s as [|a s IH].
  - simpl. rewrite orb_false_r, startsWith_spec. split.
    + intros [after H]. by exists [], after.
    + intros (before & after & H).
      destruct before; simpl in H; [by exists after|done].
  - cbn [includes]. rewrite orb_true_iff, startsWith_spec, IH. split.
    + intros [[after ->] | (before & after & ->)].
      * by exists [], after.
      * by exists (a :: before), after.
    + intros (before & after & H). destruct before as [|b before].
      * left. by exists after.
      * right. simpl in H. simplify_eq. by exists before, after.
Qed.

End StringFacts.

(** ** BlacklistManager: the identifier blacklist *)

Section BlacklistFacts.
Import BlacklistManager.
Implicit Types (this : BlacklistManager.t) (id entry : js_string).

Lemma elem_of_unique_in_order (xs : list js_string) x :
  x ∈ unique_in_order xs ↔ x ∈ xs.
Proof.
  induction xs as [|y xs IH]; simpl; [done|].
  rewrite !elem_of_cons, list_elem_of_filter, IH.
  destruct (decide (x = y)); tauto.
Qed.

Lemma unique_in_order_NoDup (xs : list js_string) :
  NoDup (unique_in_order xs).
Proof.
  induction xs as [|y xs IH]; simpl; [constructor|].
  constructor.
  - rewrite list_elem_of_filter. tauto.
  - by apply NoDup_filter.
Qed.

Lemma elem_of_add_all (entries : list js_string) (s : gset js_string) x :
  x ∈ add_all entries s ↔ x ∈ entries ∨ x ∈ s.
Proof.
  unfold add_all. revert s.
  induction entries as [|e entries IH]; intros s; simpl.
  - rewrite elem_of_nil. tauto.
  - rewrite IH, elem_of_cons. set_solver.
Qed.

(** What [updateBlacklist] puts into the set: the trimmed forms of the
    entries that are not empty and not blank. *)
Lemma elem_of_blacklistSet_updateBlacklist this blacklist nicknames id :
  id ∈ blacklistSet (updateBlacklist this blacklist nicknames)
  ↔ id ≠ [] ∧ id ∈ trim <$> blacklist.
Proof.
  unfold updateBlacklist. simpl.
  rewrite elem_of_add_all, elem_of_unique_in_order, !list_elem_of_fmap.
  split.
  - intros [(entry & -> & Hin) | Hin]; [|set_solver].
    apply list_elem_of_filter in Hin as [Hc Hin].
    apply has_content_trim in Hc. eauto.
  - intros [Hne (entry & -> & Hin)]. left. exists entry. split; [done|].
    apply list_elem_of_filter. split; [|done]. by apply has_content_trim.
Qed.

(** C5.  After [updateBlacklist] has loaded a list, [isBlacklisted id]
    holds exactly when [id] is the trimmed form of a non-empty entry of
    that list.  An entry is empty here as it is for the filter of
    [updateBlacklist], which normalises before it drops: nothing is
    left of it after trimming.  So for every [id] but the empty string
    the question is just whether [id] is the trimmed form of an entry,
    and the empty string is never blacklisted.  The answer depends on
    the list only through the set of trimmed forms of its entries:
    neither the white space around entries, nor repeated entries, nor
    the state before the load changes any query. *)
Theorem isBlacklisted_after_updateBlacklist this blacklist nicknames id :
  (isBlacklisted (updateBlacklist this blacklist nicknames) id = true
   ↔ ∃ entry, entry ∈ blacklist ∧ entry ≠ [] ∧ trim entry ≠ []
              ∧ id = trim entry)
  ∧ (id ≠ [] →
     (isBlacklisted (updateBlacklist this blacklist nicknames) id = true
      ↔ ∃ entry, entry ∈ blacklist ∧ id = trim entry))
  ∧ isBlacklisted (updateBlacklist this blacklist nicknames) [] = false
  ∧ (∀ this' blacklist' nicknames',
       (∀ x, x ∈ trim <$> blacklist' ↔ x ∈ trim <$> blacklist) →
       isBlacklisted (updateBlacklist this' blacklist' nicknames') id
       = isBlacklisted (updateBlacklist this blacklist nicknames) id)
  ∧ isBlacklisted
      (updateBlacklist this (trim <$> blacklist) nicknames) id
    = isBlacklisted (updateBlacklist this blacklist nicknames) id
  ∧ (∀ entry, entry ∈ blacklist →
       isBlacklisted (updateBlacklist this (entry :: blacklist) nicknames) id
       = isBlacklisted (updateBlacklist this blacklist nicknames) id).
Proof.
  assert (Hsame : ∀ this' blacklist' nicknames',
             (∀ x, x ∈ trim <$> blacklist' ↔ x ∈ trim <$> blacklist) →
             isBlacklisted (updateBlacklist this' blacklist' nicknames') id
             = isBlacklisted (updateBlacklist this blacklist nicknames) id).
  { intros this' blacklist' nicknames' Hsame. unfold isBlacklisted.
    apply bool_decide_ext.
    rewrite !elem_of_blacklistSet_updateBlacklist. by rewrite Hsame. }
  split; [|split; [|split; [|split; [exact Hsame|split]]]].
  - unfold isBlacklisted.
    rewrite bool_decide_eq_true, elem_of_blacklistSet_updateBlacklist.
    rewrite list_elem_of_fmap. split.
    + intros [Hne (entry & -> & Hin)]. exists entry.
      repeat split; try done. intros ->. by apply Hne.
    + intros (entry & Hin & _ & Hne & ->). split; [done|]. by exists entry.
  - intros Hid. unfold isBlacklisted.
    rewrite bool_decide_eq_true, elem_of_blacklistSet_updateBlacklist.
    rewrite list_elem_of_fmap. split.
    + intros [_ (entry & -> & Hin)]. by exists entry.
    + intros (entry & Hin & ->). split; [done|]. by exists entry.
  - unfold isBlacklisted. apply bool_decide_eq_false.
    rewrite elem_of_blacklistSet_updateBlacklist. by intros [? _].
  - apply Hsame. intros x. rewrite <- list_fmap_compose.
    rewrite !list_elem_of_fmap. split.
    + intros (e & -> & Hin). exists e. simpl. by rewrite trim_idemp.
    + intros (e & -> & Hin). exists e. simpl. by rewrite trim_idemp.
  - intros entry Hin. apply Hsame. intros x. rewrite fmap_cons, elem_of_cons.
    split; [intros [->|]; [|done] | by right].
    apply list_elem_of_fmap. by exists entry.
Qed.

End BlacklistFacts.

(** ** ConcurrencyController *)

Section ControllerFacts.
Import ConcurrencyController.
Context {T E : Type}.
Implicit Types (c : ConcurrencyController.t T E)
               (ev : event T E) (evs : list (event T E))
               (o : outcome T E) (n : nat).













Lemma run_app evs1 evs2 c c1 c2 :
  run evs1 c = Some c1 → run evs2 c1 = Some c2 →
  run (evs1 ++ evs2) c = Some c2.
Proof.
  revert c. induction evs1 as [|ev evs1 IH]; intros c H1 H2; simpl in *.
  - by simplify_eq.
  - destruct (step ev c); [|done]. by apply IH.
Qed.













End ControllerFacts.



(** ** BlacklistManager.isNicknameBlacklisted *)

Section NicknameFacts.
Context {W : Type} `{!Platform W} `{!Runtime}.
Variable config : Config.
Implicit Types (st : App W) (nickname keyword : js_string)
             (matchMode : MatchMode).

(** The test of one keyword never raises, leaves the state alone, and
  decides [Matches]. *)
Lemma keyword_matches_spec nickname keyword matchMode st :
  ∃ hit, keyword_matches nickname keyword matchMode st = (Ok hit, st)
         ∧ (hit = true ↔ Matches matchMode nickname keyword).
Proof.
  unfold keyword_matches, try_catch, Matches.
  destruct matchMode.
  - eexists. split; [reflexivity|]. apply includes_spec.
  - unfold new_RegExp, bind. destruct (RegExp keyword (lit "i")) as [re|].
    + eexists. split; [reflexivity|]. done.
    + eexists. split; [reflexivity|]. apply includes_spec.
Qed.

Lemma isNicknameBlacklisted_loop_spec keywords nickname matchMode st :
  (∃ keyword,
     isNicknameBlacklisted_loop keywords nickname matchMode st
     = (Ok (matched keyword), st)
     ∧ first_match matchMode nickname keywords keyword)
  ∨ (isNicknameBlacklisted_loop keywords nickname matchMode st
     = (Ok no_match, st)
     ∧ ∀ k, k ∈ keywords → ¬ Matches matchMode nickname k).
Proof.
  induction keywords as [|keyword rest IH]; simpl.
  - right. split; [done|]. intros k Hk. by apply elem_of_nil in Hk.
  - destruct (keyword_matches_spec nickname keyword matchMode st)
      as (hit & Hrun & Hhit).
    unfold bind. rewrite Hrun. destruct hit.
    + left. exists keyword. split; [reflexivity|]. exists [], rest.
      split; [done|]. split; [by apply Hhit|].
      intros k Hk. by apply elem_of_nil in Hk.
    + assert (¬ Matches matchMode nickname keyword) as Hno
        by (intros Hm; apply Hhit in Hm; done).
      destruct IH as [(k & Hloop & earlier & later & -> & Hm & Hfirst)
                     | [Hloop Hnone]].
      * left. exists k. split; [done|]. exists (keyword :: earlier), later.
        split; [done|]. split; [done|].
        intros k' [->|Hk']%elem_of_cons; [done|by apply Hfirst].
      * right. split; [done|].
        intros k' [->|Hk']%elem_of_cons; [done|by apply Hnone].
Qed.

Lemma first_match_unique matchMode nickname keywords k1 k2 :
  first_match matchMode nickname keywords k1 →
  first_match matchMode nickname keywords k2 → k1 = k2.
Proof.
  intros (e1 & l1 & -> & Hm1 & Hf1) (e2 & l2 & H2 & Hm2 & Hf2).
  revert e2 H2 Hf2. induction e1 as [|x e1 IH]; intros e2 H2 Hf2.
  - destruct e2 as [|y e2]; simpl in H2.
    + by injection H2.
    + injection H2 as Hk _. exfalso. apply (Hf2 k1); [|done].
      rewrite Hk. by left.
  - destruct e2 as [|y e2]; simpl in H2.
    + injection H2 as Hx _. exfalso. apply (Hf1 k2); [|done].
      rewrite Hx. by left.
    + injection H2 as _ Htl.
      apply (IH (λ k Hk, Hf1 k (list_elem_of_further _ _ _ Hk)) e2 Htl
               (λ k Hk, Hf2 k (list_elem_of_further _ _ _ Hk))).
Qed.

(** C6, amended.  [isNicknameBlacklisted] returns normally for every
  nickname and every keyword list, and leaves the state as it found
  it: in particular it writes no log line, also when a keyword fails
  to compile as a regular expression.  Its answer names the first
  keyword, in the order of the list, that matches, where matching is
  [Matches]: in contains mode the lower-cased keyword occurs in the
  lower-cased nickname; in regex mode the search
  [new RegExp(keyword, 'i').test(nickname)] succeeds; and for a
  keyword that does not compile, the substring test of contains mode
  stands in for that keyword. *)
Theorem isNicknameBlacklisted_first_match nickname matchMode st :
  let keywords := BlacklistManager.nicknameBlacklist (blacklistManager st) in
  ∃ check,
    isNicknameBlacklisted (Some nickname) matchMode st = (Ok check, st)
    ∧ (∀ keyword,
         check = matched keyword
         ↔ nickname ≠ [] ∧ first_match matchMode nickname keywords keyword)
    ∧ (check = no_match
       ↔ nickname = [] ∨ ∀ k, k ∈ keywords → ¬ Matches matchMode nickname k)
    ∧ (check = no_match ∨ ∃ keyword, check = matched keyword).
Proof.
  intros keywords. unfold isNicknameBlacklisted. subst keywords.
  destruct nickname as [|c nickname]; simpl.
  { exists no_match. split; [done|]. split; [|split; [|by left]].
    - intros keyword. split; [done|]. by intros [? _].
    - split; [by left|done]. }
  destruct (BlacklistManager.nicknameBlacklist (blacklistManager st))
    as [|k0 keywords'] eqn:Hk.
  { exists no_match. split; [done|]. split; [|split; [|by left]].
    - intros keyword. split; [done|].
      intros [_ (earlier & later & Hsplit & _)]. by destruct earlier.
    - split; [|done]. intros _. right. intros k Hin.
      by apply elem_of_nil in Hin. }
  rewrite bool_decide_eq_false_2 by done.
  set (keywords := k0 :: keywords').
  destruct (isNicknameBlacklisted_loop_spec keywords (c :: nickname)
              matchMode st)
    as [(keyword & Hloop & Hfirst) | [Hloop Hnone]].
  - exists (matched keyword). split; [done|]. split; [|split].
    + intros keyword'. split.
      * intros Heq. injection Heq as <-. done.
      * intros [_ Hfirst']. f_equal.
        by eapply first_match_unique.
    + split; [done|]. intros [?|Hnone]; [done|].
      destruct Hfirst as (earlier & later & Hsplit & Hm & _).
      exfalso. apply (Hnone keyword); [|done].
      rewrite Hsplit. apply elem_of_app. right. by left.
    + right. by exists keyword.
  - exists no_match. split; [done|]. split; [|split; [|by left]].
    + intros keyword. split; [done|].
      intros [_ (earlier & later & Hsplit & Hm & _)].
      exfalso. apply (Hnone keyword); [|done].
      rewrite Hsplit. apply elem_of_app. right. by left.
    + split; [by right|done].
Qed.

(** C10.  With no nickname ([null] or the empty string) or with an
  empty keyword list, [isNicknameBlacklisted] answers that there is no
  match and names no keyword, in either match mode. *)
Theorem isNicknameBlacklisted_nothing_to_match
    (nickname : option js_string) matchMode st :
  nickname = None ∨ nickname = Some []
  ∨ BlacklistManager.nicknameBlacklist (blacklistManager st) = [] →
  isNicknameBlacklisted nickname matchMode st = (Ok no_match, st).
Proof.
  unfold isNicknameBlacklisted.
  intros [-> | [-> | Hempty]]; [done|done|].
  destruct nickname as [name|]; [|done].
  rewrite Hempty. simpl. by rewrite orb_true_r.
Qed.

(** C4.  A user whose identifier is on the blacklist is reported with
  the identifier reason whatever the nickname is, so also when a
  nickname keyword would match: [checkAndKickUser] asks the
  identifier set first and goes on with ['QQ号黑名单'] as the reason in
  the log line, in the notification and in the removal. *)
Theorem identifier_match_takes_priority session userId
    (nickname : option js_string) st :
  BlacklistManager.isBlacklisted (blacklistManager st) userId = true →
  classify config userId nickname st = (Ok (Some IdBlacklist), st)
  ∧ checkAndKickUser config session userId nickname st
    = kick_flagged config session userId (js_or nickname userId)
        IdBlacklist st.
Proof.
  intros Hid.
  assert (classify config userId nickname st = (Ok (Some IdBlacklist), st))
    as Hc by (unfold classify; by rewrite Hid).
  split; [done|]. unfold checkAndKickUser, bind. by rewrite Hc.
Qed.

End NicknameFacts.

(** An empty nickname against a keyword list that is not empty. *)
Lemma isNicknameBlacklisted_nothing_to_match_witness :
  let st := apply (Scripted.config [] [lit "a"] regex) ([] : list Scripted.Reply) in
  (Some ([] : js_string) = None ∨ Some ([] : js_string) = Some []
   ∨ BlacklistManager.nicknameBlacklist (blacklistManager st) = [])
  ∧ isNicknameBlacklisted (Some []) regex st = (Ok no_match, st).
Proof.
  intros st.
  assert (Some ([] : js_string) = None ∨ Some ([] : js_string) = Some []
          ∨ BlacklistManager.nicknameBlacklist (blacklistManager st) = [])
    as Hcase by (right; left; reflexivity).
  split; [exact Hcase|].
  exact (isNicknameBlacklisted_nothing_to_match (Some []) regex st Hcase).
Defined.

(** User 111 is on the identifier blacklist and carries a nickname that
    contains the keyword ['管理员']. *)
Lemma identifier_match_takes_priority_witness :
  let cfg := Scripted.config [lit "111"] [Scripted.guanliyuan] contains in
  let st := apply cfg ([] : list Scripted.Reply) in
  let session := Scripted.session "111" "g" None in
  let nickname := Some Scripted.qun_guanliyuan_xiaoming in
  BlacklistManager.isBlacklisted (blacklistManager st) (lit "111") = true
  ∧ (isNicknameBlacklisted nickname contains st).1
    = Ok (matched Scripted.guanliyuan)
  ∧ classify cfg (lit "111") nickname st = (Ok (Some IdBlacklist), st).
Proof.
  intros cfg st session nickname.
  assert (BlacklistManager.isBlacklisted (blacklistManager st) (lit "111")
          = true) as Hid by (vm_compute; reflexivity).
  split; [exact Hid|]. split; [vm_compute; reflexivity|].
  exact (proj1 (identifier_match_takes_priority cfg session (lit "111")
                  nickname st Hid)).
Defined.

(** Counterexample to C6 as stated: under regex mode the keyword ["("]
    does not compile, the call falls back to the substring test and
    matches, and the trace of the instance has gained no log line. *)
Lemma regex_fallback_is_silent :
  let st := apply (Scripted.config [] [lit "("] regex)
              ([] : list Scripted.Reply) in
  RegExp (lit "(") (lit "i") = None
  ∧ ∃ st',
      isNicknameBlacklisted (Some (lit "a(b")) regex st
      = (Ok (matched (lit "(")), st')
      ∧ trace st' = trace st.
Proof.
  intros st. split; [vm_compute; reflexivity|].
  exists st. split; [vm_compute; reflexivity|reflexivity].
Qed.

(** ** Traces of the computations *)

Section TraceFacts.
Context {W : Type} `{!Platform W} `{!Runtime}.
Variable config : Config.
Implicit Types (st : App W) (Q : Effect → Prop).

Lemma emits_ret {A} Q (a : A) : emits Q (ret (W:=W) a).
Proof.
  intros st r st' Heq. unfold ret in Heq. simplify_eq.
  exists []. by rewrite app_nil_r.
Qed.

Lemma emits_throw {A} Q e : emits Q (throw (W:=W) (A:=A) e).
Proof.
  intros st r st' Heq. unfold throw in Heq. simplify_eq.
  exists []. by rewrite app_nil_r.
Qed.

Lemma emits_bind {A B} Q (m : M W A) (f : A → M W B) :
  emits Q m → (∀ a, emits Q (f a)) → emits Q (bind m f).
Proof.
  intros Hm Hf st r st' Heq. unfold bind in Heq.
  destruct (m st) as [[a|e|] st1] eqn:Hrun.
  - destruct (Hm _ _ _ Hrun) as (tr1 & Ht1 & HQ1).
    destruct (Hf a _ _ _ Heq) as (tr2 & Ht2 & HQ2).
    exists (tr1 ++ tr2). rewrite Ht2, Ht1, app_assoc. split; [done|].
    by apply Forall_app.
  - simplify_eq. by apply (Hm _ _ _ Hrun).
  - simplify_eq. by apply (Hm _ _ _ Hrun).
Qed.

Lemma emits_try_catch {A} Q (m : M W A) (h : Error → M W A) :
  emits Q m → (∀ e, emits Q (h e)) → emits Q (try_catch m h).
Proof.
  intros Hm Hh st r st' Heq. unfold try_catch in Heq.
  destruct (m st) as [[a|e|] st1] eqn:Hrun.
  - simplify_eq. by apply (Hm _ _ _ Hrun).
  - destruct (Hm _ _ _ Hrun) as (tr1 & Ht1 & HQ1).
    destruct (Hh e _ _ _ Heq) as (tr2 & Ht2 & HQ2).
    exists (tr1 ++ tr2). rewrite Ht2, Ht1, app_assoc. split; [done|].
    by apply Forall_app.
  - simplify_eq. by apply (Hm _ _ _ Hrun).
Qed.

Lemma emits_weaken {A} Q Q' (m : M W A) :
  (∀ e, Q e → Q' e) → emits Q m → emits Q' m.
Proof.
  intros Hsub Hm st r st' Heq.
  destruct (Hm _ _ _ Heq) as (tr & Ht & HQ). exists tr. split; [done|].
  by eapply Forall_impl.
Qed.

Lemma emits_log Q entry : Q (Log entry) → emits Q (log (W:=W) entry).
Proof.
  intros HQ st r st' Heq. unfold log in Heq. simplify_eq.
  exists [Log entry]. split; [done|]. by constructor.
Qed.

Lemma emits_sleep Q ms : Q (Sleep ms) → emits Q (sleep ms).
Proof.
  intros HQ st r st' Heq. unfold sleep in Heq. simplify_eq.
  exists [Sleep ms]. split; [done|]. by constructor.
Qed.

Lemma emits_kickGuildMember Q guildId userId :
  Q (CallKick guildId userId) → emits Q (bot_kickGuildMember guildId userId).
Proof.
  intros HQ st r st' Heq. unfold bot_kickGuildMember in Heq.
  destruct (kickGuildMember guildId userId (world st)) as [r0 w].
  simplify_eq. exists [CallKick guildId userId]. split; [done|].
  by constructor.
Qed.

Lemma emits_getGuildMemberList Q guildId :
  Q (CallMemberList guildId) → emits Q (bot_getGuildMemberList guildId).
Proof.
  intros HQ st r st' Heq. unfold bot_getGuildMemberList in Heq.
  destruct (getGuildMemberList guildId (world st)) as [r0 w].
  simplify_eq. exists [CallMemberList guildId]. split; [done|].
  by constructor.
Qed.

Lemma emits_getGuildMember Q guildId userId :
  Q (CallMember guildId userId) → emits Q (bot_getGuildMember guildId userId).
Proof.
  intros HQ st r st' Heq. unfold bot_getGuildMember in Heq.
  destruct (getGuildMember guildId userId (world st)) as [r0 w].
  simplify_eq. exists [CallMember guildId userId]. split; [done|].
  by constructor.
Qed.

Lemma emits_session_send Q session m :
  (∀ ok, Q (CallSend m ok)) → emits Q (session_send session m).
Proof.
  intros HQ st r st' Heq. unfold session_send in Heq.
  destruct (Session.has_send session).
  - destruct (send session m (world st)) as [r0 w]. simplify_eq.
    exists [CallSend m (is_ok r)]. split; [done|]. by constructor.
  - simplify_eq. exists []. by rewrite app_nil_r.
Qed.

Lemma emits_verifyUserKicked Q session userId :
  Q (CallMemberList (Session.guildId session)) →
  Q (CallMember (Session.guildId session) userId) →
  emits Q (verifyUserKicked session userId).
Proof.
  intros HQ1 HQ2. unfold verifyUserKicked.
  apply emits_try_catch.
  - apply emits_bind; [by apply emits_getGuildMemberList|].
    intros members. apply emits_ret.
  - intros error. apply emits_try_catch.
    + apply emits_bind; [by apply emits_getGuildMember|].
      intros member. apply emits_ret.
    + intros memberError.
      destruct (_ || _); [apply emits_ret|apply emits_throw].
Qed.

End TraceFacts.

(** ** kickUserWithRetry *)

Section KickFacts.
Context {W : Type} `{!Platform W} `{!Runtime}.
Variable config : Config.
Implicit Types (st : App W) (session : Session.t)
           (userId displayName : js_string).

Lemma after_kick_no_kick i session userId displayName :
  emits not_kick (after_kick config i session userId displayName).
Proof.
  unfold after_kick. destruct (verifyKickResult config); [|apply emits_ret].
  apply emits_bind; [by apply emits_sleep|]. intros _.
  apply emits_bind; [by apply emits_verifyUserKicked|]. intros still.
  destruct (negb still); [apply emits_ret|].
  destruct (i =? _); [|apply emits_throw].
  apply emits_bind; [by apply emits_session_send|]. intros _. apply emits_ret.
Qed.

Lemma on_error_no_kick i session displayName error :
  emits not_kick (on_error config i session displayName error).
Proof.
  unfold on_error. destruct (i <? _).
  - apply emits_bind; [by apply emits_sleep|]. intros _. apply emits_ret.
  - apply emits_bind; [by apply emits_session_send|]. intros _.
  apply emits_ret.
Qed.

(** One iteration of the loop calls [kickGuildMember] once. *)
Lemma kick_attempt_one_kick i session userId displayName st r st' :
  kick_attempt config i session userId displayName st = (r, st') →
  ∃ tr, trace st' = trace st ++ tr ∧ kick_calls tr = 1%nat.
Proof.
  unfold kick_attempt, try_catch, bind at 1.
  unfold bot_kickGuildMember.
  destruct (kickGuildMember (Session.guildId session) userId (world st))
  as [r0 w].
  set (st1 := emit _ (set_world w st)).
  assert (Hst1 : trace st1 = trace st ++ [CallKick (Session.guildId session) userId])
  by done.
  assert (Hcount : ∀ tr, Forall not_kick tr →
          kick_calls (CallKick (Session.guildId session) userId :: tr) = 1%nat).
  { intros tr Htr. unfold kick_calls. rewrite filter_cons_True by done.
  simpl. f_equal. apply length_zero_iff_nil.
  induction Htr as [|e tr He Htr IH]; [done|].
  rewrite filter_cons_False; [done|]. unfold not_kick in He. by rewrite He. }
  destruct r0 as [[]|e|].
  - destruct (after_kick config i session userId displayName st1)
    as [[b|e|] st2] eqn:Hafter; intros Heq;
    destruct (after_kick_no_kick _ _ _ _ _ _ _ Hafter) as (tr1 & Ht1 & Hq1).
  + simplify_eq. exists (CallKick (Session.guildId session) userId :: tr1).
    rewrite Ht1, Hst1, <- app_assoc. split; [done|]. by apply Hcount.
  + destruct (on_error_no_kick _ _ _ _ _ _ _ Heq) as (tr2 & Ht2 & Hq2).
    exists (CallKick (Session.guildId session) userId :: tr1 ++ tr2).
    rewrite Ht2, Ht1, Hst1, <- !app_assoc. split; [done|].
    apply Hcount. by apply Forall_app.
  + simplify_eq. exists (CallKick (Session.guildId session) userId :: tr1).
    rewrite Ht1, Hst1, <- app_assoc. split; [done|]. by apply Hcount.
  - intros Heq.
  destruct (on_error_no_kick _ _ _ _ _ _ _ Heq) as (tr2 & Ht2 & Hq2).
  exists (CallKick (Session.guildId session) userId :: tr2).
  rewrite Ht2, Hst1, <- app_assoc. split; [done|]. by apply Hcount.
  - intros Heq. simplify_eq.
  exists [CallKick (Session.guildId session) userId]. split; [done|].
  by apply Hcount.
Qed.

Lemma kick_calls_app tr1 tr2 :
  kick_calls (tr1 ++ tr2) = (kick_calls tr1 + kick_calls tr2)%nat.
Proof. unfold kick_calls. by rewrite filter_app, length_app. Qed.

(** With [n] iterations left the loop calls [kickGuildMember] at most
[n] times. *)
Lemma kickUserWithRetry_from_kick_calls n i session userId displayName
  st r st' :
  kickUserWithRetry_from config n i session userId displayName st = (r, st') →
  ∃ tr, trace st' = trace st ++ tr ∧ (kick_calls tr ≤ n)%nat.
Proof.
  revert i st. induction n as [|n IH]; intros i st Heq; simpl in Heq.
  - unfold ret in Heq. simplify_eq. exists []. rewrite app_nil_r.
  split; [done|]. unfold kick_calls. simpl. lia.
  - unfold bind in Heq.
  destruct (kick_attempt config i session userId displayName st)
    as [[returned|e|] st1] eqn:Hattempt;
    destruct (kick_attempt_one_kick _ _ _ _ _ _ _ Hattempt)
      as (tr1 & Ht1 & Hk1).
  + destruct returned as [b|].
    * unfold ret in Heq. simplify_eq. exists tr1. split; [done|]. lia.
    * destruct (IH _ _ Heq) as (tr2 & Ht2 & Hk2).
      exists (tr1 ++ tr2). rewrite Ht2, Ht1, app_assoc. split; [done|].
      rewrite kick_calls_app. lia.
  + simplify_eq. exists tr1. split; [done|]. lia.
  + simplify_eq. exists tr1. split; [done|]. lia.
Qed.

(** [kickUserWithRetry] calls [kickGuildMember] at most [retryAttempts]
times (not at all when [retryAttempts] is zero or negative). *)
Lemma kickUserWithRetry_kick_calls session userId displayName st r st' :
  kickUserWithRetry config session userId displayName st = (r, st') →
  ∃ tr, trace st' = trace st ++ tr
      ∧ Z.of_nat (kick_calls tr) ≤ Z.max 0 (retryAttempts config).
Proof.
  intros Heq. apply kickUserWithRetry_from_kick_calls in Heq
  as (tr & Ht & Hk). exists tr. split; [done|]. lia.
Qed.

(** [verifyUserKicked] when the member list arrives: the user is still
    in the group exactly when the list has a member with that id. *)
Lemma verifyUserKicked_listed session userId st members w1 :
  getGuildMemberList (Session.guildId session) (world st)
  = (Ok (Some members), w1) →
  verifyUserKicked session userId st
  = (Ok (existsb
           (λ member, bool_decide (User.id (Member.user member) = userId))
           members),
     emit (CallMemberList (Session.guildId session)) (set_world w1 st)).
Proof.
  intros Hlist.
  unfold verifyUserKicked, try_catch, bind, bot_getGuildMemberList.
  by rewrite Hlist.
Qed.

(** The last attempt finds the user still listed, on a session whose
    [send] returns: the warning is sent once and the answer is
    [false]. *)
Lemma still_present_with_send_warns_once
    session userId displayName (i : Z) st w0 members w1 w2 :
  let guildId := Session.guildId session in
  let st1 :=
    emit (CallMemberList guildId)
      (set_world w1
         (emit (Sleep (verifyDelay config))
            (set_world (elapse (verifyDelay config) w0)
               (emit (CallKick guildId userId) (set_world w0 st))))) in
  verifyKickResult config = true →
  i = retryAttempts config - 1 →
  kickGuildMember guildId userId (world st) = (Ok (), w0) →
  getGuildMemberList guildId (elapse (verifyDelay config) w0)
  = (Ok (Some members), w1) →
  existsb (λ member, bool_decide (User.id (Member.user member) = userId))
    members = true →
  Session.has_send session = true →
  send session (StillInGroupWarning displayName) w1 = (Ok (), w2) →
  kickUserWithRetry_from config 1 i session userId displayName st
  = (Ok false,
     emit (CallSend (StillInGroupWarning displayName) true)
       (set_world w2 st1)).
Proof.
  intros guildId st1 Hverify Hi Hkick Hlist Hstill Hsend Hok.
  cbn [kickUserWithRetry_from]. unfold bind at 1.
  unfold kick_attempt, try_catch, bind at 1, bot_kickGuildMember.
  fold guildId. rewrite Hkick. unfold after_kick. rewrite Hverify.
  unfold bind at 1, sleep. unfold bind at 1.
  erewrite verifyUserKicked_listed by exact Hlist.
  rewrite Hstill. cbn [negb].
  rewrite (proj2 (Z.eqb_eq _ _) Hi).
  unfold bind at 1, session_send. rewrite Hsend.
  cbn [world set_world emit]. rewrite Hok. reflexivity.
Qed.

(** The same attempt on a session object without [send]: both calls of
    [session.send] throw, and the TypeError leaves the function. *)
Lemma still_present_without_send_throws
    session userId displayName (i : Z) st w0 members w1 :
  let guildId := Session.guildId session in
  let st1 :=
    emit (CallMemberList guildId)
      (set_world w1
         (emit (Sleep (verifyDelay config))
            (set_world (elapse (verifyDelay config) w0)
               (emit (CallKick guildId userId) (set_world w0 st))))) in
  verifyKickResult config = true →
  i = retryAttempts config - 1 →
  kickGuildMember guildId userId (world st) = (Ok (), w0) →
  getGuildMemberList guildId (elapse (verifyDelay config) w0)
  = (Ok (Some members), w1) →
  existsb (λ member, bool_decide (User.id (Member.user member) = userId))
    members = true →
  Session.has_send session = false →
  kickUserWithRetry_from config 1 i session userId displayName st
  = (Throw TypeError_not_a_function, st1).
Proof.
  intros guildId st1 Hverify Hi Hkick Hlist Hstill Hsend.
  cbn [kickUserWithRetry_from]. unfold bind at 1.
  unfold kick_attempt, try_catch, bind at 1, bot_kickGuildMember.
  fold guildId. rewrite Hkick. unfold after_kick. rewrite Hverify.
  unfold bind at 1, sleep. unfold bind at 1.
  erewrite verifyUserKicked_listed by exact Hlist.
  rewrite Hstill. cbn [negb].
  rewrite (proj2 (Z.eqb_eq _ _) Hi).
  unfold bind at 1, session_send. rewrite Hsend.
  unfold on_error. rewrite (proj2 (Z.ltb_ge _ _)) by lia.
  unfold bind, session_send. rewrite Hsend. reflexivity.
Qed.

(** [verifyUserKicked] cannot tell: the member list query fails and so
  does the query of the single member, with an error that does not
  say that the user is absent.  The error of the second query is then
  thrown. *)
Lemma verifyUserKicked_cannot_confirm session userId st e1 w1 e2 w2 :
  getGuildMemberList (Session.guildId session) (world st) = (Throw e1, w1) →
  getGuildMember (Session.guildId session) userId w1 = (Throw e2, w2) →
  message_includes e2 (lit "not found") = false →
  message_includes e2 user_does_not_exist = false →
  verifyUserKicked session userId st
  = (Throw e2,
     emit (CallMember (Session.guildId session) userId)
       (set_world w2
          (emit (CallMemberList (Session.guildId session))
             (set_world w1 st)))).
Proof.
  intros Hlist Hmember Hnf Hne.
  unfold verifyUserKicked, try_catch, bind, bot_getGuildMemberList,
    bot_getGuildMember.
  rewrite Hlist. simpl. rewrite Hmember. by rewrite Hnf, Hne.
Qed.

(** C7.  An attempt whose removal call returned normally but whose
  verification could not confirm the membership (both queries failed,
  and the second error does not say that the user is absent) is not a
  success.  While attempts remain ([i < retryAttempts - 1]) the loop
  waits [retryDelay] and goes on with the next attempt; on the last
  attempt the failure warning is sent and the function returns
  [false], or passes on the error of [send]; it never returns
  [true]. *)
Theorem unconfirmed_removal_is_a_failed_attempt
    session userId displayName (i : Z) (n : nat) st w0 e1 w1 e2 w2 :
  let guildId := Session.guildId session in
  let st2 :=
    emit (CallMember guildId userId)
      (set_world w2
         (emit (CallMemberList guildId)
            (set_world w1
               (emit (Sleep (verifyDelay config))
                  (set_world (elapse (verifyDelay config) w0)
                     (emit (CallKick guildId userId)
                        (set_world w0 st))))))) in
  verifyKickResult config = true →
  kickGuildMember guildId userId (world st) = (Ok (), w0) →
  getGuildMemberList guildId (elapse (verifyDelay config) w0)
  = (Throw e1, w1) →
  getGuildMember guildId userId w1 = (Throw e2, w2) →
  message_includes e2 (lit "not found") = false →
  message_includes e2 user_does_not_exist = false →
  (i < retryAttempts config - 1 →
   kickUserWithRetry_from config (S n) i session userId displayName st
   = kickUserWithRetry_from config n (i + 1) session userId displayName
       (emit (Sleep (retryDelay config))
          (set_world (elapse (retryDelay config) w2) st2)))
  ∧ (¬ i < retryAttempts config - 1 →
     kickUserWithRetry_from config 1 i session userId displayName st
     = match session_send session (KickFailedWarning displayName) st2 with
       | (Ok _, st3) => (Ok false, st3)
       | (Throw e, st3) => (Throw e, st3)
       | (Hangs, st3) => (Hangs, st3)
       end)
  ∧ (¬ i < retryAttempts config - 1 →
     ∀ r st',
       kickUserWithRetry_from config 1 i session userId displayName st
       = (r, st') →
       r ≠ Ok true).
Proof.
  intros guildId st2 Hverify Hkick Hlist Hmember Hnf Hne.
  assert (Hattempt :
    kick_attempt config i session userId displayName st
    = on_error config i session displayName e2 st2).
  { unfold kick_attempt, try_catch, bind at 1, bot_kickGuildMember.
    fold guildId. rewrite Hkick. unfold after_kick. rewrite Hverify.
    unfold bind at 1, sleep. cbn [fst snd].
    unfold bind at 1.
    erewrite verifyUserKicked_cannot_confirm; [done|done..]. }
  assert (Hlast : ¬ i < retryAttempts config - 1 →
    kickUserWithRetry_from config 1 i session userId displayName st
    = match session_send session (KickFailedWarning displayName) st2 with
      | (Ok _, st3) => (Ok false, st3)
      | (Throw e, st3) => (Throw e, st3)
      | (Hangs, st3) => (Hangs, st3)
      end).
  { intros Hi. cbn [kickUserWithRetry_from]. unfold bind at 1.
    rewrite Hattempt. unfold on_error.
    rewrite (proj2 (Z.ltb_ge _ _)) by lia. unfold bind.
    by destruct (session_send session (KickFailedWarning displayName) st2)
      as [[[]|e|] st3]. }
  split; [|split; [done|]].
  - intros Hi. cbn [kickUserWithRetry_from]. unfold bind at 1.
    rewrite Hattempt. unfold on_error.
    rewrite (proj2 (Z.ltb_lt _ _)) by done. done.
  - intros Hi r st' Hrun. rewrite (Hlast Hi) in Hrun.
    destruct (session_send session (KickFailedWarning displayName) st2)
      as [[[]|e|] st3]; by simplify_eq.
Qed.

End KickFacts.

(** The first of three attempts: the removal call returns, the list
    query and the member query both time out. *)
Lemma unconfirmed_removal_is_a_failed_attempt_witness :
  let cfg := Scripted.config [] [Scripted.guanliyuan] contains in
  let session := Scripted.session "333" "g" None in
  let timeout := Scripted.network_error in
  let script :=
    [Scripted.KickReply (Ok ()); Scripted.MemberListReply (Throw timeout);
     Scripted.MemberReply (Throw timeout)] in
  let st := apply cfg script in
  verifyKickResult cfg = true
  ∧ kickGuildMember (Some (lit "g")) (lit "333") (world st)
    = (Ok (), tail script)
  ∧ 0 < retryAttempts cfg - 1
  ∧ ∃ st2,
      trace st2
      = trace st ++ [CallKick (Some (lit "g")) (lit "333"); Sleep 2000;
                     CallMemberList (Some (lit "g"));
                     CallMember (Some (lit "g")) (lit "333"); Sleep 5000]
      ∧ kickUserWithRetry_from cfg 3 0 session (lit "333") (lit "x") st
        = kickUserWithRetry_from cfg 2 1 session (lit "333") (lit "x") st2.
Proof.
  intros cfg session timeout script st.
  split; [reflexivity|]. split; [reflexivity|]. split; [reflexivity|].
  eexists. split; [|
    refine (proj1 (unconfirmed_removal_is_a_failed_attempt cfg session
                     (lit "333") (lit "x") 0 2 st (tail script)
                     timeout [Scripted.MemberReply (Throw timeout)]
                     timeout [] _ _ _ _ _ _) _); reflexivity].
  reflexivity.
Defined.

(** ** kickUserWithRetry on a session whose [send] works *)

Section WarningFacts.
Context {W : Type} `{!Platform W} `{!Runtime}.
Variable config : Config.
Variable session : Session.t.
Hypothesis session_has_send : Session.has_send session = true.
Hypothesis send_returns : ∀ m w, (send session m w).1 = Ok ().
Implicit Types (st : App W) (userId displayName : js_string).

Lemma sends_app tr1 tr2 : sends (tr1 ++ tr2) = sends tr1 ++ sends tr2.
Proof. unfold sends. by rewrite filter_app. Qed.

Lemma sends_quiet tr : Forall not_send tr → sends tr = [].
Proof.
  induction 1 as [|e tr He Htr IH]; [done|].
  unfold sends. rewrite filter_cons_False; [done|].
  unfold not_send in He. by rewrite He.
Qed.

Lemma session_send_delivers m st :
  ∃ w, session_send session m st
       = (Ok (), emit (CallSend m true) (set_world w st)).
Proof.
  unfold session_send. rewrite session_has_send.
  pose proof (send_returns m (world st)) as Hs.
  destruct (send session m (world st)) as [r w]. simpl in Hs. subst r.
  by exists w.
Qed.

Lemma verifyUserKicked_no_send userId :
  emits not_send (verifyUserKicked session userId).
Proof. by apply emits_verifyUserKicked. Qed.

(** The part of the [try] block after the removal call. *)
Lemma after_kick_sends i userId displayName st r st' :
  after_kick config i session userId displayName st = (r, st') →
  ∃ tr, trace st' = trace st ++ tr
    ∧ ((r = Ok (Some true) ∧ sends tr = [])
       ∨ (r = Ok (Some false) ∧ i = retryAttempts config - 1
          ∧ sends tr = [CallSend (StillInGroupWarning displayName) true])
       ∨ (∃ e, r = Throw e ∧ sends tr = [])
       ∨ (r = Hangs ∧ sends tr = [])).
Proof.
  unfold after_kick. destruct (verifyKickResult config).
  2:{ intros Heq. unfold ret in Heq. simplify_eq. exists [].
      rewrite app_nil_r. auto. }
  unfold bind at 1, sleep. unfold bind at 1.
  set (st1 := emit _ _).
  assert (Hst1 : trace st1 = trace st ++ [Sleep (verifyDelay config)]) by done.
  destruct (verifyUserKicked session userId st1) as [[still|e|] st2] eqn:Hv;
    destruct (verifyUserKicked_no_send _ _ _ _ Hv) as (trv & Htrv & Hq);
    apply sends_quiet in Hq.
  - destruct still; cbn [negb].
    + destruct (i =? retryAttempts config - 1) eqn:Hi.
      * unfold bind.
        destruct (session_send_delivers (StillInGroupWarning displayName) st2)
          as (w & ->).
        intros Heq. unfold ret in Heq. simplify_eq.
        exists (Sleep (verifyDelay config) :: trv
                ++ [CallSend (StillInGroupWarning displayName) true]).
        split.
        { cbn [trace emit set_world]. rewrite Htrv, Hst1.
          by rewrite <- !app_assoc. }
        right. left. split; [done|]. split; [lia|].
        change (Sleep (verifyDelay config) :: trv ++ ?l)
          with ([Sleep (verifyDelay config)] ++ trv ++ l).
        rewrite !sends_app, Hq. done.
      * intros Heq. unfold throw in Heq. simplify_eq.
        exists (Sleep (verifyDelay config) :: trv). split.
        { rewrite Htrv, Hst1. by rewrite <- app_assoc. }
        right. right. left. eexists. split; [done|].
        change (Sleep (verifyDelay config) :: trv)
          with ([Sleep (verifyDelay config)] ++ trv).
        by rewrite sends_app, Hq.
    + intros Heq. unfold ret in Heq. simplify_eq.
      exists (Sleep (verifyDelay config) :: trv). split.
      { rewrite Htrv, Hst1. by rewrite <- app_assoc. }
      left. split; [done|].
      change (Sleep (verifyDelay config) :: trv)
        with ([Sleep (verifyDelay config)] ++ trv).
      by rewrite sends_app, Hq.
  - intros Heq. simplify_eq.
    exists (Sleep (verifyDelay config) :: trv). split.
    { rewrite Htrv, Hst1. by rewrite <- app_assoc. }
    right. right. left. eexists. split; [done|].
    change (Sleep (verifyDelay config) :: trv)
      with ([Sleep (verifyDelay config)] ++ trv).
    by rewrite sends_app, Hq.
  - intros Heq. simplify_eq.
    exists (Sleep (verifyDelay config) :: trv). split.
    { rewrite Htrv, Hst1. by rewrite <- app_assoc. }
    right. right. right. split; [done|].
    change (Sleep (verifyDelay config) :: trv)
      with ([Sleep (verifyDelay config)] ++ trv).
    by rewrite sends_app, Hq.
Qed.

(** The [catch] block. *)
Lemma on_error_sends i displayName error st r st' :
  on_error config i session displayName error st = (r, st') →
  r = Ok None
  ∧ ∃ tr, trace st' = trace st ++ tr
      ∧ sends tr
        = if i <? retryAttempts config - 1 then []
          else [CallSend (KickFailedWarning displayName) true].
Proof.
  unfold on_error. destruct (i <? retryAttempts config - 1).
  - unfold bind, sleep, ret. intros Heq. simplify_eq. split; [done|].
    by exists [Sleep (retryDelay config)].
  - unfold bind.
    destruct (session_send_delivers (KickFailedWarning displayName) st)
      as (w & ->).
    unfold ret. intros Heq. simplify_eq. split; [done|].
    by exists [CallSend (KickFailedWarning displayName) true].
Qed.

(** One iteration: before the last attempt nothing is sent and the
  iteration never returns [false]; on the last attempt at most one
  warning is sent, and one is sent exactly when the attempt fails. *)
Lemma kick_attempt_sends i userId displayName st r st' :
  i ≤ retryAttempts config - 1 →
  kick_attempt config i session userId displayName st = (r, st') →
  ∃ tr, trace st' = trace st ++ tr
    ∧ ((r = Ok (Some true) ∧ sends tr = [])
       ∨ (r = Hangs ∧ sends tr = [])
       ∨ (r = Ok None ∧ i < retryAttempts config - 1 ∧ sends tr = [])
       ∨ ((r = Ok None ∨ r = Ok (Some false))
          ∧ i = retryAttempts config - 1
          ∧ ∃ m, sends tr = [CallSend m true])).
Proof.
  intros Hi. unfold kick_attempt, try_catch, bind at 1, bot_kickGuildMember.
  destruct (kickGuildMember (Session.guildId session) userId (world st))
    as [r0 w].
  set (kick := CallKick (Session.guildId session) userId).
  set (st1 := emit kick (set_world w st)).
  assert (Hst1 : trace st1 = trace st ++ [kick]) by done.
  assert (Hcatch : ∀ e st2 tr1,
    trace st2 = trace st ++ kick :: tr1 → sends tr1 = [] →
    on_error config i session displayName e st2 = (r, st') →
    ∃ tr, trace st' = trace st ++ tr
      ∧ ((r = Ok (Some true) ∧ sends tr = [])
         ∨ (r = Hangs ∧ sends tr = [])
         ∨ (r = Ok None ∧ i < retryAttempts config - 1 ∧ sends tr = [])
         ∨ ((r = Ok None ∨ r = Ok (Some false))
            ∧ i = retryAttempts config - 1
            ∧ ∃ m, sends tr = [CallSend m true]))).
  { intros e st2 tr1 Ht1 Hs1 Herr.
    apply on_error_sends in Herr as (-> & tr2 & Ht2 & Hs2).
    exists (kick :: tr1 ++ tr2). split.
    { rewrite Ht2, Ht1. by rewrite <- app_assoc. }
    change (kick :: tr1 ++ tr2) with ([kick] ++ tr1 ++ tr2).
    rewrite !sends_app, Hs1, Hs2.
    change (sends [kick]) with ([] : list Effect). cbn [app].
    destruct (i <? retryAttempts config - 1) eqn:Hlt.
    - right. right. left. split; [done|]. split; [lia|done].
    - right. right. right. split; [by left|]. split; [lia|].
      by eexists. }
  destruct r0 as [[]|e|].
  - destruct (after_kick config i session userId displayName st1)
      as [r1 st2] eqn:Hafter.
    destruct (after_kick_sends _ _ _ _ _ _ Hafter)
      as (tr1 & Ht1 & [[-> Hs]|[(-> & Hlast & Hs)|[(e & -> & Hs)|[-> Hs]]]]).
    + intros Heq. simplify_eq. exists (kick :: tr1). split.
      { rewrite Ht1, Hst1. by rewrite <- app_assoc. }
      left. split; [done|].
      change (kick :: tr1) with ([kick] ++ tr1). rewrite sends_app, Hs.
      reflexivity.
    + intros Heq. simplify_eq. exists (kick :: tr1). split.
      { rewrite Ht1, Hst1. by rewrite <- app_assoc. }
      right. right. right. split; [by right|]. split; [done|].
      eexists. change (kick :: tr1) with ([kick] ++ tr1).
      rewrite sends_app, Hs. reflexivity.
    + apply (Hcatch e st2 tr1); [|done].
      rewrite Ht1, Hst1. by rewrite <- app_assoc.
    + intros Heq. simplify_eq. exists (kick :: tr1). split.
      { rewrite Ht1, Hst1. by rewrite <- app_assoc. }
      right. left. split; [done|].
      change (kick :: tr1) with ([kick] ++ tr1). rewrite sends_app, Hs.
      reflexivity.
  - apply (Hcatch e st1 []); done.
  - intros Heq. simplify_eq. exists [kick]. split; [done|].
    right. left. done.
Qed.

(** The loop, [S n] iterations before its end: it returns [true]
  without a warning, or [false] with exactly one warning, delivered;
  it ends with no error of its own. *)
Lemma kickUserWithRetry_from_warns_once n i userId displayName st r st' :
  Z.of_nat (S n) = retryAttempts config - i →
  kickUserWithRetry_from config (S n) i session userId displayName st
  = (r, st') →
  ∃ tr, trace st' = trace st ++ tr
    ∧ ((r = Ok true ∧ sends tr = [])
       ∨ (r = Ok false ∧ ∃ m, sends tr = [CallSend m true])
       ∨ (r = Hangs ∧ sends tr = [])).
Proof.
  assert (Hstep : ∀ m j st0,
    kickUserWithRetry_from config (S m) j session userId displayName st0
    = match kick_attempt config j session userId displayName st0 with
      | (Ok (Some b), st1) => (Ok b, st1)
      | (Ok None, st1) =>
          kickUserWithRetry_from config m (j + 1) session userId displayName st1
      | (Throw e, st1) => (Throw e, st1)
      | (Hangs, st1) => (Hangs, st1)
      end).
  { intros m j st0. cbn [kickUserWithRetry_from]. unfold bind at 1.
    by destruct (kick_attempt config j session userId displayName st0)
      as [[[b|]|e|] st1]. }
  revert i st. induction n as [|n IH]; intros i st Hleft Hrun;
    rewrite Hstep in Hrun;
    assert (Hle : i ≤ retryAttempts config - 1) by lia;
    destruct (kick_attempt config i session userId displayName st)
      as [r1 st1] eqn:Hattempt;
    (destruct (kick_attempt_sends _ _ _ _ _ _ Hle Hattempt)
      as (tr1 & Ht1 & [[-> Hs]|[[-> Hs]|[(-> & Hlt & Hs)
                                        |([-> | ->] & Hlast & m & Hs)]]]);
     try lia).
  - simplify_eq. exists tr1. auto.
  - simplify_eq. exists tr1. auto.
  - cbn [kickUserWithRetry_from] in Hrun. unfold ret in Hrun. simplify_eq.
    exists tr1. split; [done|]. right. left. split; [done|]. by exists m.
  - simplify_eq. exists tr1. split; [done|].
    right. left. split; [done|]. by exists m.
  - simplify_eq. exists tr1. auto.
  - simplify_eq. exists tr1. auto.
  - destruct (IH (i + 1) st1 ltac:(lia) Hrun) as (tr2 & Ht2 & Hcases).
    exists (tr1 ++ tr2). split.
    { rewrite Ht2, Ht1. by rewrite app_assoc. }
    rewrite sends_app, Hs. done.
Qed.

(** [kickUserWithRetry] on a session whose [send] works: the answer is
  [true] with no warning sent, or [false] with exactly one warning
  sent (none when [retryAttempts] leaves no attempt at all). *)
Lemma kickUserWithRetry_warns_once userId displayName st r st' :
  kickUserWithRetry config session userId displayName st = (r, st') →
  ∃ tr, trace st' = trace st ++ tr
    ∧ ((r = Ok true ∧ sends tr = [])
       ∨ (r = Ok false ∧ 1 ≤ retryAttempts config
          ∧ ∃ m, sends tr = [CallSend m true])
       ∨ (r = Ok false ∧ retryAttempts config ≤ 0 ∧ tr = [])
       ∨ (r = Hangs ∧ sends tr = [])).
Proof.
  unfold kickUserWithRetry.
  destruct (Z.to_nat (retryAttempts config)) as [|n] eqn:Hn.
  - cbn [kickUserWithRetry_from]. unfold ret. intros Heq. simplify_eq.
    exists []. rewrite app_nil_r. split; [done|].
    right. right. left. repeat split. lia.
  - intros Hrun.
    assert (Hleft : Z.of_nat (S n) = retryAttempts config - 0) by lia.
    destruct (kickUserWithRetry_from_warns_once n 0 userId displayName
                st r st' Hleft Hrun)
      as (tr & Ht & [[-> Hs]|[(-> & m & Hs)|[-> Hs]]]).
    + exists tr. auto.
    + exists tr. split; [done|]. right. left. split; [done|].
      split; [lia|]. by exists m.
    + exists tr. auto 6.
Qed.

End WarningFacts.

(** C2: the code breaks the claim on the delayed-recheck trigger.
    [delayedNicknameCheck] hands [checkAndKickUser] the object
    [{ guildId, userId, bot }], which has no [send].  A user who took a
    blacklisted nickname after joining is removed three times
    ([retryAttempts]) and is still listed each time; on the last attempt
    [session.send] throws a TypeError inside the [try] block, the
    [catch] block calls it again, and [kickUserWithRetry] ends with that
    error: it does not return [false] and no warning reaches the group.
    With a session of the host, whose [send] works, the same answers of
    the platform give [false] and exactly one warning. *)
Theorem delayed_recheck_failure_sends_no_warning :
  let cfg := Scripted.config [] [Scripted.guanliyuan] contains in
  let renamed := Scripted.member "333" (Some Scripted.guanliyuan) in
  let still_there :=
    [Scripted.KickReply (Ok ());
     Scripted.MemberListReply (Ok (Some [renamed]))] in
  let kickSession :=
    {| Session.userId := lit "333"; Session.guildId := Some (lit "g");
       Session.username := None; Session.author_name := None;
       Session.author_isBot := false; Session.user_name := None;
       Session.has_send := false |} in
  let hostSession := Scripted.session "333" "g" None in
  (* the call made by the delayed recheck *)
  (∃ st',
     kickUserWithRetry cfg kickSession (lit "333") Scripted.guanliyuan
       (apply cfg (still_there ++ still_there ++ still_there))
     = (Throw TypeError_not_a_function, st')
     ∧ kick_calls (trace st') = 3%nat
     ∧ delivered (trace st') = [])
  (* the whole path: join as Bob, rename, timer fires *)
  ∧ (∃ st,
       app_run cfg
         [GuildMemberAdded (Scripted.session "333" "g" (Some (lit "Bob")));
          TimerFires 0]
         (apply cfg
            ([Scripted.NowReply 5; Scripted.MemberReply (Ok (Some renamed))]
             ++ still_there ++ still_there ++ still_there))
       = Some st
       ∧ kick_calls (trace st) = 3%nat
       ∧ delivered (trace st) = []
       ∧ last (trace st)
         = Some (Log (LogDelayedCheckFailed (lit "333")
                        TypeError_not_a_function)))
  (* the same answers on a session with [send] *)
  ∧ (∃ st',
       kickUserWithRetry cfg hostSession (lit "333") Scripted.guanliyuan
         (apply cfg (still_there ++ still_there ++ still_there
                     ++ [Scripted.SendReply (Ok ())]))
       = (Ok false, st')
       ∧ kick_calls (trace st') = 3%nat
       ∧ delivered (trace st') = [StillInGroupWarning Scripted.guanliyuan]).
Proof.
  intros cfg renamed still_there kickSession hostSession.
  split; [|split].
  - eexists. split; [vm_compute; reflexivity|]. by vm_compute.
  - eexists. split; [vm_compute; reflexivity|]. by vm_compute.
  - eexists. split; [vm_compute; reflexivity|]. by vm_compute.
Qed.

(** ** scanExistingMembers *)

Section ScanFacts.
Context {W : Type} `{!Platform W} `{!Runtime}.
Variable config : Config.
Implicit Types (st : App W) (session : Session.t).

(** The bound on the iterations of the batch loop is never reached when
    [batchSize] is at least 1: any two bounds that cover the members
    still to visit give the same run. *)
Lemma scan_batches_fuel fuel fuel' (i : Z) session
    (filteredMembers : list Member.t) c st :
  1 ≤ batchSize config →
  Z.of_nat (length filteredMembers) - i ≤ Z.of_nat fuel →
  Z.of_nat (length filteredMembers) - i ≤ Z.of_nat fuel' →
  scan_batches config fuel i session filteredMembers c st
  = scan_batches config fuel' i session filteredMembers c st.
Proof.
  intros Hsize. revert fuel' i c st.
  induction fuel as [|fuel IH]; intros fuel' i c st Hfuel Hfuel'.
  - destruct fuel'; simpl;
      (destruct (i <? Z.of_nat (length filteredMembers)) eqn:Hi;
       [apply Z.ltb_lt in Hi; lia | done]).
  - destruct fuel' as [|fuel']; simpl;
      destruct (i <? Z.of_nat (length filteredMembers)) eqn:Hi; try done.
    + apply Z.ltb_lt in Hi. lia.
    + unfold bind at 1 3.
      destruct (scan_batch config session _ c st) as [[c'|e|] st1]; try done.
      unfold bind.
      destruct ((if i + batchSize config <? Z.of_nat (length filteredMembers)
                 then sleep 1000 else ret ()) st1) as [[[]|e|] st2];
        try done.
      apply Z.ltb_lt in Hi. apply IH; lia.
Qed.

(** C8.  When the member listing at the start of a scan throws, the
  scan ends there: the error is logged as a failure of the scan, no
  member is classified, nothing is removed, no message is sent, and
  the blacklist manager with its [Stats] is as it was. *)
Theorem scan_aborts_when_listing_fails session st t w1 e w2 :
  enableJoinScan config = true →
  Date_now (world st) = (t, w1) →
  getGuildMemberList (Session.guildId session) w1 = (Throw e, w2) →
  ∃ st',
    scanExistingMembers config session st = (Ok (), st')
    ∧ blacklistManager st' = blacklistManager st
    ∧ BlacklistManager.stats (blacklistManager st')
      = BlacklistManager.stats (blacklistManager st)
    ∧ trace st'
      = trace st ++ [Log (LogScanStart (Session.guildId session));
                     CallMemberList (Session.guildId session);
                     Log (LogScanFailed e)]
    ∧ world st' = w2
    ∧ running st' = running st
    ∧ newUserNicknameCache st' = newUserNicknameCache st
    ∧ timers st' = timers st.
Proof.
  intros Hscan Hnow Hlist. eexists. split.
  - unfold scanExistingMembers. rewrite Hscan. cbn [negb].
    unfold bind at 1, date_now. rewrite Hnow.
    unfold bind at 1, log. unfold try_catch, bind at 1.
    unfold bot_getGuildMemberList. cbn [world set_world emit].
    rewrite Hlist. reflexivity.
  - simpl. by rewrite <- !app_assoc.
Qed.

End ScanFacts.

(** A scan whose listing call times out. *)
Lemma scan_aborts_when_listing_fails_witness :
    let cfg := Scripted.config [lit "111"] [] contains in
    let session := Scripted.session "" "g" None in
    let script :=
      [Scripted.NowReply 100;
       Scripted.MemberListReply (Throw Scripted.network_error)] in
    let st := apply cfg script in
    enableJoinScan cfg = true
    ∧ Date_now (world st) = (100, tail script)
    ∧ getGuildMemberList (Session.guildId session) (tail script)
      = (Throw Scripted.network_error, [])
    ∧ ∃ st',
        scanExistingMembers cfg session st = (Ok (), st')
        ∧ BlacklistManager.stats (blacklistManager st')
          = BlacklistManager.stats (blacklistManager st)
        ∧ kick_calls (trace st') = kick_calls (trace st).
Proof.
  intros cfg session script st.
  assert (H1 : enableJoinScan cfg = true) by reflexivity.
  assert (H2 : Date_now (world st) = (100, tail script)) by reflexivity.
  assert (H3 : getGuildMemberList (Session.guildId session) (tail script)
               = (Throw Scripted.network_error, [])) by reflexivity.
  split; [exact H1|]. split; [exact H2|]. split; [exact H3|].
  destruct (scan_aborts_when_listing_fails cfg session st 100 (tail script)
              Scripted.network_error [] H1 H2 H3)
    as (st' & Hrun & _ & Hstats & Htrace & _).
  exists st'. split; [exact Hrun|]. split; [exact Hstats|].
  rewrite Htrace. unfold kick_calls. rewrite filter_app.
  rewrite length_app. simpl. lia.
Defined.

(** ** Delayed rechecks: cache, timers, dispose *)

Section RecheckFacts.
Context {W : Type} `{!Platform W} `{!Runtime}.
Variable config : Config.
Implicit Types (st : App W) (session : Session.t)
             (userId nickname : js_string).

(** C3, amended.  Registering a delayed recheck for [userId] writes the
  cache entry of that user, replacing the entry the user may have had
  (the cache is keyed by the user alone, whatever the guild) and
  leaving the entries of other users alone; and it arms one more
  timer, while every timer armed before stays armed: the rechecks
  pending for the user in the guild are one more than before. *)
Theorem register_recheck_replaces_entry_adds_timer
    session userId nickname st :
  let guildId := Session.guildId session in
  let now := (Date_now (world st)).1 in
  let entry :=
    {| CacheEntry.nickname := nickname; CacheEntry.guildId := guildId;
       CacheEntry.joinTime := now |} in
  ∃ st',
    register_recheck session userId nickname st = (Ok (), st')
    ∧ newUserNicknameCache st' = <[userId := entry]> (newUserNicknameCache st)
    ∧ newUserNicknameCache st' !! userId = Some entry
    ∧ (∀ other, other ≠ userId →
         newUserNicknameCache st' !! other = newUserNicknameCache st !! other)
    ∧ timers st' = timers st ++ [RecheckTimer userId guildId nickname]
    ∧ length (pending_rechecks guildId userId st')
      = S (length (pending_rechecks guildId userId st))
    ∧ (∀ k timer,
         timers st !! k = Some timer →
         app_step config (TimerFires k) st'
         = Some (timer_callback config timer
                   (set_timers (delete k (timers st')) st')).2).
Proof.
  intros guildId now entry. subst now entry.
  destruct (Date_now (world st)) as [t w] eqn:Hnow. cbn [fst].
  eexists. split.
  - unfold register_recheck, bind, log, date_now, setTimeout.
    cbn [emit world set_world]. rewrite Hnow. reflexivity.
  - cbn [newUserNicknameCache set_timers set_cache timers emit set_world].
    split; [done|]. split; [apply lookup_insert_eq|].
    split; [intros other Hne; by apply lookup_insert_ne|].
    split; [done|]. split.
    + unfold pending_rechecks.
      cbn [timers set_timers set_cache emit set_world].
      rewrite filter_app, length_app.
      rewrite filter_cons_True.
      * simpl. lia.
      * unfold is_recheck_of. by rewrite !bool_decide_eq_true_2.
    + intros k timer Hk. unfold app_step.
      cbn [timers set_timers set_cache emit set_world].
      by rewrite (lookup_app_l_Some _ _ _ _ Hk).
Qed.

(** C9, amended.  The dispose handler clears the polling interval of
  the configuration and empties the cache of pending rechecks.  It
  does not touch the timers: each timer armed before stays armed and,
  when it fires, runs its callback as it would have without the
  disposal. *)
Theorem dispose_clears_interval_and_cache st :
  configCheckInterval (dispose st) = false
  ∧ app_step config IntervalTick (dispose st) = None
  ∧ newUserNicknameCache (dispose st) = ∅
  ∧ timers (dispose st) = timers st
  ∧ (∀ k timer,
       timers st !! k = Some timer →
       app_step config (TimerFires k) (dispose st)
       = Some (timer_callback config timer
                 (set_timers (delete k (timers st)) (dispose st))).2)
  ∧ world (dispose st) = world st
  ∧ blacklistManager (dispose st) = blacklistManager st
  ∧ trace (dispose st) = trace st.
Proof.
  repeat split.
  intros k timer Hk. unfold app_step.
  cbn [dispose timers set_cache set_configCheckInterval]. by rewrite Hk.
Qed.

End RecheckFacts.

(** Counterexample to C3 as stated.  User 333 joins guild g twice as
    Bob.  After the second join the cache holds one entry for the user,
    but two recheck timers are armed for the user in that guild; both
    fire, both look the user up and find the blacklisted new nickname,
    and the user is removed twice. *)
Lemma rejoin_leaves_two_rechecks :
  let cfg := Scripted.config [] [Scripted.guanliyuan] contains in
  let join :=
    GuildMemberAdded (Scripted.session "333" "g" (Some (lit "Bob"))) in
  let renamed := Scripted.member "333" (Some Scripted.guanliyuan) in
  let recheck :=
    [Scripted.MemberReply (Ok (Some renamed)); Scripted.KickReply (Ok ());
     Scripted.MemberListReply (Ok (Some []))] in
  let script :=
    [Scripted.NowReply 5; Scripted.NowReply 7] ++ recheck ++ recheck in
  ∃ st st',
    app_run cfg [join; join] (apply cfg script) = Some st
    ∧ size (newUserNicknameCache st) = 1%nat
    ∧ length (pending_rechecks (Some (lit "g")) (lit "333") st) = 2%nat
    ∧ app_run cfg [TimerFires 0; TimerFires 0] st = Some st'
    ∧ kick_calls (trace st') = 2%nat
    ∧ member_lookups (trace st') = 2%nat.
Proof.
  intros cfg join renamed recheck script.
  eexists. eexists. split; [vm_compute; reflexivity|].
  split; [by vm_compute|]. split; [by vm_compute|].
  split; [vm_compute; reflexivity|].
  split; by vm_compute.
Qed.

(** Counterexample to C9 as stated.  User 333 joins as Bob, the plugin
    is disposed, and the recheck timer of the user is still armed: it
    fires after the disposal, finds the user renamed, and removes the
    user. *)
Lemma recheck_runs_after_dispose :
  let cfg := Scripted.config [] [Scripted.guanliyuan] contains in
  let join :=
    GuildMemberAdded (Scripted.session "333" "g" (Some (lit "Bob"))) in
  let renamed := Scripted.member "333" (Some Scripted.guanliyuan) in
  let script :=
    [Scripted.NowReply 5; Scripted.MemberReply (Ok (Some renamed));
     Scripted.KickReply (Ok ()); Scripted.MemberListReply (Ok (Some []))] in
  ∃ st st',
    app_run cfg [join; Dispose] (apply cfg script) = Some st
    ∧ newUserNicknameCache st = ∅
    ∧ configCheckInterval st = false
    ∧ timers st = [RecheckTimer (lit "333") (Some (lit "g")) (lit "Bob")]
    ∧ app_run cfg [TimerFires 0] st = Some st'
    ∧ trace st'
      = trace st
        ++ [CallMember (Some (lit "g")) (lit "333");
            Log (LogNicknameChanged (lit "333") (lit "Bob")
                   Scripted.guanliyuan);
            Log (LogNicknameViolation Scripted.guanliyuan
                   (Some Scripted.guanliyuan));
            Log (LogFound Scripted.guanliyuan (lit "333")
                   (NicknameBlacklist (Some Scripted.guanliyuan)));
            CallKick (Some (lit "g")) (lit "333");
            Sleep 2000;
            CallMemberList (Some (lit "g"));
            Log (LogKicked Scripted.guanliyuan (lit "333")
                   (NicknameBlacklist (Some Scripted.guanliyuan)))].
Proof.
  intros cfg join renamed script.
  eexists. eexists. split; [vm_compute; reflexivity|].
  split; [by vm_compute|]. split; [by vm_compute|].
  split; [by vm_compute|].
  split; [vm_compute; reflexivity|]. by vm_compute.
Qed.

(** ** The plugin without a free slot, and the scenarios of the
    specification *)

Section SlotFacts.
Context {W : Type} `{!Platform W} `{!Runtime}.
Variable config : Config.
Implicit Types (st : App W) (session : Session.t).

(** What the scheduler's limit means for the plugin: when no slot is
  free at the time a flagged user is handed over ([maxConcurrent] of 0
  or less in particular), the removal is never started and the call
  never returns. *)
Lemma kick_flagged_needs_a_slot session userId displayName kickReason st :
  maxConcurrent config ≤ running st →
  ∃ st',
    kick_flagged config session userId displayName kickReason st
    = (Hangs, st')
    ∧ kick_calls (trace st') = kick_calls (trace st).
Proof.
  intros Hfull. unfold kick_flagged, bind at 1, log.
  set (found := Log (LogFound displayName userId kickReason)).
  assert (Hquiet : ∀ e tr,
            is_kick e = false → kick_calls (tr ++ [e]) = kick_calls tr).
  { intros e tr He. unfold kick_calls. rewrite filter_app, length_app.
    rewrite filter_cons_False by (by rewrite He). simpl. lia. }
  assert (Hhang : ∀ st0, running st0 = running st →
            execute config
              (let* success :=
                 kickUserWithRetry config session userId displayName in
               (if success
                then log (LogKicked displayName userId kickReason)
                else log (LogKickFailed displayName userId kickReason)) ;;;
               ret success) st0 = (Hangs, st0)).
  { intros st0 Hr. unfold execute. rewrite Hr.
    by rewrite bool_decide_eq_true_2. }
  unfold bind at 1. destruct (notifyAdmins config).
  - unfold try_catch, session_send.
    destruct (Session.has_send session).
    + cbn [world emit set_world].
      destruct (send session (AdminNotify displayName kickReason) (world st))
        as [[[]|e|] w]; cbn [is_ok].
      * unfold bind. rewrite Hhang by done. eexists. split; [done|].
        cbn [trace emit set_world]. by rewrite !Hquiet.
      * unfold log, bind. rewrite Hhang by done. eexists. split; [done|].
        cbn [trace emit set_world]. by rewrite !Hquiet.
      * eexists. split; [done|].
        cbn [trace emit set_world]. by rewrite !Hquiet.
    + unfold log, bind. rewrite Hhang by done. eexists. split; [done|].
      cbn [trace emit set_world]. by rewrite !Hquiet.
  - unfold ret, bind. rewrite Hhang by done. eexists. split; [done|].
    cbn [trace emit set_world]. by rewrite !Hquiet.
Qed.

(** In contains mode only the lower-case forms of nickname and keyword
  matter. *)
Lemma Matches_contains_ignores_case nickname nickname' keyword keyword' :
  toLowerCase nickname = toLowerCase nickname' →
  toLowerCase keyword = toLowerCase keyword' →
  Matches contains nickname keyword ↔ Matches contains nickname' keyword'.
Proof. unfold Matches. by intros -> ->. Qed.

End SlotFacts.

(** Scenario of the specification: identifier blacklist [["111"]], user
    111 joins as "Alice": reported for the identifier, removal
    attempted. *)
Example scenario_identifier_join :
  let cfg := Scripted.config [lit "111"] [] contains in
  let script :=
    [Scripted.KickReply (Ok ()); Scripted.MemberListReply (Ok (Some []))] in
  ∃ st,
    on_guild_member_added cfg
      (Scripted.session "111" "g" (Some (lit "Alice"))) (apply cfg script)
    = (Ok (), st)
    ∧ drop 6 (trace st)
      = [Log (LogMemberJoined (lit "111"));
         Log (LogNewMember (lit "Alice") (lit "111"));
         Log (LogFound (lit "Alice") (lit "111") IdBlacklist);
         CallKick (Some (lit "g")) (lit "111");
         Sleep 2000;
         CallMemberList (Some (lit "g"));
         Log (LogKicked (lit "Alice") (lit "111") IdBlacklist)]
    ∧ timers st = [].
Proof.
  intros cfg script. eexists. split; [vm_compute; reflexivity|].
  split; by vm_compute.
Qed.

(** Scenario of the specification: nickname blacklist [['管理员']] in
    contains mode, user 222 joins as '群管理员小明': matched on
    ['管理员']. *)
Example scenario_nickname_join :
  let cfg := Scripted.config [] [Scripted.guanliyuan] contains in
  let st := apply cfg ([] : list Scripted.Reply) in
  isNicknameBlacklisted (Some Scripted.qun_guanliyuan_xiaoming) contains st
  = (Ok (matched Scripted.guanliyuan), st)
  ∧ classify cfg (lit "222") (Some Scripted.qun_guanliyuan_xiaoming) st
    = (Ok (Some (NicknameBlacklist (Some Scripted.guanliyuan))), st).
Proof. intros cfg st. split; by vm_compute. Qed.

(** Scenario of the specification: the user leaves before the timer
    fires: the recheck finds no member, drops the cache entry and
    attempts no removal. *)
Example scenario_left_before_recheck :
  let cfg := Scripted.config [] [Scripted.guanliyuan] contains in
  let script := [Scripted.NowReply 5; Scripted.MemberReply (Ok None)] in
  ∃ st,
    app_run cfg
      [GuildMemberAdded (Scripted.session "333" "g" (Some (lit "Bob")));
       TimerFires 0]
      (apply cfg script)
    = Some st
    ∧ newUserNicknameCache st = ∅
    ∧ timers st = []
    ∧ kick_calls (trace st) = 0%nat.
Proof.
  intros cfg script. eexists. split; [vm_compute; reflexivity|].
  split; [by vm_compute|]. split; by vm_compute.
Qed.

(** Under regex mode a keyword is searched for anywhere in the nickname
    and without regard to case. *)
Example scenario_regex_search :
  let cfg := Scripted.config [] [lit "dmi"] regex in
  let st := apply cfg ([] : list Scripted.Reply) in
  isNicknameBlacklisted (Some (lit "xADMINx")) regex st
  = (Ok (matched (lit "dmi")), st).
Proof. intros cfg st. by vm_compute. Qed.

(* ===================================================================== *)
(** * Part III: further properties of the code                            *)
(* ===================================================================== *)

(** ** BlacklistManager: sizes and stored keywords *)

Section ManagerFacts.
Import BlacklistManager.
Implicit Types (this : BlacklistManager.t) (id entry keyword : js_string).

Lemma size_add_all (entries : list js_string) :
  NoDup entries → base.size (add_all entries ∅) = length entries.
Proof.
  intros Hnd.
  assert (Heq : add_all entries ∅ = list_to_set entries).
  { apply set_eq. intros x.
    rewrite elem_of_add_all, elem_of_list_to_set. set_solver. }
  rewrite Heq. by apply size_list_to_set.
Qed.

Lemma length_unique_in_order (xs : list js_string) :
  (length (unique_in_order xs) ≤ length xs)%nat.
Proof.
  induction xs as [|x xs IH]; [done|].
  cbn [unique_in_order length].
  pose proof (length_filter (λ y, y ≠ x) (unique_in_order xs)) as Hle.
  lia.
Qed.

(** [size()] after a load is the number of distinct trimmed forms of the
    entries that are not blank: never more than the entries
    configured, less when entries repeat or differ only in the white
    space around them.  [nicknameSize()] counts every keyword that is
    not blank, repeated ones as often as they are listed. *)
Theorem size_counts_distinct_trimmed_entries this blacklist nicknames :
  let this' := updateBlacklist this blacklist nicknames in
  (∃ ids : list js_string,
     NoDup ids
     ∧ (∀ id, id ∈ ids ↔ id ≠ [] ∧ ∃ entry, entry ∈ blacklist ∧ id = trim entry)
     ∧ size this' = length ids)
  ∧ (size this' ≤ length blacklist)%nat
  ∧ nicknameSize this'
    = length (filter (λ keyword, trim keyword ≠ []) nicknames)
  ∧ (nicknameSize this' ≤ length nicknames)%nat
  ∧ stats this' = stats this.
Proof.
  cbv zeta. unfold size, nicknameSize, updateBlacklist. cbn [blacklistSet nicknameBlacklist stats].
  rewrite size_add_all by apply unique_in_order_NoDup.
  split; [|split; [|split; [|split]]].
  - eexists. split; [apply unique_in_order_NoDup|]. split; [|done].
    intros id. rewrite elem_of_unique_in_order, list_elem_of_fmap. split.
    + intros (entry & -> & Hin). apply list_elem_of_filter in Hin as [Hc Hin].
      apply has_content_trim in Hc. eauto.
    + intros [Hne (entry & Hin & ->)]. exists entry. split; [done|].
      apply list_elem_of_filter. split; [|done]. by apply has_content_trim.
  - pose proof (length_unique_in_order
                  (trim <$> filter (λ userId, has_content userId = true)
                              blacklist)) as H1.
    rewrite length_fmap in H1.
    pose proof (length_filter (λ userId, has_content userId = true)
                  blacklist) as H2.
    lia.
  - rewrite length_fmap. f_equal. apply list_filter_iff.
    intros k. apply has_content_trim.
  - rewrite length_fmap. apply length_filter.
  - done.
Qed.


End ManagerFacts.

(** ** getUserNickname *)

Section GetUserNicknameFacts.
Implicit Types (value : option js_string) (nickname : js_string).

Lemma probe_spec value nickname :
  probe value = Some nickname
  ↔ ∃ v, value = Some v ∧ trim v ≠ [] ∧ nickname = trim v.
Proof.
  unfold probe. destruct value as [v|].
  - assert (Ht : truthy v && truthy (trim v) = true ↔ trim v ≠ []).
    { destruct v as [|c v]; [by rewrite trim_nil|].
      cbn [truthy andb]. by destruct (trim (c :: v)). }
    destruct (truthy v && truthy (trim v)).
    + split.
      * intros ?. simplify_eq. exists v. split; [done|]. split; [|done].
        by apply Ht.
      * intros (v' & ? & _ & ->). by simplify_eq.
    + split; [done|]. intros (v' & ? & Hne & _). simplify_eq.
      by apply Ht in Hne.
  - split; [done|]. by intros (v & ? & _).
Qed.

Lemma first_probe_app (values1 values2 : list (option js_string)) :
  first_probe (values1 ++ values2)
  = match first_probe values1 with
    | Some nickname => Some nickname
    | None => first_probe values2
    end.
Proof.
  induction values1 as [|value values1 IH]; simpl; [done|].
  by destruct (probe value).
Qed.

(** [first_probe] returns the trimmed form of the first value that is a
    string with something left after trimming. *)
Lemma first_probe_spec (values : list (option js_string)) nickname :
  first_probe values = Some nickname
  ↔ ∃ earlier v later,
      values = earlier ++ Some v :: later
      ∧ trim v ≠ [] ∧ nickname = trim v
      ∧ ∀ value, value ∈ earlier → probe value = None.
Proof.
  induction values as [|value values IH]; simpl.
  - split; [done|]. intros (earlier & v & later & Heq & _).
    by destruct earlier.
  - destruct (probe value) as [n|] eqn:Hp.
    + split.
      * intros ?. simplify_eq.
        apply probe_spec in Hp as (v & -> & Hne & ->).
        exists [], v, values. repeat split; try done.
        intros value Hin. by apply elem_of_nil in Hin.
      * intros (earlier & v & later & Heq & Hne & -> & Hearly).
        destruct earlier as [|e earlier]; simpl in Heq; simplify_eq.
        -- assert (probe (Some v) = Some (trim v)) as Hv
             by (apply probe_spec; eauto).
           congruence.
        -- rewrite Hearly in Hp by left. done.
    + rewrite IH. split.
      * intros (earlier & v & later & -> & Hne & -> & Hearly).
        exists (value :: earlier), v, later. repeat split; try done.
        intros value' [->|Hin]%elem_of_cons; [done | by apply Hearly].
      * intros (earlier & v & later & Heq & Hne & -> & Hearly).
        destruct earlier as [|e earlier]; simpl in Heq; simplify_eq.
        -- assert (probe (Some v) = Some (trim v)) as Hv
             by (apply probe_spec; eauto).
           congruence.
        -- exists earlier, v, later. repeat split; try done.
           intros value' Hin. apply Hearly. by right.
Qed.

Lemma first_probe_None (values : list (option js_string)) :
  first_probe values = None ↔ ∀ value, value ∈ values → probe value = None.
Proof.
  induction values as [|value values IH]; simpl.
  - split; [|done]. intros _ value Hin. by apply elem_of_nil in Hin.
  - destruct (probe value) eqn:Hp.
    + split; [done|]. intros H. rewrite H in Hp by left. done.
    + rewrite IH. split.
      * intros H value' [->|Hin]%elem_of_cons; [done | by apply H].
      * intros H value' Hin. apply H. by right.
Qed.


(** The candidate values of [getUserNickname], in the order they are
    tried: the five fields of the member, then the three of the
    session. *)
Theorem getUserNickname_first_usable_field
    (member : option Member.t) (session : option Session.t) :
  let candidates :=
    match member with
    | Some m => [User.name (Member.user m); User.username (Member.user m);
                 Member.nick m; Member.nickname m; Member.displayName m]
    | None => []
    end
    ++ match session with
       | Some s => [Session.username s; Session.author_name s;
                    Session.user_name s]
       | None => []
       end in
  getUserNickname member session = first_probe candidates
  ∧ (∀ nickname,
       getUserNickname member session = Some nickname
       ↔ ∃ earlier v later,
           candidates = earlier ++ Some v :: later
           ∧ trim v ≠ [] ∧ nickname = trim v
           ∧ ∀ value, value ∈ earlier →
               value = None ∨ ∃ blank, value = Some blank ∧ trim blank = [])
  ∧ (getUserNickname member session = None
     ↔ ∀ v, Some v ∈ candidates → trim v = [])
  ∧ (∀ nickname,
       getUserNickname member session = Some nickname →
       nickname ≠ [] ∧ trim nickname = nickname
       ∧ truthy_opt (Some nickname) = true).
Proof.
  cbv zeta.
  set (candidates := _ ++ _).
  assert (Heq : getUserNickname member session = first_probe candidates).
  { unfold candidates, getUserNickname. rewrite first_probe_app.
    destruct member as [m|]; destruct session as [s|]; try done.
    - by destruct (first_probe [_; _; _; _; _]).
    - by destruct (first_probe [_; _; _; _; _]). }
  assert (Hblank : ∀ value,
    probe value = None
    ↔ value = None ∨ ∃ blank, value = Some blank ∧ trim blank = []).
  { intros value. split.
    - intros Hp. destruct value as [v|]; [right | by left].
      exists v. split; [done|].
      destruct (decide (trim v = [])) as [|Hne]; [done|].
      assert (probe (Some v) = Some (trim v)) by (apply probe_spec; eauto).
      congruence.
    - intros [->|(blank & -> & Hb)]; [done|].
      destruct (probe (Some blank)) as [n|] eqn:Hp; [|done].
      apply probe_spec in Hp as (v & ? & Hne & _). simplify_eq. }
  split; [exact Heq|]. rewrite Heq. split; [|split].
  - intros nickname. rewrite first_probe_spec. split.
    + intros (earlier & v & later & ? & ? & ? & Hearly).
      exists earlier, v, later. repeat split; try done.
      intros value Hin. apply Hblank. by apply Hearly.
    + intros (earlier & v & later & ? & ? & ? & Hearly).
      exists earlier, v, later. repeat split; try done.
      intros value Hin. apply Hblank. by apply Hearly.
  - rewrite first_probe_None. split.
    + intros H v Hin. apply H, Hblank in Hin as [|(blank & ? & ?)]; by simplify_eq.
    + intros H value Hin. apply Hblank. destruct value as [v|]; [right | by left].
      exists v. split; [done|]. by apply H.
  - intros nickname (earlier & v & later & _ & Hne & -> & _)%first_probe_spec.
    split; [done|]. split; [apply trim_idemp|].
    simpl. by destruct (trim v).
Qed.

End GetUserNicknameFacts.

(** ** BlacklistManager.updateStats *)

Section StatsFacts.
Import BlacklistManager.
Implicit Types (this : BlacklistManager.t) (scans : list (ScanCounts * Z)).
Local Open Scope Qc_scope.




Lemma total_of_app {A} (f : A → Z) (l1 l2 : list A) :
  total_of f (l1 ++ l2) = (total_of f l1 + total_of f l2)%Z.
Proof. unfold total_of. induction l1 as [|x l1 IH]; simpl; lia. Qed.

(** The counters add up over any sequence of scans, the time of the
    last scan is kept, and the lists are left alone. *)
Theorem updateStats_accumulates this scans :
  let this' := foldl record_scan this scans in
  totalScanned (stats this')
  = (totalScanned (stats this) + total_of (λ s, scannedCount s.1) scans)%Z
  ∧ totalKicked (stats this')
    = (totalKicked (stats this) + total_of (λ s, kickedCount s.1) scans)%Z
  ∧ totalFailed (stats this')
    = (totalFailed (stats this) + total_of (λ s, failedKickCount s.1) scans)%Z
  ∧ lastScanTime (stats this')
    = default (lastScanTime (stats this)) (snd <$> last scans)
  ∧ blacklistSet this' = blacklistSet this
  ∧ nicknameBlacklist this' = nicknameBlacklist this.
Proof.
  cbv zeta. induction scans as [|scan scans IH] using rev_ind; simpl.
  - unfold total_of. simpl. repeat split; lia.
  - rewrite foldl_snoc, last_snoc, !total_of_app.
    destruct IH as (H1 & H2 & H3 & _ & H5 & H6).
    set (that := foldl record_scan this scans) in *.
    unfold record_scan, updateStats.
    cbn [stats totalScanned totalKicked totalFailed lastScanTime
         blacklistSet nicknameBlacklist fmap option_fmap option_map default].
    rewrite H1, H2, H3. unfold total_of. simpl.
    repeat split; try done; lia.
Qed.




End StatsFacts.


(** ** ConcurrencyController: every limit *)

Section ControllerSafety.
Import ConcurrencyController.
Context {T E : Type}.
Implicit Types (c : ConcurrencyController.t T E)
               (ev : event T E) (evs : list (event T E)).




End ControllerSafety.


(** ** What the computations leave alone *)

Section TidyFacts.
Context {W : Type} `{!Platform W} `{!Runtime}.
Variable config : Config.
Implicit Types (st : App W) (session : Session.t)
               (userId displayName : js_string).

Lemma same_store_refl st : same_store st st.
Proof. by repeat split. Qed.

Lemma same_store_trans st1 st2 st3 :
  same_store st1 st2 → same_store st2 st3 → same_store st1 st3.
Proof.
  intros (H1 & H2 & H3 & H4) (H1' & H2' & H3' & H4').
  repeat split; congruence.
Qed.

Lemma tidy_ret {A} (a : A) : tidy (W:=W) (ret (W:=W) a).
Proof.
  intros st r st' Heq. unfold ret in Heq. simplify_eq.
  split; [apply same_store_refl|done].
Qed.

Lemma tidy_throw {A} e : tidy (W:=W) (throw (W:=W) (A:=A) e).
Proof.
  intros st r st' Heq. unfold throw in Heq. simplify_eq.
  split; [apply same_store_refl|done].
Qed.

Lemma tidy_bind {A B} (m : M W A) (f : A → M W B) :
  tidy m → (∀ a, tidy (f a)) → tidy (W:=W) (bind m f).
Proof.
  intros Hm Hf st r st' Heq. unfold bind in Heq.
  destruct (m st) as [[a|e|] st1] eqn:Hrun.
  - destruct (Hm _ _ _ Hrun) as [Hs1 Hr1].
    destruct (Hf a _ _ _ Heq) as [Hs2 Hr2].
    split; [by eapply same_store_trans|].
    intros Hr. rewrite Hr2 by done. by apply Hr1.
  - simplify_eq. destruct (Hm _ _ _ Hrun) as [Hs1 Hr1].
    split; [done|]. intros _. by apply Hr1.
  - simplify_eq. destruct (Hm _ _ _ Hrun) as [Hs1 Hr1]. by split.
Qed.

Lemma tidy_try_catch {A} (m : M W A) (h : Error → M W A) :
  tidy m → (∀ e, tidy (h e)) → tidy (W:=W) (try_catch m h).
Proof.
  intros Hm Hh st r st' Heq. unfold try_catch in Heq.
  destruct (m st) as [[a|e|] st1] eqn:Hrun.
  - simplify_eq. by apply (Hm _ _ _ Hrun).
  - destruct (Hm _ _ _ Hrun) as [Hs1 Hr1].
    destruct (Hh e _ _ _ Heq) as [Hs2 Hr2].
    split; [by eapply same_store_trans|].
    intros Hr. rewrite Hr2 by done. by apply Hr1.
  - simplify_eq. by apply (Hm _ _ _ Hrun).
Qed.

Lemma steady_tidy {A} (m : M W A) : steady m → tidy m.
Proof.
  intros Hm st r st' Heq. destruct (Hm _ _ _ Heq) as [Hs Hr]. by split.
Qed.

Lemma steady_ret {A} (a : A) : steady (ret (W:=W) a).
Proof.
  intros st r st' Heq. unfold ret in Heq. simplify_eq.
  split; [apply same_store_refl|done].
Qed.

Lemma steady_throw {A} e : steady (throw (W:=W) (A:=A) e).
Proof.
  intros st r st' Heq. unfold throw in Heq. simplify_eq.
  split; [apply same_store_refl|done].
Qed.

Lemma steady_bind {A B} (m : M W A) (f : A → M W B) :
  steady m → (∀ a, steady (f a)) → steady (bind m f).
Proof.
  intros Hm Hf st r st' Heq. unfold bind in Heq.
  destruct (m st) as [[a|e|] st1] eqn:Hrun;
    destruct (Hm _ _ _ Hrun) as [Hs1 Hr1].
  - destruct (Hf a _ _ _ Heq) as [Hs2 Hr2].
    split; [by eapply same_store_trans | congruence].
  - by simplify_eq.
  - by simplify_eq.
Qed.

Lemma steady_try_catch {A} (m : M W A) (h : Error → M W A) :
  steady m → (∀ e, steady (h e)) → steady (try_catch m h).
Proof.
  intros Hm Hh st r st' Heq. unfold try_catch in Heq.
  destruct (m st) as [[a|e|] st1] eqn:Hrun;
    destruct (Hm _ _ _ Hrun) as [Hs1 Hr1].
  - by simplify_eq.
  - destruct (Hh e _ _ _ Heq) as [Hs2 Hr2].
    split; [by eapply same_store_trans | congruence].
  - by simplify_eq.
Qed.

Lemma steady_log entry : steady (W:=W) (log (W:=W) entry).
Proof. intros st r st' Heq. unfold log in Heq. by simplify_eq. Qed.

Lemma steady_sleep ms : steady (W:=W) (sleep ms).
Proof. intros st r st' Heq. unfold sleep in Heq. by simplify_eq. Qed.

Lemma steady_date_now : steady (W:=W) date_now.
Proof.
  intros st r st' Heq. unfold date_now in Heq.
  destruct (Date_now (world st)). by simplify_eq.
Qed.

Lemma steady_read_blacklistManager : steady (W:=W) (read_blacklistManager (W:=W)).
Proof.
  intros st r st' Heq. unfold read_blacklistManager in Heq. by simplify_eq.
Qed.

Lemma steady_kickGuildMember guildId userId :
  steady (W:=W) (bot_kickGuildMember guildId userId).
Proof.
  intros st r st' Heq. unfold bot_kickGuildMember in Heq.
  destruct (kickGuildMember guildId userId (world st)). by simplify_eq.
Qed.

Lemma steady_getGuildMemberList guildId : steady (W:=W) (bot_getGuildMemberList guildId).
Proof.
  intros st r st' Heq. unfold bot_getGuildMemberList in Heq.
  destruct (getGuildMemberList guildId (world st)). by simplify_eq.
Qed.

Lemma steady_getGuildMember guildId userId :
  steady (W:=W) (bot_getGuildMember guildId userId).
Proof.
  intros st r st' Heq. unfold bot_getGuildMember in Heq.
  destruct (getGuildMember guildId userId (world st)). by simplify_eq.
Qed.


Lemma steady_session_send session m : steady (W:=W) (session_send session m).
Proof.
  intros st r st' Heq. unfold session_send in Heq.
  destruct (Session.has_send session).
  - destruct (send session m (world st)). by simplify_eq.
  - by simplify_eq.
Qed.

(** [isNicknameBlacklisted] returns and changes nothing at all. *)
Lemma isNicknameBlacklisted_pure (nickname : option js_string) matchMode st :
  ∃ check, isNicknameBlacklisted nickname matchMode st = (Ok check, st).
Proof.
  unfold isNicknameBlacklisted. destruct nickname as [name|]; [|by eexists].
  destruct (negb (truthy name) || _); [by eexists|].
  destruct (isNicknameBlacklisted_loop_spec
              (BlacklistManager.nicknameBlacklist (blacklistManager st))
              name matchMode st) as [(k & Hk & _)|[Hk _]]; by eexists.
Qed.

Lemma steady_isNicknameBlacklisted (nickname : option js_string) matchMode :
  steady (W:=W) (isNicknameBlacklisted nickname matchMode).
Proof.
  intros st r st' Heq.
  destruct (isNicknameBlacklisted_pure nickname matchMode st) as [check Hc].
  rewrite Hc in Heq. simplify_eq. split; [apply same_store_refl|done].
Qed.

Lemma steady_verifyUserKicked session userId :
  steady (W:=W) (verifyUserKicked session userId).
Proof.
  unfold verifyUserKicked. apply steady_try_catch.
  - apply steady_bind; [apply steady_getGuildMemberList|].
    intros members. apply steady_ret.
  - intros e. apply steady_try_catch.
    + apply steady_bind; [apply steady_getGuildMember|].
      intros member. apply steady_ret.
    + intros e'. destruct (_ || _); [apply steady_ret | apply steady_throw].
Qed.

Lemma steady_after_kick i session userId displayName :
  steady (W:=W) (after_kick config i session userId displayName).
Proof.
  unfold after_kick. destruct (verifyKickResult config); [|apply steady_ret].
  apply steady_bind; [apply steady_sleep|]. intros _.
  apply steady_bind; [apply steady_verifyUserKicked|]. intros still.
  destruct (negb still); [apply steady_ret|].
  destruct (i =? _); [|apply steady_throw].
  apply steady_bind; [apply steady_session_send|]. intros _. apply steady_ret.
Qed.

Lemma steady_on_error i session displayName error :
  steady (W:=W) (on_error config i session displayName error).
Proof.
  unfold on_error. destruct (i <? _).
  - apply steady_bind; [apply steady_sleep|]. intros _. apply steady_ret.
  - apply steady_bind; [apply steady_session_send|]. intros _. apply steady_ret.
Qed.

Lemma steady_kick_attempt i session userId displayName :
  steady (W:=W) (kick_attempt config i session userId displayName).
Proof.
  unfold kick_attempt. apply steady_try_catch.
  - apply steady_bind; [apply steady_kickGuildMember|]. intros _.
    apply steady_after_kick.
  - intros e. apply steady_on_error.
Qed.

Lemma steady_kickUserWithRetry_from n i session userId displayName :
  steady (W:=W) (kickUserWithRetry_from config n i session userId displayName).
Proof.
  revert i. induction n as [|n IH]; intros i; simpl; [apply steady_ret|].
  apply steady_bind; [apply steady_kick_attempt|].
  intros [b|]; [apply steady_ret | apply IH].
Qed.

Lemma steady_kickUserWithRetry session userId displayName :
  steady (W:=W) (kickUserWithRetry config session userId displayName).
Proof. apply steady_kickUserWithRetry_from. Qed.

(** [execute] gives the slot back when the task ends, with a value or
    with an error. *)
Lemma tidy_execute {A} (task : M W A) : tidy task → tidy (W:=W) (execute config task).
Proof.
  intros Htask st r st' Heq. unfold execute in Heq.
  case_bool_decide as Hfull.
  { simplify_eq. split; [apply same_store_refl|done]. }
  destruct (task (set_running (running st + 1) st)) as [[a|e|] st1] eqn:Hrun;
    destruct (Htask _ _ _ Hrun) as [(H1 & H2 & H3 & H4) Hr]; simplify_eq.
  - split; [by repeat split|]. intros _. simpl. rewrite Hr by done. simpl. lia.
  - split; [by repeat split|]. intros _. simpl. rewrite Hr by done. simpl. lia.
  - split; [by repeat split|]. done.
Qed.

Lemma tidy_classify userId (nickname : option js_string) :
  tidy (W:=W) (classify config userId nickname).
Proof.
  intros st r st' Heq. unfold classify in Heq.
  destruct (BlacklistManager.isBlacklisted _ _).
  { unfold ret in Heq. simplify_eq. split; [apply same_store_refl|done]. }
  destruct (truthy_opt nickname).
  - revert Heq. apply tidy_bind; [apply steady_tidy, steady_isNicknameBlacklisted|].
    intros check. destruct (NicknameCheck.isBlacklisted check); apply tidy_ret.
  - unfold ret in Heq. simplify_eq. split; [apply same_store_refl|done].
Qed.

Lemma tidy_kick_flagged session userId displayName kickReason :
  tidy (W:=W) (kick_flagged config session userId displayName kickReason).
Proof.
  unfold kick_flagged.
  apply tidy_bind; [apply steady_tidy, steady_log|]. intros _.
  apply tidy_bind.
  { destruct (notifyAdmins config); [|apply tidy_ret].
    apply tidy_try_catch; [apply steady_tidy, steady_session_send|].
    intros e. apply steady_tidy, steady_log. }
  intros _. apply tidy_bind; [|intros b; apply tidy_ret].
  apply tidy_execute.
  apply tidy_bind; [apply steady_tidy, steady_kickUserWithRetry|]. intros success.
  apply tidy_bind; [destruct success; apply steady_tidy, steady_log|]. intros _.
  apply tidy_ret.
Qed.

Lemma tidy_checkAndKickUser session userId (nickname : option js_string) :
  tidy (W:=W) (checkAndKickUser config session userId nickname).
Proof.
  unfold checkAndKickUser. apply tidy_bind; [apply tidy_classify|].
  intros [reason|]; [apply tidy_kick_flagged | apply tidy_ret].
Qed.

Lemma tidy_scan_member session member c :
  tidy (W:=W) (scan_member config session member c).
Proof.
  unfold scan_member.
  apply tidy_bind; [apply steady_tidy, steady_read_blacklistManager|]. intros manager.
  apply tidy_bind.
  { destruct (BlacklistManager.isBlacklisted _ _); [apply tidy_ret|].
    destruct (truthy_opt _); [|apply tidy_ret].
    apply tidy_bind; [apply steady_tidy, steady_isNicknameBlacklisted|].
    intros check. apply tidy_ret. }
  intros shouldKick. apply tidy_bind.
  { destruct shouldKick; [|apply tidy_ret].
    apply tidy_bind; [apply tidy_checkAndKickUser|].
    intros b. apply tidy_ret. }
  intros c'. apply tidy_bind; [|intros _; apply tidy_ret].
  destruct (_ && _); [apply steady_tidy, steady_sleep | apply tidy_ret].
Qed.

Lemma tidy_scan_batch session batch c :
  tidy (W:=W) (scan_batch config session batch c).
Proof.
  revert c. induction batch as [|member batch IH]; intros c; simpl.
  - apply tidy_ret.
  - apply tidy_bind; [apply tidy_scan_member|]. intros c'. apply IH.
Qed.

Lemma tidy_scan_batches fuel i session (filteredMembers : list Member.t) c :
  tidy (W:=W) (scan_batches config fuel i session filteredMembers c).
Proof.
  revert i c. induction fuel as [|fuel IH]; intros i c; simpl.
  - destruct (i <? _); [|apply tidy_ret].
    intros st r st' Heq. simplify_eq. split; [apply same_store_refl|done].
  - destruct (i <? _); [|apply tidy_ret].
    apply tidy_bind; [apply tidy_scan_batch|]. intros c'.
    apply tidy_bind; [destruct (_ <? _); [apply steady_tidy, steady_sleep|apply tidy_ret]|].
    intros _. apply IH.
Qed.

End TidyFacts.

(** ** kickUserWithRetry: attempts and warnings on every path *)

Section AttemptFacts.
Context {W : Type} `{!Platform W} `{!Runtime}.
Variable config : Config.
Implicit Types (st : App W) (session : Session.t)
               (userId displayName : js_string).

Lemma sends_nil_app tr1 tr2 :
  sends tr1 = [] → sends tr2 = [] → sends (tr1 ++ tr2) = [].
Proof. intros H1 H2. by rewrite sends_app, H1, H2. Qed.

Lemma quiet_sends tr : Forall not_send tr → sends tr = [].
Proof.
  induction 1 as [|e tr He _ IH]; [done|].
  unfold sends in *. rewrite filter_cons_False; [done|].
  unfold not_send in He. by rewrite He.
Qed.

(** The part of an attempt after the removal call sends a message only
    on the last attempt, and never when it reports the removal. *)
Lemma after_kick_quiet i session userId displayName st r st' :
  after_kick config i session userId displayName st = (r, st') →
  ∃ tr, trace st' = trace st ++ tr
    ∧ (r = Ok (Some true) → sends tr = [])
    ∧ (i ≠ retryAttempts config - 1 → sends tr = [] ∧ r ≠ Ok (Some false))
    ∧ r ≠ Ok None.
Proof.
  unfold after_kick. destruct (verifyKickResult config).
  2:{ intros Heq. unfold ret in Heq. simplify_eq. exists [].
      rewrite app_nil_r. by repeat split. }
  unfold bind at 1. unfold sleep. set (st1 := emit _ _).
  assert (Hst1 : trace st1 = trace st ++ [Sleep (verifyDelay config)]) by done.
  unfold bind at 1.
  destruct (verifyUserKicked session userId st1) as [[still|e|] st2] eqn:Hv;
    destruct (emits_verifyUserKicked not_send session userId eq_refl eq_refl
                _ _ _ Hv) as (tr1 & Ht1 & Hq1%quiet_sends).
  - destruct still; simpl.
    + destruct (i =? retryAttempts config - 1) eqn:Hi.
      * unfold bind.
        destruct (session_send session (StillInGroupWarning displayName) st2)
          as [[[]|e|] st3] eqn:Hsend; intros Heq; unfold ret in Heq;
          simplify_eq;
          destruct (emits_session_send (λ _, True) _ _ (λ _, I) _ _ _ Hsend)
            as (tr2 & Ht2 & _);
          exists (Sleep (verifyDelay config) :: tr1 ++ tr2);
          (split; [by rewrite Ht2, Ht1, Hst1, <- !app_assoc|]);
          (split; [done|]); (split; [|done]); intros Hne; lia.
      * intros Heq. unfold throw in Heq. simplify_eq.
        exists (Sleep (verifyDelay config) :: tr1).
        split; [by rewrite Ht1, Hst1, <- app_assoc|].
        split; [done|]. split; [|done]. intros _. split; [|done].
        unfold sends. rewrite filter_cons_False by done. exact Hq1.
    + intros Heq. unfold ret in Heq. simplify_eq.
      exists (Sleep (verifyDelay config) :: tr1).
      split; [by rewrite Ht1, Hst1, <- app_assoc|].
      assert (sends (Sleep (verifyDelay config) :: tr1) = []) as Hq.
      { unfold sends. rewrite filter_cons_False by done. exact Hq1. }
      by repeat split.
  - intros Heq. simplify_eq. exists (Sleep (verifyDelay config) :: tr1).
    split; [by rewrite Ht1, Hst1, <- app_assoc|].
    assert (sends (Sleep (verifyDelay config) :: tr1) = []) as Hq.
    { unfold sends. rewrite filter_cons_False by done. exact Hq1. }
    by repeat split.
  - intros Heq. simplify_eq. exists (Sleep (verifyDelay config) :: tr1).
    split; [by rewrite Ht1, Hst1, <- app_assoc|].
    assert (sends (Sleep (verifyDelay config) :: tr1) = []) as Hq.
    { unfold sends. rewrite filter_cons_False by done. exact Hq1. }
    by repeat split.
Qed.

Lemma on_error_quiet i session displayName error st r st' :
  on_error config i session displayName error st = (r, st') →
  ∃ tr, trace st' = trace st ++ tr
    ∧ (i < retryAttempts config - 1 → sends tr = [] ∧ r = Ok None)
    ∧ r ≠ Ok (Some true).
Proof.
  unfold on_error. destruct (i <? retryAttempts config - 1) eqn:Hi.
  - unfold bind, sleep, ret. intros Heq. simplify_eq.
    exists [Sleep (retryDelay config)]. by repeat split.
  - unfold bind.
    destruct (session_send session (KickFailedWarning displayName) st)
      as [[[]|e|] st1] eqn:Hsend; intros Heq; unfold ret in Heq; simplify_eq;
      destruct (emits_session_send (λ _, True) _ _ (λ _, I) _ _ _ Hsend)
        as (tr & Ht & _);
      exists tr; (split; [done|]); (split; [|done]); intros Hlt; lia.
Qed.

(** One iteration of the loop: a message is sent only in the last
    iteration, and not when the iteration reports the removal. *)
Lemma kick_attempt_quiet i session userId displayName st r st' :
  kick_attempt config i session userId displayName st = (r, st') →
  ∃ tr, trace st' = trace st ++ tr
    ∧ kick_calls tr = 1%nat
    ∧ (r = Ok (Some true) → sends tr = [])
    ∧ (i < retryAttempts config - 1 →
       sends tr = [] ∧ (r = Ok (Some true) ∨ r = Ok None ∨ r = Hangs)).
Proof.
  intros Heq.
  destruct (kick_attempt_one_kick config _ _ _ _ _ _ _ Heq)
    as (tr & Ht & Hk).
  exists tr. split; [done|]. split; [done|].
  revert Heq. unfold kick_attempt, try_catch, bind at 1.
  destruct (bot_kickGuildMember (Session.guildId session) userId st)
    as [[[]|e|] st1] eqn:Hkick;
    destruct (emits_kickGuildMember not_send _ _ eq_refl _ _ _ Hkick)
      as (tr0 & Ht0 & Hq0%quiet_sends).
  - destruct (after_kick config i session userId displayName st1)
      as [[b|e|] st2] eqn:Hafter;
      destruct (after_kick_quiet _ _ _ _ _ _ _ Hafter)
        as (tr1 & Ht1 & Htrue & Hmid & Hnone).
    + intros Heq. simplify_eq.
      assert (tr = tr0 ++ tr1) as ->.
      { apply (inj (app (trace st))). by rewrite <- Ht, Ht1, Ht0, app_assoc. }
      split.
      * intros Hr. apply sends_nil_app; [done|]. by apply Htrue.
      * intros Hlt. destruct Hmid as [Hs Hnf]; [lia|].
        split; [by apply sends_nil_app|].
        destruct b as [[]|]; [by left|done|done].
    + intros Heq.
      destruct (on_error_quiet _ _ _ _ _ _ _ Heq) as (tr2 & Ht2 & Hlow & Hnt).
      assert (tr = tr0 ++ tr1 ++ tr2) as ->.
      { apply (inj (app (trace st))).
        by rewrite <- Ht, Ht2, Ht1, Ht0, !app_assoc. }
      split; [done|]. intros Hlt.
      destruct Hmid as [Hs _]; [lia|]. destruct (Hlow Hlt) as [Hs2 ->].
      split; [|by right; left].
      apply sends_nil_app; [done|]. by apply sends_nil_app.
    + intros Heq. simplify_eq.
      assert (tr = tr0 ++ tr1) as ->.
      { apply (inj (app (trace st))). by rewrite <- Ht, Ht1, Ht0, app_assoc. }
      split; [done|]. intros Hlt. destruct Hmid as [Hs _]; [lia|].
      split; [by apply sends_nil_app | by right; right].
  - intros Heq.
    destruct (on_error_quiet _ _ _ _ _ _ _ Heq) as (tr2 & Ht2 & Hlow & Hnt).
    assert (tr = tr0 ++ tr2) as ->.
    { apply (inj (app (trace st))). by rewrite <- Ht, Ht2, Ht0, app_assoc. }
    split; [done|]. intros Hlt. destruct (Hlow Hlt) as [Hs2 ->].
    split; [by apply sends_nil_app | by right; left].
  - intros Heq. simplify_eq.
    assert (tr = tr0) as ->.
    { apply (inj (app (trace st))). by rewrite <- Ht, Ht0. }
    split; [done|]. intros _. split; [done | by right; right].
Qed.

Lemma kickUserWithRetry_from_quiet n i session userId displayName st r st' :
  Z.of_nat n = retryAttempts config - i →
  kickUserWithRetry_from config n i session userId displayName st = (r, st') →
  ∃ tr, trace st' = trace st ++ tr
    ∧ (kick_calls tr ≤ n)%nat
    ∧ (n ≠ 0%nat → 1 ≤ kick_calls tr)%nat
    ∧ (r = Ok true → sends tr = []).
Proof.
  revert i st. induction n as [|n IH]; intros i st Hn Heq.
  - simpl in Heq. unfold ret in Heq. simplify_eq. exists [].
    rewrite app_nil_r. by repeat split.
  - cbn [kickUserWithRetry_from] in Heq. unfold bind in Heq.
    destruct (kick_attempt config i session userId displayName st)
      as [[returned|e|] st1] eqn:Hattempt;
      destruct (kick_attempt_quiet _ _ _ _ _ _ _ Hattempt)
        as (tr1 & Ht1 & Hk1 & Htrue & Hlow).
    + destruct returned as [b|].
      * unfold ret in Heq. simplify_eq. exists tr1.
        split; [done|]. split; [lia|]. split; [lia|].
        intros Hr. simplify_eq. by apply Htrue.
      * destruct (IH (i + 1) st1 ltac:(lia) Heq)
          as (tr2 & Ht2 & Hk2 & Hpos & Hquiet).
        exists (tr1 ++ tr2). rewrite Ht2, Ht1, app_assoc.
        split; [done|]. rewrite kick_calls_app.
        split; [lia|]. split; [lia|].
        intros Hr. destruct n as [|n].
        { simpl in Heq. unfold ret in Heq. simplify_eq. }
        apply sends_nil_app; [|by apply Hquiet].
        apply Hlow. lia.
    + simplify_eq. exists tr1. split; [done|]. split; [lia|]. by split; [lia|].
    + simplify_eq. exists tr1. split; [done|]. split; [lia|]. by split; [lia|].
Qed.

Lemma kickUserWithRetry_run session userId displayName st r st' :
  kickUserWithRetry config session userId displayName st = (r, st') →
  ∃ tr,
    trace st' = trace st ++ tr
    ∧ Z.of_nat (kick_calls tr) ≤ Z.max 0 (retryAttempts config)
    ∧ (1 ≤ retryAttempts config → (1 ≤ kick_calls tr)%nat)
    ∧ (r = Ok true → (1 ≤ kick_calls tr)%nat ∧ sends tr = []).
Proof.
  intros Heq.
  destruct (Z_le_gt_dec (retryAttempts config) 0) as [Hle|Hgt].
  - unfold kickUserWithRetry in Heq.
    replace (Z.to_nat (retryAttempts config)) with 0%nat in Heq by lia.
    simpl in Heq. unfold ret in Heq. simplify_eq.
    exists []. rewrite app_nil_r. unfold kick_calls. simpl.
    repeat split; try done; lia.
  - destruct (kickUserWithRetry_from_quiet
                (Z.to_nat (retryAttempts config)) 0 session userId
                displayName st r st' ltac:(lia) Heq)
      as (tr & Ht & Hk & Hpos & Hquiet).
    exists tr. split; [done|]. split; [lia|].
    split; [intros _; apply Hpos; lia|].
    intros Hr. split; [apply Hpos; lia | by apply Hquiet].
Qed.

(** The effects of the retry loop: the removal call, the pauses, the
    two queries of the verification and what [send] does with the two
    warnings. *)
Lemma emits_kickUserWithRetry_from Q n i session userId displayName :
  Q (CallKick (Session.guildId session) userId) →
  (∀ ms, Q (Sleep ms)) →
  Q (CallMemberList (Session.guildId session)) →
  Q (CallMember (Session.guildId session) userId) →
  (∀ m, m = StillInGroupWarning displayName
        ∨ m = KickFailedWarning displayName →
        emits Q (session_send session m)) →
  emits Q (kickUserWithRetry_from config n i session userId displayName).
Proof.
  intros Hkick Hsleep Hlist Hmember Hsend.
  revert i. induction n as [|n IH]; intros i; simpl; [apply emits_ret|].
  apply emits_bind; [|intros [b|]; [apply emits_ret | apply IH]].
  unfold kick_attempt. apply emits_try_catch.
  - apply emits_bind; [by apply emits_kickGuildMember|]. intros _.
    unfold after_kick. destruct (verifyKickResult config); [|apply emits_ret].
    apply emits_bind; [by apply emits_sleep|]. intros _.
    apply emits_bind; [by apply emits_verifyUserKicked|]. intros still.
    destruct (negb still); [apply emits_ret|].
    destruct (i =? _); [|apply emits_throw].
    apply emits_bind; [|intros _; apply emits_ret].
    apply Hsend. by left.
  - intros e. unfold on_error. destruct (i <? _).
    + apply emits_bind; [by apply emits_sleep|]. intros _. apply emits_ret.
    + apply emits_bind; [|intros _; apply emits_ret].
      apply Hsend. by right.
Qed.


End AttemptFacts.

(** ** kickUserWithRetry: the warning of a failed removal *)

Section WarnOnceFacts.
Context {W : Type} `{!Platform W} `{!Runtime}.
Variable config : Config.
Implicit Types (st : App W) (session : Session.t)
               (userId displayName : js_string).

Lemma kickUserWithRetry_from_warnings n i session userId displayName :
  emits (warning_for displayName)
    (kickUserWithRetry_from config n i session userId displayName).
Proof.
  apply emits_kickUserWithRetry_from; try done.
  intros m Hm. apply emits_session_send. intros ok m' ok' ?. by simplify_eq.
Qed.

(** For a session whose [send] works: [kickUserWithRetry] never
    throws; when it answers [false] after at least one attempt it has
    sent exactly one message, one of the two warnings for the display
    name, and the message was delivered; when it answers [true] or
    does not return it has sent none. *)
Theorem failed_removal_warns_exactly_once
    session userId displayName st r st' :
  Session.has_send session = true →
  (∀ m w, (send session m w).1 = Ok ()) →
  kickUserWithRetry config session userId displayName st = (r, st') →
  (r = Ok true ∨ r = Ok false ∨ r = Hangs)
  ∧ ∃ tr,
      trace st' = trace st ++ tr
      ∧ (r = Ok false → 1 ≤ retryAttempts config →
         ∃ m, sends tr = [CallSend m true]
              ∧ delivered tr = [m]
              ∧ (m = StillInGroupWarning displayName
                 ∨ m = KickFailedWarning displayName))
      ∧ (r ≠ Ok false → sends tr = []).
Proof.
  intros Hsend Hreturns Heq.
  destruct (kickUserWithRetry_warns_once config session Hsend Hreturns
              _ _ _ _ _ Heq) as (tr & Ht & Hcases).
  destruct (kickUserWithRetry_from_warnings _ _ _ _ _ _ _ _ Heq)
    as (tr' & Ht' & Hwarn).
  assert (tr' = tr) as ->.
  { apply (inj (app (trace st))). by rewrite <- Ht, Ht'. }
  assert (Hdel : ∀ m, sends tr = [CallSend m true] → delivered tr = [m]).
  { clear. intros m. unfold sends, delivered.
    induction tr as [|e tr IH]; [done|].
    destruct e as [| | | |m' ok| |];
      try (rewrite filter_cons_False by done; simpl; exact IH).
    rewrite filter_cons_True by done. intros Hs. simplify_eq.
    simpl. f_equal.
    clear IH. induction tr as [|e tr IH]; [done|].
    destruct e as [| | | |m' ok| |];
      try (rewrite filter_cons_False in * by done; simpl; by apply IH).
    by rewrite filter_cons_True in * by done. }
  split.
  { destruct Hcases as [[-> _]|[(-> & _)|[(-> & _)|[-> _]]]]; auto. }
  exists tr. split; [done|]. split.
  - intros -> Hpos.
    destruct Hcases as [[? _]|[(_ & _ & m & Hm)|[(_ & ? & _)|[? _]]]];
      try done; [|lia].
    exists m. split; [done|]. split; [by apply Hdel|].
    assert (Hin : CallSend m true ∈ tr).
    { assert (Hin : CallSend m true ∈ sends tr) by (rewrite Hm; left).
      unfold sends in Hin. by apply list_elem_of_filter in Hin as [_ ?]. }
    rewrite Forall_forall in Hwarn. by apply (Hwarn _ Hin m true).
  - intros Hr.
    destruct Hcases as [[_ ?]|[(? & _)|[(? & _)|[_ ?]]]]; done.
Qed.

End WarnOnceFacts.

(** The bot lacks the permission to remove members: three refused
    attempts, then the warning. *)
Lemma failed_removal_warns_exactly_once_witness :
  let cfg := Scripted.config [lit "111"] [] contains in
  let session := Scripted.session "111" "g" None in
  let st := apply cfg {| Guild.members := [Scripted.member "111" None];
                         Guild.clock := 0 |} in
  Session.has_send session = true
  ∧ (∀ m w, (send (Platform := Guild.denied) session m w).1 = Ok ())
  ∧ ∃ st',
      kickUserWithRetry (Platform0 := Guild.denied) cfg session
        (lit "111") (lit "111") st = (Ok false, st')
      ∧ kick_calls (trace st') = (kick_calls (trace st) + 3)%nat
      ∧ ∃ tr, trace st' = trace st ++ tr
              ∧ delivered tr = [KickFailedWarning (lit "111")].
Proof.
  cbv zeta.
  set (cfg := Scripted.config [lit "111"] [] contains).
  set (session := Scripted.session "111" "g" None).
  set (st := apply cfg _).
  assert (Hsend : Session.has_send session = true) by reflexivity.
  assert (Hret : ∀ m w, (send (Platform := Guild.denied) session m w).1 = Ok ())
    by (intros; reflexivity).
  split; [exact Hsend|]. split; [exact Hret|].
  destruct (kickUserWithRetry (Platform0 := Guild.denied) cfg session
              (lit "111") (lit "111") st) as [r st'] eqn:Heq.
  assert (Hr : r = Ok false) by (vm_compute in Heq; congruence).
  subst r. exists st'. split; [done|].
  split; [vm_compute in Heq; injection Heq as <-; reflexivity|].
  destruct (failed_removal_warns_exactly_once (Platform0 := Guild.denied)
              cfg session _ _ _ _ _ Hsend Hret Heq)
    as (_ & tr & Ht & Hfalse & _).
  exists tr. split; [done|].
  destruct (Hfalse eq_refl ltac:(simpl; lia)) as (m & _ & Hdel & Hm).
  rewrite Hdel. f_equal.
  assert (Hd : delivered (trace st') = delivered (trace st) ++ [m]).
  { rewrite Ht. unfold delivered in *. by rewrite omap_app, Hdel. }
  vm_compute in Heq. injection Heq as <-.
  vm_compute in Hd. by injection Hd as <-.
Defined.

(** ** checkAndKickUser *)

Section CheckFacts.
Context {W : Type} `{!Platform W} `{!Runtime}.
Variable config : Config.
Implicit Types (st : App W) (session : Session.t)
               (userId displayName : js_string) (Q : Effect → Prop).

Lemma bind_inv {A B} (m : M W A) (f : A → M W B) st r st' :
  bind m f st = (r, st') →
  (∃ a st1, m st = (Ok a, st1) ∧ f a st1 = (r, st'))
  ∨ (∃ e, m st = (Throw e, st') ∧ r = Throw e)
  ∨ (m st = (Hangs, st') ∧ r = Hangs).
Proof.
  unfold bind. destruct (m st) as [[a|e|] st1]; intros Heq.
  - left. by exists a, st1.
  - right. left. simplify_eq. by exists e.
  - right. right. by simplify_eq.
Qed.

Lemma quiet_kicks tr : Forall not_kick tr → kick_calls tr = 0%nat.
Proof.
  induction 1 as [|e tr He _ IH]; [done|].
  unfold kick_calls in *. rewrite filter_cons_False; [done|].
  unfold not_kick in He. by rewrite He.
Qed.





(** [classify] returns, changes nothing, and flags exactly the flagged
    users; the reason names the identifier blacklist first. *)
Lemma classify_spec userId (nickname : option js_string) st :
  let this := blacklistManager st in
  let matchMode := nicknameMatchMode config in
  ∃ verdict,
    classify config userId nickname st = (Ok verdict, st)
    ∧ ((verdict = None ∧ ¬ flagged this matchMode userId nickname)
       ∨ (is_Some verdict ∧ flagged this matchMode userId nickname))
    ∧ (verdict = Some IdBlacklist
       ↔ BlacklistManager.isBlacklisted this userId = true)
    ∧ (∀ matchedKeyword,
         verdict = Some (NicknameBlacklist matchedKeyword) →
         BlacklistManager.isBlacklisted this userId = false
         ∧ ∃ name keyword,
             nickname = Some name ∧ matchedKeyword = Some keyword
             ∧ first_match matchMode name
                 (BlacklistManager.nicknameBlacklist this) keyword).
Proof.
  cbv zeta. unfold classify, flagged.
  destruct (BlacklistManager.isBlacklisted (blacklistManager st) userId)
    eqn:Hid.
  { eexists. split; [reflexivity|]. split; [|split]; try done.
    right. split; [done | by left]. }
  destruct nickname as [name|]; simpl.
  2:{ eexists. split; [reflexivity|]. split; [|split]; try done.
      left. split; [done|]. intros [?|(name & k & ? & _)]; done. }
  destruct name as [|c name]; simpl.
  { eexists. split; [reflexivity|]. split; [|split]; try done.
    left. split; [done|]. intros [?|(name & k & ? & ? & _)]; by simplify_eq. }
  unfold bind, isNicknameBlacklisted. cbn [truthy negb orb].
  case_bool_decide as Hlen.
  { apply length_zero_iff_nil in Hlen.
    eexists. split; [reflexivity|]. split; [|split]; try done.
    left. split; [done|]. intros [?|(name' & k & _ & _ & Hin & _)]; [done|].
    rewrite Hlen in Hin. by apply elem_of_nil in Hin. }
  destruct (isNicknameBlacklisted_loop_spec
              (BlacklistManager.nicknameBlacklist (blacklistManager st))
              (c :: name) (nicknameMatchMode config) st)
    as [(k & -> & Hfirst)|[-> Hnone]]; cbn [NicknameCheck.isBlacklisted
      NicknameCheck.matchedKeyword matched no_match].
  - eexists. split; [reflexivity|]. split; [|split]; try done.
    + right. split; [done|]. right.
      destruct Hfirst as (earlier & later & Heq & Hm & _).
      exists (c :: name), k. repeat split; try done.
      rewrite Heq. apply elem_of_app. right. left.
    + intros mk ?. simplify_eq. split; [done|]. by exists (c :: name), k.
  - eexists. split; [reflexivity|]. split; [|split]; try done.
    left. split; [done|]. intros [?|(name' & k & ? & _ & Hin & Hm)]; [done|].
    simplify_eq. by apply (Hnone k).
Qed.

(** The admin notification is best effort: it returns, or it never
    does; an error of [send] is logged and dropped. *)
Lemma notify_run session displayName kickReason st r st' :
  (if notifyAdmins config
   then try_catch
          (session_send session (AdminNotify displayName kickReason))
          (λ error, log (LogNotifyFailed error))
   else ret ()) st = (r, st') →
  (∃ tr, trace st' = trace st ++ tr ∧ Forall not_kick tr)
  ∧ same_store st st' ∧ running st' = running st
  ∧ (r = Ok ()
     ∨ (r = Hangs ∧ notifyAdmins config = true
        ∧ Session.has_send session = true
        ∧ (send session (AdminNotify displayName kickReason) (world st)).1
          = Hangs)).
Proof.
  intros Heq.
  assert (Hem : emits (W:=W) not_kick
    (if notifyAdmins config
     then try_catch
            (session_send session (AdminNotify displayName kickReason))
            (λ error, log (LogNotifyFailed error))
     else ret ())).
  { destruct (notifyAdmins config); [|apply emits_ret].
    apply emits_try_catch; [by apply emits_session_send|].
    intros e. by apply emits_log. }
  assert (Hst : steady (W:=W)
    (if notifyAdmins config
     then try_catch
            (session_send session (AdminNotify displayName kickReason))
            (λ error, log (LogNotifyFailed error))
     else ret ())).
  { destruct (notifyAdmins config); [|apply steady_ret].
    apply steady_try_catch; [apply steady_session_send|].
    intros e. apply steady_log. }
  split; [exact (Hem _ _ _ Heq)|].
  destruct (Hst _ _ _ Heq) as [Hs Hr]. split; [done|]. split; [done|].
  destruct (notifyAdmins config); [|unfold ret in Heq; simplify_eq; by left].
  unfold try_catch, session_send in Heq.
  destruct (Session.has_send session).
  - destruct (send session (AdminNotify displayName kickReason) (world st))
      as [[[]|e|] w] eqn:Hsend; unfold log in Heq; simplify_eq; auto.
  - unfold log in Heq. simplify_eq. by left.
Qed.

Lemma execute_inv {A} (task : M W A) st r st' :
  execute config task st = (r, st') →
  (maxConcurrent config ≤ running st ∧ r = Hangs ∧ st' = st)
  ∨ (running st < maxConcurrent config
     ∧ ∃ st1, task (set_running (running st + 1) st) = (r, st1)
              ∧ trace st' = trace st1).
Proof.
  unfold execute. case_bool_decide as Hfull; intros Heq.
  { left. by simplify_eq. }
  right. split; [lia|].
  destruct (task (set_running (running st + 1) st)) as [[a|e|] st1];
    simplify_eq; by eexists.
Qed.

(** The task handed to the scheduler: the retry loop, then one log
    line. *)
Lemma kick_task_run session userId displayName (won lost : LogEntry)
    st r st' :
  (let* success := kickUserWithRetry config session userId displayName in
   (if success then log won else log lost) ;;;
   ret success) st = (r, st') →
  ∃ tr,
    trace st' = trace st ++ tr
    ∧ Z.of_nat (kick_calls tr) ≤ Z.max 0 (retryAttempts config)
    ∧ (1 ≤ retryAttempts config → (1 ≤ kick_calls tr)%nat)
    ∧ (r = Ok true → (1 ≤ kick_calls tr)%nat).
Proof.
  intros Htask.
  apply bind_inv in Htask
    as [(s & st1 & Hkick & Hlogs)|[(e & Hkick & ->)|[Hkick ->]]];
    destruct (kickUserWithRetry_run _ _ _ _ _ _ _ Hkick)
      as (tr & Ht & Hmax & Hmin & Htrue).
  - assert (r = Ok s ∧ ∃ entry, trace st' = trace st1 ++ [Log entry])
      as [-> [entry Hlog]].
    { destruct s; unfold bind, log, ret in Hlogs; simplify_eq;
        (split; [done|]); by eexists. }
    exists (tr ++ [Log entry]). rewrite Hlog, Ht, <- app_assoc.
    split; [done|]. rewrite kick_calls_app. unfold kick_calls at 2. simpl.
    split; [lia|]. split; [intros Hpos; specialize (Hmin Hpos); lia|].
    intros ?. simplify_eq. destruct Htrue; [done|lia].
  - exists tr. by repeat split.
  - exists tr. by repeat split.
Qed.

(** What [kick_flagged] does once the user is known to be flagged. *)
Lemma kick_flagged_run session userId displayName kickReason st r st' :
  kick_flagged config session userId displayName kickReason st = (r, st') →
  ∃ tr,
    trace st' = trace st ++ Log (LogFound displayName userId kickReason) :: tr
    ∧ Z.of_nat (kick_calls tr) ≤ Z.max 0 (retryAttempts config)
    ∧ (r = Ok true → (1 ≤ kick_calls tr)%nat)
    ∧ (maxConcurrent config ≤ running st → kick_calls tr = 0%nat ∧ r = Hangs)
    ∧ (running st < maxConcurrent config → 1 ≤ retryAttempts config →
       (send session (AdminNotify displayName kickReason) (world st)).1
       ≠ Hangs →
       (1 ≤ kick_calls tr)%nat).
Proof.
  unfold kick_flagged. intros Hk.
  apply bind_inv in Hk as [(a & st1 & Hlog & Hrest)|[(e & Hlog & _)|[Hlog _]]];
    unfold log in Hlog; simplify_eq.
  set (st1 := emit (Log (LogFound displayName userId kickReason)) st) in *.
  assert (Hst1 : trace st1
                 = trace st ++ [Log (LogFound displayName userId kickReason)])
    by done.
  apply bind_inv in Hrest
    as [([] & st2 & Hnotify & Hrest)|[(e & Hnotify & ->)|[Hnotify ->]]];
    destruct (notify_run _ _ _ _ _ _ Hnotify)
      as ((tr2 & Ht2 & Hq2) & Hs2 & Hr2 & Hres2);
    pose proof (quiet_kicks tr2 Hq2) as Hk2.
  2:{ destruct Hres2 as [?|[? _]]; done. }
  2:{ destruct Hres2 as [?|(_ & _ & _ & Hhang)]; [done|].
      exists tr2. rewrite Ht2, Hst1, <- app_assoc. rewrite Hk2.
      split; [done|]. split; [lia|]. split; [done|]. split; [done|].
      intros _ _ Hno. done. }
  assert (Hexec : ∃ r2, execute config
            (let* success :=
               kickUserWithRetry config session userId displayName in
             (if success
              then log (LogKicked displayName userId kickReason)
              else log (LogKickFailed displayName userId kickReason)) ;;;
             ret success) st2 = (r2, st')
            ∧ (r2 = Ok true ↔ r = Ok true) ∧ (r2 = Hangs ↔ r = Hangs)).
  { apply bind_inv in Hrest
      as [(b & st3 & Hexec & Hret)|[(e & Hexec & ->)|[Hexec ->]]].
    - unfold ret in Hret. simplify_eq. eexists. split; [done|].
      split; split; congruence.
    - eexists. split; [done|]. split; split; congruence.
    - eexists. by split. }
  destruct Hexec as (r2 & Hexec & Htrue & Hhang).
  apply execute_inv in Hexec
    as [(Hfull & -> & ->)|(Hfree & st3 & Htask & Ht3)];
    rewrite Hr2 in *; change (running st1) with (running st) in *.
  - exists tr2. rewrite Ht2, Hst1, <- app_assoc, Hk2.
    split; [done|]. split; [lia|].
    split; [intros Hr; by apply Htrue in Hr|].
    split; [intros _; split; [done | by apply Hhang]|].
    intros ?. lia.
  - destruct (kick_task_run _ _ _ _ _ _ _ _ Htask)
      as (tr3 & Ht3' & Hmax & Hmin & Hwon).
    change (trace (set_running (running st + 1) st2)) with (trace st2)
      in Ht3'.
    exists (tr2 ++ tr3). rewrite Ht3, Ht3', Ht2, Hst1, <- !app_assoc.
    split; [done|]. rewrite kick_calls_app, Hk2.
    split; [lia|].
    split; [intros Hr; apply Htrue in Hr; specialize (Hwon Hr); lia|].
    split; [intros ?; lia|].
    intros _ Hpos _. specialize (Hmin Hpos). lia.
Qed.

Lemma kick_flagged_starts_with_log
    session userId displayName kickReason st r st' :
  kick_flagged config session userId displayName kickReason st = (r, st') →
  ∃ tr, trace st'
        = trace st ++ Log (LogFound displayName userId kickReason) :: tr.
Proof.
  intros Hk. destruct (kick_flagged_run _ _ _ _ _ _ _ Hk) as (tr & Ht & _).
  by exists tr.
Qed.

(** Whom [checkAndKickUser] acts upon: a user who is not flagged gets
    the answer [false] and nothing happens, no platform call, no
    message, no log line; for a flagged user the function goes on to
    the removal, with the identifier blacklist as the reason whenever
    the identifier is on it and the first matching keyword otherwise. *)
Theorem checkAndKickUser_acts_on_flagged_users
    session userId (nickname : option js_string) st :
  let this := blacklistManager st in
  let matchMode := nicknameMatchMode config in
  let displayName := js_or nickname userId in
  (¬ flagged this matchMode userId nickname
   ∧ checkAndKickUser config session userId nickname st = (Ok false, st))
  ∨ (flagged this matchMode userId nickname
     ∧ ∃ kickReason,
         checkAndKickUser config session userId nickname st
         = kick_flagged config session userId displayName kickReason st
         ∧ (kickReason = IdBlacklist
            ↔ BlacklistManager.isBlacklisted this userId = true)
         ∧ (∀ matchedKeyword,
              kickReason = NicknameBlacklist matchedKeyword →
              ∃ name keyword,
                nickname = Some name ∧ matchedKeyword = Some keyword
                ∧ first_match matchMode name
                    (BlacklistManager.nicknameBlacklist this) keyword)
         ∧ ∃ tr, trace (kick_flagged config session userId displayName
                          kickReason st).2
                 = trace st ++ Log (LogFound displayName userId kickReason)
                               :: tr).
Proof.
  cbv zeta.
  destruct (classify_spec userId nickname st)
    as (verdict & Hc & Hnone & Hid & Hnick). cbv zeta in *.
  unfold checkAndKickUser, bind. rewrite Hc.
  destruct verdict as [reason|].
  - right. split.
    { destruct Hnone as [[? _]|[_ ?]]; done. }
    exists reason. split; [done|]. split.
    { rewrite <- Hid. split; congruence. }
    split.
    { intros mk ->. destruct (Hnick mk eq_refl) as [_ ?]. done. }
    destruct (kick_flagged config session userId (js_or nickname userId)
                reason st) as [r st'] eqn:Hk.
    destruct (kick_flagged_starts_with_log _ _ _ _ _ _ _ Hk) as [tr Ht].
    by exists tr.
  - left. destruct Hnone as [[_ ?]|[[? ?] _]]; done.
Qed.







End CheckFacts.


(** ** delayedNicknameCheck *)

Section DelayedCheckFacts.
Context {W : Type} `{!Platform W} `{!Runtime}.
Variable config : Config.
Implicit Types (st : App W) (userId originalNickname : js_string)
               (guildId : option js_string).

Lemma try_catch_inv {A} (body : M W A) (handler : Error → M W A) st r st' :
  try_catch body handler st = (r, st') →
  (∃ e st1, body st = (Throw e, st1) ∧ handler e st1 = (r, st'))
  ∨ (body st = (r, st') ∧ ∀ e, r ≠ Throw e).
Proof.
  unfold try_catch. destruct (body st) as [[a|e|] st1]; intros Heq.
  - right. by simplify_eq.
  - left. by exists e, st1.
  - right. by simplify_eq.
Qed.






End DelayedCheckFacts.

(** ** scanExistingMembers *)

Section ScanMoreFacts.
Context {W : Type} `{!Platform W} `{!Runtime}.
Variable config : Config.
Implicit Types (st : App W) (session : Session.t) (member : Member.t)
               (c : ScanCounts).

Lemma keyword_matches_hits (nickname keyword : js_string) matchMode st :
  keyword_matches nickname keyword matchMode st
  = (Ok (keyword_hits matchMode nickname keyword), st).
Proof.
  unfold keyword_matches, keyword_hits, try_catch, new_RegExp.
  destruct matchMode; [done|].
  unfold bind. by destruct (RegExp keyword (lit "i")).
Qed.

Lemma isNicknameBlacklisted_loop_hits (keywords : list js_string)
    (nickname : js_string) matchMode st :
  ∃ check,
    isNicknameBlacklisted_loop keywords nickname matchMode st = (Ok check, st)
    ∧ NicknameCheck.isBlacklisted check
      = existsb (keyword_hits matchMode nickname) keywords.
Proof.
  induction keywords as [|k keywords IH]; simpl.
  - by eexists.
  - unfold bind. rewrite keyword_matches_hits.
    destruct (keyword_hits matchMode nickname k); [by eexists|exact IH].
Qed.

Lemma isNicknameBlacklisted_hits (nickname : js_string) matchMode st :
  ∃ check,
    isNicknameBlacklisted (Some nickname) matchMode st = (Ok check, st)
    ∧ NicknameCheck.isBlacklisted check
      = truthy nickname
        && existsb (keyword_hits matchMode nickname)
             (BlacklistManager.nicknameBlacklist (blacklistManager st)).
Proof.
  unfold isNicknameBlacklisted.
  destruct (truthy nickname) eqn:Hn; simpl.
  2:{ by eexists. }
  case_bool_decide as Hlen.
  - apply length_zero_iff_nil in Hlen. rewrite Hlen. by eexists.
  - apply isNicknameBlacklisted_loop_hits.
Qed.

Lemma keyword_hits_spec matchMode (nickname keyword : js_string) :
  keyword_hits matchMode nickname keyword = true
  ↔ Matches matchMode nickname keyword.
Proof.
  unfold keyword_hits, Matches. destruct matchMode.
  - apply includes_spec.
  - destruct (RegExp keyword (lit "i")); [done | apply includes_spec].
Qed.

Lemma should_kick_spec (this : BlacklistManager.t) matchMode
    (userId : js_string) (nickname : option js_string) :
  should_kick this matchMode userId nickname = true
  ↔ flagged this matchMode userId nickname.
Proof.
  unfold should_kick, flagged. rewrite orb_true_iff. split.
  - intros [Hid|Hname]; [by left|]. right.
    destruct nickname as [name|]; [|done].
    apply andb_true_iff in Hname as [Hne Hex].
    apply existsb_exists in Hex as (k & Hin & Hk).
    exists name, k. split; [done|]. split; [by destruct name|].
    split; [by apply list_elem_of_In|]. by apply keyword_hits_spec.
  - intros [Hid|(name & k & -> & Hne & Hin & Hm)]; [by left|]. right.
    apply andb_true_iff. split; [by destruct name|].
    apply existsb_exists. exists k. split; [by apply list_elem_of_In|].
    by apply keyword_hits_spec.
Qed.

(** The decision of the scan about one member (lines 504-513). *)
Lemma scan_decision (userId : js_string) (nickname : option js_string) st :
  (if BlacklistManager.isBlacklisted (blacklistManager st) userId then ret true
   else if truthy_opt nickname then
     let* nicknameCheck :=
       isNicknameBlacklisted nickname (nicknameMatchMode config) in
     ret (NicknameCheck.isBlacklisted nicknameCheck)
   else ret false) st
  = (Ok (should_kick (blacklistManager st) (nicknameMatchMode config)
           userId nickname), st).
Proof.
  unfold should_kick.
  destruct (BlacklistManager.isBlacklisted (blacklistManager st) userId);
    [done|].
  destruct nickname as [name|]; [|done]. simpl.
  destruct (truthy name) eqn:Hn; [|done].
  destruct (isNicknameBlacklisted_hits name (nicknameMatchMode config) st)
    as (check & Hc & Hb).
  unfold bind. rewrite Hc. unfold ret. rewrite Hb, Hn. done.
Qed.










Lemma slice_take_drop {A} (xs : list A) (i n : Z) :
  0 ≤ i → i < Z.of_nat (length xs) → 0 ≤ n →
  slice xs i (i + n) = take (Z.to_nat n) (drop (Z.to_nat i) xs).
Proof.
  intros Hi Hlt Hn. unfold slice, relative_index. cbv zeta.
  rewrite (proj2 (Z.ltb_ge i 0)) by lia.
  rewrite (proj2 (Z.ltb_ge (i + n) 0)) by lia.
  rewrite (Z.min_l i) by lia.
  destruct (Z_le_gt_dec (i + n) (Z.of_nat (length xs))) as [Hle|Hgt].
  - rewrite Z.min_l by lia. f_equal. lia.
  - rewrite Z.min_r by lia.
    rewrite (take_ge _ (Z.to_nat n)) by (rewrite length_drop; lia).
    apply take_ge. rewrite length_drop. lia.
Qed.





(** The batch loop needs a batch size of at least 1.  With
    [batchSize] zero or negative and a member to examine, the loop of
    a scan never reaches its end: however long it is followed it has
    not returned the counters.  A scan then never writes its report
    and never updates the statistics. *)
Theorem scan_never_finishes_without_batch_size
    session st t w1 members w2 r st' :
  enableJoinScan config = true →
  batchSize config ≤ 0 →
  Date_now (world st) = (t, w1) →
  getGuildMemberList (Session.guildId session) w1 = (Ok members, w2) →
  scanned_members config members ≠ [] →
  scanExistingMembers config session st = (r, st') →
  (∀ fuel c s r' s',
     scan_batches config fuel 0 session (scanned_members config members) c s
     = (r', s') →
     ∀ c', r' ≠ Ok c')
  ∧ blacklistManager st' = blacklistManager st
  ∧ (r = Hangs ∨ ∃ e, last (trace st') = Some (Log (LogScanFailed e))).
Proof.
  intros Hscan Hbs Hdate Hlist Hne Heq.
  assert (Hloop : ∀ fuel i c s r' s',
    i ≤ 0 →
    scan_batches config fuel i session (scanned_members config members) c s
    = (r', s') →
    ∀ c', r' ≠ Ok c').
  { induction fuel as [|fuel IH]; intros i c s r' s' Hi Hrun c';
      cbn [scan_batches] in Hrun;
      rewrite (proj2 (Z.ltb_lt i _)) in Hrun
        by (destruct (scanned_members config members); [done|simpl; lia]).
    - by simplify_eq.
    - apply bind_inv in Hrun
        as [(c1 & s1 & _ & Hrest)|[(e & _ & ->)|[_ ->]]]; [|done|done].
      apply bind_inv in Hrest
        as [([] & s2 & _ & Hrest)|[(e & _ & ->)|[_ ->]]]; [|done|done].
      eapply IH; [|exact Hrest]. lia. }
  split; [intros fuel c s r' s'; by apply Hloop|].
  revert Heq. unfold scanExistingMembers. rewrite Hscan. cbn [negb].
  unfold bind at 1, date_now. rewrite Hdate.
  unfold bind at 1, log at 1.
  set (st1 := emit (Log (LogScanStart (Session.guildId session)))
                (set_world w1 st)).
  unfold try_catch, bind at 1, bot_getGuildMemberList.
  change (world st1) with w1. rewrite Hlist.
  set (st2 := emit (CallMemberList (Session.guildId session))
                (set_world w2 st1)).
  fold (scanned_members config members).
  unfold bind at 1.
  destruct (scan_batches config (length (scanned_members config members)) 0
              session (scanned_members config members)
              {| scannedCount := 0; blacklistedCount := 0;
                 kickedCount := 0; failedKickCount := 0 |} st2)
    as [rb st3] eqn:Hb.
  destruct (tidy_scan_batches config _ _ _ _ _ _ _ _ Hb) as [(Hbm & _) _].
  assert (H0 : 0 ≤ 0) by done.
  pose proof (Hloop _ _ _ _ _ _ H0 Hb) as Hno.
  destruct rb as [c|e|].
  - by destruct (Hno c).
  - unfold log. intros ?. simplify_eq. split; [done|]. right. exists e.
    cbn [trace emit]. apply last_snoc.
  - intros ?. simplify_eq. split; [done|]. by left.
Qed.

End ScanMoreFacts.



(** A batch size of 0 and one member. *)
Lemma scan_never_finishes_without_batch_size_witness :
  let cfg :=
    Guild.with_limits (Scripted.config [lit "111"] [] contains) 0 3 3 in
  let session := Scripted.session "" "g" None in
  let group := [Scripted.member "111" None] in
  let w := {| Guild.members := group; Guild.clock := 0 |} in
  let st := apply cfg w in
  enableJoinScan cfg = true
  ∧ batchSize cfg ≤ 0
  ∧ Date_now (Platform := Guild.permitted) (world st) = (0, w)
  ∧ getGuildMemberList (Platform := Guild.permitted)
      (Session.guildId session) w = (Ok (Some group), w)
  ∧ scanned_members cfg (Some group) ≠ []
  ∧ ∃ st',
      scanExistingMembers (Platform0 := Guild.permitted) cfg session st
      = (Hangs, st')
      ∧ blacklistManager st' = blacklistManager st
      ∧ kick_calls (trace st') = 0%nat.
Proof.
  cbv zeta.
  set (cfg := Guild.with_limits (Scripted.config [lit "111"] [] contains)
                0 3 3).
  set (session := Scripted.session "" "g" None).
  set (group := [Scripted.member "111" None]).
  set (w := {| Guild.members := group; Guild.clock := 0 |}).
  set (st := apply cfg w).
  assert (H1 : enableJoinScan cfg = true) by reflexivity.
  assert (H2 : batchSize cfg ≤ 0) by (simpl; lia).
  assert (H3 : Date_now (Platform := Guild.permitted) (world st) = (0, w))
    by reflexivity.
  assert (H4 : getGuildMemberList (Platform := Guild.permitted)
                 (Session.guildId session) w = (Ok (Some group), w))
    by reflexivity.
  assert (H5 : scanned_members cfg (Some group) ≠ []) by done.
  split; [exact H1|]. split; [exact H2|]. split; [exact H3|].
  split; [exact H4|]. split; [exact H5|].
  destruct (scanExistingMembers (Platform0 := Guild.permitted) cfg session st)
    as [r st'] eqn:Heq.
  destruct (scan_never_finishes_without_batch_size
              (Platform0 := Guild.permitted)
              cfg session st 0 w (Some group) w r st' H1 H2 H3 H4 H5 Heq)
    as (_ & Hbm & _).
  assert (Hr : r = Hangs) by (vm_compute in Heq; congruence). subst r.
  exists st'. split; [done|]. split; [done|].
  vm_compute in Heq. by injection Heq as <-.
Defined.

(** ** Removal calls are for flagged users *)

Section GuardFacts.
Context {W : Type} `{!Platform W} `{!Runtime}.
Variable config : Config.
Implicit Types (st : App W) (session : Session.t)
               (this : BlacklistManager.t).

Lemma same_lists_refl this : same_lists this this.
Proof. by split. Qed.







Lemma guarded_throw {A} e : guarded (W:=W) (A:=A) config (throw e).
Proof.
  intros st r st' Heq. unfold throw in Heq. simplify_eq.
  split; [apply same_lists_refl|]. exists []. by rewrite app_nil_r.
Qed.























End GuardFacts.

(** ** The handlers and the life of an instance *)

Section HandlerFacts.
Context {W : Type} `{!Platform W} `{!Runtime}.
Variable config : Config.
Implicit Types (st : App W) (session : Session.t).










End HandlerFacts.


(** ** verifyUserKicked and the pacing of the retries *)

Section VerifyFacts.
Context {W : Type} `{!Platform W} `{!Runtime}.
Variable config : Config.
Implicit Types (st : App W) (session : Session.t)
               (userId displayName : js_string).

Lemma existsb_user_id (members : list Member.t) userId :
  existsb (λ member, bool_decide (User.id (Member.user member) = userId))
    members = true
  ↔ userId ∈ (λ member, User.id (Member.user member)) <$> members.
Proof.
  rewrite existsb_exists, list_elem_of_fmap. split.
  - intros (m & Hin%list_elem_of_In & Hm%bool_decide_eq_true).
    by exists m.
  - intros (m & -> & Hin). exists m.
    split; [by apply list_elem_of_In | by apply bool_decide_eq_true].
Qed.

(** When [verifyUserKicked] says that the user is still in the group,
    when it says that the user is gone, and when it fails.  It asks
    for the member list; only if that call throws does it ask for the
    member.  It answers [true] exactly when the list names the user
    or, the list call having thrown, the member call returned a
    member.  A list answer without [data] counts as an empty list: the
    user is taken to be gone.  It throws exactly when both calls
    threw and the second error mentions neither ['not found'] nor
    ['用户不存在']; what it throws is the second error. *)
Theorem verifyUserKicked_answers session userId st :
  let guildId := Session.guildId session in
  ∃ r st' tr,
    verifyUserKicked session userId st = (r, st')
    ∧ trace st' = trace st ++ tr
    ∧ same_store st st' ∧ running st' = running st
    ∧ (tr = [CallMemberList guildId]
       ∨ tr = [CallMemberList guildId; CallMember guildId userId]
         ∧ ∃ e w, getGuildMemberList guildId (world st) = (Throw e, w))
    ∧ (r = Ok true
       ↔ (∃ members w,
            getGuildMemberList guildId (world st) = (Ok (Some members), w)
            ∧ userId ∈ (λ member, User.id (Member.user member)) <$> members)
         ∨ (∃ e w member w',
              getGuildMemberList guildId (world st) = (Throw e, w)
              ∧ getGuildMember guildId userId w = (Ok (Some member), w')))
    ∧ (∀ w, getGuildMemberList guildId (world st) = (Ok None, w) →
            r = Ok false)
    ∧ (∀ e, r = Throw e
            ↔ ∃ e1 w w',
                getGuildMemberList guildId (world st) = (Throw e1, w)
                ∧ getGuildMember guildId userId w = (Throw e, w')
                ∧ message_includes e (lit "not found") = false
                ∧ message_includes e user_does_not_exist = false).
Proof.
  cbv zeta.
  destruct (verifyUserKicked session userId st) as [r st'] eqn:Heq.
  exists r, st'.
  destruct (steady_verifyUserKicked _ _ _ _ _ Heq) as [Hs Hr].
  revert Heq.
  unfold verifyUserKicked, try_catch, bind at 1, bot_getGuildMemberList.
  destruct (getGuildMemberList (Session.guildId session) (world st))
    as [[members|e1|] w1] eqn:Hlist.
  - (* the list call returned *)
    unfold ret. intros ?. simplify_eq. eexists [_]. split; [done|].
    split; [done|]. split; [done|]. split; [done|]. split; [by left|].
    split; [|split; [|split]].
    + split.
      * intros Htrue. injection Htrue as Htrue. left.
        destruct members as [members|]; [|done].
        exists members, w1. split; [done|]. by apply existsb_user_id.
      * intros [(members' & w & ? & Hin)|(e & w & m & w' & ? & _)];
          simplify_eq. f_equal. by apply existsb_user_id.
    + intros w ?. by simplify_eq.
    + done.
    + intros (e1 & w & w' & ? & _). done.
  - (* the list call threw *)
    unfold bind at 1, bot_getGuildMember. cbn [world emit set_world].
    destruct (getGuildMember (Session.guildId session) userId w1)
      as [[member|e2|] w2] eqn:Hmember.
    + unfold ret. intros ?. simplify_eq. eexists [_; _]. split; [done|].
      split; [by cbn; rewrite <- app_assoc|]. split; [done|]. split; [done|].
      split; [right; split; [done|]; by exists e1, w1|].
      split; [|split; [|split]].
      * split.
        -- intros Htrue. right. destruct member as [member|]; [|done].
           by exists e1, w1, member, w2.
        -- intros [(members' & w & ? & _)|(e & w & m & w' & ? & Hm)];
             simplify_eq. by rewrite Hmember in Hm; simplify_eq.
      * intros w ?. done.
      * done.
      * intros (e1' & w & w' & ? & Hm & _). simplify_eq.
        rewrite Hmember in Hm. done.
    + destruct (message_includes e2 (lit "not found")
                || message_includes e2 user_does_not_exist) eqn:Hmarks;
        unfold ret, throw; intros ?; simplify_eq; eexists [_; _];
        (split; [done|]);
        (split; [by cbn; rewrite <- app_assoc|]); (split; [done|]);
        (split; [done|]);
        (split; [right; split; [done|]; by exists e1, w1|]);
        (split; [|split; [|split]]).
      * split; [done|].
        intros [(members' & w & ? & _)|(e & w & m & w' & ? & Hm)];
          simplify_eq. rewrite Hmember in Hm. done.
      * intros w ?. done.
      * done.
      * intros (e1' & w & w' & ? & Hm & Hn1 & Hn2). simplify_eq.
        rewrite Hmember in Hm. simplify_eq.
        rewrite Hn1, Hn2 in Hmarks. done.
      * split; [done|].
        intros [(members' & w & ? & _)|(e & w & m & w' & ? & Hm)];
          simplify_eq. rewrite Hmember in Hm. done.
      * intros w ?. done.
      * intros ?. simplify_eq.
        apply orb_false_iff in Hmarks as [Hn1 Hn2].
        by exists e1, w1, w2.
      * intros (e1' & w & w' & ? & Hm & _). simplify_eq.
        rewrite Hmember in Hm. by simplify_eq.
    + intros ?. simplify_eq. eexists [_; _]. split; [done|].
      split; [by cbn; rewrite <- app_assoc|]. split; [done|]. split; [done|].
      split; [right; split; [done|]; by exists e1, w1|].
      split; [|split; [|split]].
      * split; [done|].
        intros [(members' & w & ? & _)|(e & w & m & w' & ? & Hm)];
          simplify_eq. rewrite Hmember in Hm. done.
      * intros w ?. done.
      * done.
      * intros (e1' & w & w' & ? & Hm & _). simplify_eq.
        rewrite Hmember in Hm. done.
  - (* the list call never returned *)
    intros ?. simplify_eq. eexists [_]. split; [done|].
    split; [done|]. split; [done|]. split; [done|]. split; [by left|].
    split; [|split; [|split]].
    + split; [done|].
      intros [(members' & w & ? & _)|(e & w & m & w' & ? & _)]; done.
    + intros w ?. done.
    + done.
    + intros (e1 & w & w' & ? & _). done.
Qed.

(** One iteration of the retry loop starts with the removal call and
    makes no other; when the loop goes on after it, the iteration ends
    with the pause of [retryDelay]. *)
Lemma kick_attempt_shape (i : Z) session userId displayName st r st' :
  kick_attempt config i session userId displayName st = (r, st') →
  ∃ rest,
    trace st' = trace st ++ CallKick (Session.guildId session) userId :: rest
    ∧ Forall not_kick rest
    ∧ (r = Ok None → i < retryAttempts config - 1 →
       last (CallKick (Session.guildId session) userId :: rest)
       = Some (Sleep (retryDelay config))).
Proof.
  unfold kick_attempt, try_catch, bind at 1, bot_kickGuildMember.
  destruct (kickGuildMember (Session.guildId session) userId (world st))
    as [rk w].
  set (st1 := emit _ (set_world w st)).
  assert (Hst1 : trace st1
                 = trace st ++ [CallKick (Session.guildId session) userId])
    by done.
  assert (Herr : ∀ e (s s' : App W) r',
    on_error config i session displayName e s = (r', s') →
    ∃ tr, trace s' = trace s ++ tr ∧ Forall not_kick tr
          ∧ (i < retryAttempts config - 1 →
             ∀ pre, last (pre ++ tr) = Some (Sleep (retryDelay config)))).
  { intros e s s' r' Herr.
    destruct (on_error_no_kick config _ _ _ _ _ _ _ Herr) as (tr & Ht & Hq).
    exists tr. split; [done|]. split; [done|]. intros Hlt pre.
    unfold on_error in Herr. rewrite (proj2 (Z.ltb_lt _ _) Hlt) in Herr.
    unfold bind, sleep, ret in Herr. simplify_eq. cbn [trace emit] in Ht.
    apply (inj (app (trace s))) in Ht. subst tr. apply last_snoc. }
  destruct rk as [[]|e|].
  - destruct (after_kick config i session userId displayName st1)
      as [[b|e|] st2] eqn:Hafter;
      destruct (after_kick_no_kick config _ _ _ _ _ _ _ Hafter)
        as (tr1 & Ht1 & Hq1);
      destruct (after_kick_quiet config _ _ _ _ _ _ _ Hafter)
        as (_ & _ & _ & _ & Hnone).
    + intros ?. simplify_eq. exists tr1.
      rewrite Ht1, Hst1, <- app_assoc. done.
    + intros Heq. destruct (Herr _ _ _ _ Heq) as (tr2 & Ht2 & Hq2 & Hlast).
      exists (tr1 ++ tr2). rewrite Ht2, Ht1, Hst1, <- !app_assoc.
      split; [done|]. split; [by apply Forall_app|].
      intros _ Hlt.
      apply (Hlast Hlt (CallKick (Session.guildId session) userId :: tr1)).
    + intros ?. simplify_eq. exists tr1.
      rewrite Ht1, Hst1, <- app_assoc. done.
  - intros Heq. destruct (Herr _ _ _ _ Heq) as (tr2 & Ht2 & Hq2 & Hlast).
    exists tr2. rewrite Ht2, Hst1, <- !app_assoc.
    split; [done|]. split; [done|].
    intros _ Hlt.
    apply (Hlast Hlt [CallKick (Session.guildId session) userId]).
  - intros ?. simplify_eq. exists []. done.
Qed.

Lemma kickUserWithRetry_from_paced (n : nat) (i : Z) session userId
    displayName st r st' :
  Z.of_nat n = retryAttempts config - i →
  kickUserWithRetry_from config n i session userId displayName st = (r, st') →
  ∃ tr,
    trace st' = trace st ++ tr
    ∧ (n = 0%nat → tr = [])
    ∧ (n ≠ 0%nat →
       head tr = Some (CallKick (Session.guildId session) userId))
    ∧ (∀ k e, tr !! S k = Some e → is_kick e = true →
         tr !! k = Some (Sleep (retryDelay config))).
Proof.
  revert i st. induction n as [|n IH]; intros i st Hn Heq.
  - simpl in Heq. unfold ret in Heq. simplify_eq. exists [].
    rewrite app_nil_r. by repeat split.
  - cbn [kickUserWithRetry_from] in Heq.
    assert (Hgen : ∀ rest, Forall not_kick rest → ∀ k e,
      (CallKick (Session.guildId session) userId :: rest) !! S k = Some e →
      is_kick e = true → False).
    { intros rest Hq k e Hk He. cbn in Hk.
      rewrite Forall_forall in Hq. apply list_elem_of_lookup_2 in Hk.
      specialize (Hq _ Hk). unfold not_kick in Hq. congruence. }
    apply bind_inv in Heq
      as [(returned & st1 & Hattempt & Hrest)|[(e & Hattempt & ->)
                                              |[Hattempt ->]]];
      destruct (kick_attempt_shape _ _ _ _ _ _ _ Hattempt)
        as (rest & Ht1 & Hq1 & Hlast).
    all: pose proof (Hgen rest Hq1) as Halone.
    2,3: eexists; (split; [exact Ht1|]); (split; [done|]); (split; [done|]);
         intros k e' Hk He; by destruct (Halone k e').
    destruct returned as [b|].
    + unfold ret in Hrest. simplify_eq. eexists. split; [exact Ht1|].
      split; [done|]. split; [done|].
      intros k e Hk He. by destruct (Halone k e).
    + assert (Hn' : Z.of_nat n = retryAttempts config - (i + 1)) by lia.
      destruct (IH _ _ Hn' Hrest) as (tr2 & Ht2 & Hzero & Hhead & Hpaced).
      set (tr1 := CallKick (Session.guildId session) userId :: rest) in *.
      exists (tr1 ++ tr2). rewrite Ht2, Ht1, <- app_assoc.
      split; [done|]. split; [done|]. split; [done|].
      intros k e Hk He.
      destruct (decide (S k < length tr1)%nat) as [Hlt|Hge].
      { rewrite lookup_app_l in Hk by done. by destruct (Halone k e). }
      rewrite lookup_app_r in Hk by lia.
      destruct (decide (S k = length tr1)) as [Heq|Hne].
      * rewrite Heq, Nat.sub_diag in Hk.
        assert (n ≠ 0%nat) as Hpos.
        { intros ->. rewrite Hzero in Hk by done. done. }
        rewrite lookup_app_l by lia.
        rewrite <- Hlast by (done || lia).
        rewrite last_lookup. f_equal. lia.
      * replace (S k - length tr1)%nat with (S (k - length tr1)) in Hk by lia.
        rewrite lookup_app_r by lia. by apply (Hpaced _ e).
Qed.

(** The retries are paced.  When [retryAttempts] is at least 1 the
    first thing [kickUserWithRetry] does is a removal call, and every
    later removal call comes directly after a pause of [retryDelay]:
    no two removal calls follow each other without that pause. *)
Theorem retries_are_paced session userId displayName st :
  ∃ r st' tr,
    kickUserWithRetry config session userId displayName st = (r, st')
    ∧ trace st' = trace st ++ tr
    ∧ (1 ≤ retryAttempts config →
       head tr = Some (CallKick (Session.guildId session) userId))
    ∧ (∀ k g u, tr !! S k = Some (CallKick g u) →
         tr !! k = Some (Sleep (retryDelay config))).
Proof.
  destruct (kickUserWithRetry config session userId displayName st)
    as [r st'] eqn:Heq.
  exists r, st'.
  destruct (Z_le_gt_dec (retryAttempts config) 0) as [Hle|Hgt].
  - unfold kickUserWithRetry in Heq.
    replace (Z.to_nat (retryAttempts config)) with 0%nat in Heq by lia.
    simpl in Heq. unfold ret in Heq. simplify_eq. exists [].
    rewrite app_nil_r. split; [done|]. split; [done|].
    split; [lia|done].
  - assert (Hn : Z.of_nat (Z.to_nat (retryAttempts config))
                 = retryAttempts config - 0) by lia.
    destruct (kickUserWithRetry_from_paced _ _ _ _ _ _ _ _ Hn Heq)
      as (tr & Ht & _ & Hhead & Hpaced).
    exists tr. split; [done|]. split; [done|].
    split; [intros _; apply Hhead; lia|].
    intros k g u Hk. by apply (Hpaced k (CallKick g u)).
Qed.

End VerifyFacts.

(** ** The chat commands of the earlier version *)

Section LegacyFacts.
Implicit Types (blacklist : list js_string) (qq : js_string).

Lemma indexOf_None blacklist qq :
  Legacy.indexOf blacklist qq = None ↔ qq ∉ blacklist.
Proof.
  induction blacklist as [|entry rest IH]; simpl.
  - split; [intros _; apply not_elem_of_nil|done].
  - destruct (decide (entry = qq)) as [->|Hne].
    + split; [done|]. intros Hn. destruct Hn. left.
    + rewrite fmap_None, IH, not_elem_of_cons. naive_solver.
Qed.

Lemma indexOf_Some blacklist qq index :
  Legacy.indexOf blacklist qq = Some index →
  ∃ before after,
    blacklist = before ++ qq :: after ∧ (qq ∉ before)
    ∧ length before = index
    ∧ Legacy.splice1 blacklist index = before ++ after.
Proof.
  revert index. induction blacklist as [|entry rest IH]; intros index;
    simpl; [done|].
  destruct (decide (entry = qq)) as [->|Hne].
  - intros ?. simplify_eq. exists [], rest. repeat split; try done.
    apply not_elem_of_nil.
  - intros Hi. apply fmap_Some in Hi as (j & Hj & ->).
    destruct (IH _ Hj) as (before & after & -> & Hnot & Hlen & Hsplice).
    exists (entry :: before), after. split; [done|].
    split; [apply not_elem_of_cons; by split|]. split; [simpl; lia|].
    unfold Legacy.splice1 in *. simpl. by rewrite Hsplice.
Qed.

(** [auto-kick.add].  The command appends the identifier when it is
    given, not empty and not yet in the array, and leaves the array
    alone otherwise: it never removes an entry and never creates a
    repetition, the identifier is in the array afterwards, and a
    second [add] of the same identifier changes nothing. *)
Theorem legacy_add_appends_once blacklist (arg : option js_string) :
  let after := (Legacy.add blacklist arg).2 in
  (after = blacklist
   ∨ ∃ qq, arg = Some qq ∧ qq ≠ [] ∧ (qq ∉ blacklist)
           ∧ Legacy.add blacklist arg = (Legacy.Added qq, blacklist ++ [qq]))
  ∧ (∀ qq, arg = Some qq → qq ≠ [] → Legacy.includes after qq = true)
  ∧ (∀ entry, Legacy.includes blacklist entry = true →
              Legacy.includes after entry = true)
  ∧ (NoDup blacklist → NoDup after)
  ∧ (Legacy.add after arg).2 = after
  ∧ (arg = None ∨ arg = Some [] →
     Legacy.add blacklist arg = (Legacy.AddUsage, blacklist)).
Proof.
  cbv zeta. unfold Legacy.add.
  destruct arg as [[|c qq]|]; simpl.
  1,3: (split; [by left|]); (split; [intros q ? Hq; by simplify_eq|]);
       (split; [done|]); (split; [done|]); (split; [done|]); done.
  unfold Legacy.includes.
  case_bool_decide as Hin; simpl.
  - split; [by left|]. split.
    { intros q ? _. simplify_eq. by apply bool_decide_eq_true. }
    split; [done|]. split; [done|].
    split; [by rewrite bool_decide_eq_true_2|].
    intros [?|?]; done.
  - split; [right; by exists (c :: qq)|]. split.
    { intros q ? _. simplify_eq. apply bool_decide_eq_true.
      apply elem_of_app. right. left. }
    split.
    { intros entry He%bool_decide_eq_true. apply bool_decide_eq_true.
      apply elem_of_app. by left. }
    split.
    { intros Hnd. apply NoDup_app. split; [done|].
      split; [|apply NoDup_singleton].
      intros x Hx ->%list_elem_of_singleton. done. }
    split.
    { rewrite bool_decide_eq_true_2; [done|].
      apply elem_of_app. right. left. }
    intros [?|?]; done.
Qed.

(** [auto-kick.remove].  The command takes out the first occurrence of
    the identifier and nothing else; an identifier that is missing,
    empty or not in the array leaves the array alone.  Removing what
    [add] has just appended gives the array back.  In an array without
    repetitions the identifier is gone afterwards; an identifier that
    the configuration lists twice is still blacklisted after one
    [remove]. *)
Theorem legacy_remove_takes_first_occurrence blacklist
    (arg : option js_string) :
  let after := (Legacy.remove blacklist arg).2 in
  (after = blacklist
   ∧ (arg = None ∨ arg = Some []
      ∨ ∃ qq, arg = Some qq ∧ (qq ∉ blacklist))
   ∨ ∃ qq before rest,
       arg = Some qq ∧ qq ≠ []
       ∧ blacklist = before ++ qq :: rest ∧ (qq ∉ before)
       ∧ Legacy.remove blacklist arg = (Legacy.Removed qq, before ++ rest))
  ∧ (∀ qq entry, arg = Some qq → entry ≠ qq →
       Legacy.includes after entry = Legacy.includes blacklist entry)
  ∧ (∀ qq, arg = Some qq → qq ≠ [] → NoDup blacklist →
       Legacy.includes after qq = false)
  ∧ (∀ qq before rest, arg = Some qq → qq ≠ [] →
       blacklist = before ++ qq :: rest → qq ∈ rest →
       Legacy.includes after qq = true)
  ∧ (∀ qq, arg = Some qq → qq ≠ [] → qq ∉ blacklist →
       (Legacy.remove (Legacy.add blacklist arg).2 arg).2 = blacklist)
  ∧ (NoDup blacklist → NoDup after).
Proof.
  cbv zeta.
  assert (Hcases :
    ((Legacy.remove blacklist arg).2 = blacklist
     ∧ (arg = None ∨ arg = Some []
        ∨ ∃ qq, arg = Some qq ∧ (qq ∉ blacklist)))
    ∨ ∃ qq before rest,
        arg = Some qq ∧ qq ≠ []
        ∧ blacklist = before ++ qq :: rest ∧ (qq ∉ before)
        ∧ Legacy.remove blacklist arg = (Legacy.Removed qq, before ++ rest)).
  { unfold Legacy.remove. destruct arg as [[|c qq]|]; simpl; auto.
    destruct (Legacy.indexOf blacklist (c :: qq)) as [index|] eqn:Hi.
    - right. apply indexOf_Some in Hi
        as (before & rest & -> & Hnot & _ & Hsplice).
      exists (c :: qq), before, rest. rewrite Hsplice. by repeat split.
    - left. split; [done|]. right. right. exists (c :: qq).
      split; [done|]. by apply indexOf_None. }
  split; [exact Hcases|].
  split.
  { intros qq entry -> Hne. unfold Legacy.includes.
    destruct Hcases as [[-> _]|(q & before & rest & ? & _ & -> & _ & ->)];
      [done|]. simplify_eq. simpl. apply bool_decide_ext.
    rewrite !elem_of_app, elem_of_cons. naive_solver. }
  split.
  { intros qq -> Hne Hnd. unfold Legacy.includes.
    apply bool_decide_eq_false.
    destruct Hcases as [[-> [?|[?|(q & ? & Hq)]]]
                       |(q & before & rest & ? & _ & -> & Hb & ->)];
      simplify_eq; [done|]. simpl.
    apply NoDup_app in Hnd as (_ & _ & Hnd). apply NoDup_cons in Hnd as [Hr _].
    rewrite elem_of_app. tauto. }
  split.
  { intros qq before rest -> Hne -> Hin. unfold Legacy.includes.
    apply bool_decide_eq_true.
    destruct Hcases
      as [[-> _]|(q & before' & rest' & Harg & _ & Heq & Hb & ->)].
    { apply elem_of_app. right. by right. }
    injection Harg as <-. simpl.
    apply elem_of_app. right.
    apply list_elem_of_lookup in Hin as [j Hj].
    assert (Hat : (before' ++ qq :: rest') !! length before = Some qq).
    { rewrite <- Heq. by rewrite list_lookup_middle. }
    assert (Hle : (length before' ≤ length before)%nat).
    { destruct (decide (length before' ≤ length before)%nat) as [|Hgt];
        [done|]. rewrite lookup_app_l in Hat by lia.
      destruct Hb. by eapply list_elem_of_lookup_2. }
    assert (Hlater : (before' ++ qq :: rest') !! (length before + 1 + j)%nat
                     = Some qq).
    { rewrite <- Heq. rewrite lookup_app_r by lia.
      replace (length before + 1 + j - length before)%nat with (S j) by lia.
      done. }
    rewrite lookup_app_r in Hlater by lia.
    replace (length before + 1 + j - length before')%nat
      with (S (length before + j - length before')) in Hlater by lia.
    by eapply list_elem_of_lookup_2. }
  split.
  { intros qq -> Hne Hnot. unfold Legacy.add, Legacy.remove.
    destruct qq as [|c qq]; [done|]. simpl.
    unfold Legacy.includes. rewrite bool_decide_eq_false_2 by done. simpl.
    destruct (Legacy.indexOf (blacklist ++ [c :: qq]) (c :: qq))
      as [index|] eqn:Hi.
    - apply indexOf_Some in Hi
        as (before & rest & Heq & Hb & _ & ->). simpl.
      assert (before = blacklist ∧ rest = []) as [-> ->]; [|by rewrite app_nil_r].
      clear -Heq Hb Hnot. revert before Heq Hb.
      induction blacklist as [|x bl IH]; intros before Heq Hb; simpl in Heq.
      + destruct before as [|y before]; simpl in Heq.
        * injection Heq as <-. done.
        * injection Heq as _ Heq. by destruct before.
      + apply not_elem_of_cons in Hnot as [Hne Hnot].
        destruct before as [|y before]; simpl in Heq.
        * injection Heq as Hx _. by destruct Hne.
        * injection Heq as <- Heq.
          apply not_elem_of_cons in Hb as [_ Hb].
          destruct (IH Hnot before Heq Hb) as [-> ->]. done.
    - apply indexOf_None in Hi. destruct Hi.
      apply elem_of_app. right. left. }
  intros Hnd.
  destruct Hcases as [[-> _]|(q & before & rest & _ & _ & -> & _ & ->)];
    [done|]. simpl.
  apply NoDup_app in Hnd as (Hb & Hdis & Hr).
  apply NoDup_cons in Hr as [_ Hr]. apply NoDup_app. split; [done|].
  split; [|done]. intros x Hx Hx'. apply (Hdis x Hx). by right.
Qed.

End LegacyFacts.

(** ** The plugin on a platform that carries out removals *)

Section PermittedFacts.
Context `{!Runtime}.
Variable config : Config.
Hypothesis attempts : 1 ≤ retryAttempts config.
Implicit Types (st : App Guild.world) (session : Session.t)
               (userId displayName : js_string).

Lemma removed_user_not_listed (members : list Member.t) userId :
  existsb (λ member, bool_decide (User.id (Member.user member) = userId))
    (filter (λ member, Guild.is_user userId member = false) members)
  = false.
Proof.
  apply not_true_is_false. intros (m & Hin & Hm)%existsb_exists.
  apply list_elem_of_In, list_elem_of_filter in Hin as [Hno _].
  unfold Guild.is_user in Hno. congruence.
Qed.

(** The first attempt succeeds and is confirmed. *)
Lemma permitted_kickUserWithRetry session userId displayName st :
  ∃ st',
    kickUserWithRetry (Platform0 := Guild.permitted) config session userId
      displayName st = (Ok true, st')
    ∧ Guild.members (world st')
      = filter (λ member, Guild.is_user userId member = false)
          (Guild.members (world st))
    ∧ ∃ tr, trace st' = trace st ++ tr
            ∧ kick_calls tr = 1%nat ∧ sends tr = [].
Proof.
  unfold kickUserWithRetry.
  destruct (Z.to_nat (retryAttempts config)) as [|n] eqn:Hn; [lia|].
  cbn [kickUserWithRetry_from].
  unfold bind at 1, kick_attempt, try_catch, bind at 1, bot_kickGuildMember.
  cbn [kickGuildMember Guild.permitted Guild.platform].
  unfold after_kick. destruct (verifyKickResult config).
  - unfold bind at 1, sleep. unfold bind at 1.
    unfold verifyUserKicked, try_catch, bind at 1, bot_getGuildMemberList.
    cbn [getGuildMemberList Guild.permitted Guild.platform world emit
         set_world elapse Guild.members Guild.remove default].
    unfold ret at 1, id. rewrite removed_user_not_listed. cbn [negb].
    unfold ret. eexists. split; [reflexivity|]. cbn.
    split; [done|]. eexists [_; _; _]. split; [by rewrite <- !app_assoc|].
    done.
  - unfold ret. eexists. split; [reflexivity|]. cbn.
    split; [done|]. eexists [_]. done.
Qed.

(** A flagged user is removed at the first attempt. *)
Lemma permitted_checkAndKickUser session userId
    (nickname : option js_string) st :
  flagged (blacklistManager st) (nicknameMatchMode config) userId nickname →
  running st < maxConcurrent config →
  ∃ st',
    checkAndKickUser (Platform0 := Guild.permitted) config session userId
      nickname st = (Ok true, st')
    ∧ Guild.members (world st')
      = filter (λ member, Guild.is_user userId member = false)
          (Guild.members (world st))
    ∧ ∃ tr, trace st' = trace st ++ tr ∧ kick_calls tr = 1%nat.
Proof.
  intros Hflag Hfree. unfold checkAndKickUser.
  destruct (classify_spec config userId nickname st)
    as (verdict & Hcl & [[_ Hn]|[[reason ->] _]] & _); [done|].
  cbv zeta in Hcl. unfold bind at 1. rewrite Hcl.
  unfold kick_flagged. unfold bind at 1, log at 1.
  set (st1 := emit _ st).
  assert (Hnotify : ∃ st2 tr2,
    (if notifyAdmins config
     then try_catch
            (session_send (Platform0 := Guild.permitted) session
               (AdminNotify (js_or nickname userId) reason))
            (λ error, log (LogNotifyFailed error))
     else ret ()) st1 = (Ok (), st2)
    ∧ Guild.members (world st2) = Guild.members (world st)
    ∧ running st2 = running st
    ∧ trace st2 = trace st ++ tr2 ∧ kick_calls tr2 = 0%nat).
  { destruct (notifyAdmins config).
    - unfold try_catch, session_send.
      destruct (Session.has_send session).
      + cbn [send Guild.permitted Guild.platform]. eexists _, [_; _].
        split; [reflexivity|]. cbn. by rewrite <- app_assoc.
      + unfold log. eexists _, [_; _].
        split; [reflexivity|]. cbn. by rewrite <- app_assoc.
    - eexists _, [_]. split; [reflexivity|]. done. }
  destruct Hnotify as (st2 & tr2 & Hnotify & Hm2 & Hr2 & Ht2 & Hk2).
  unfold bind at 1. rewrite Hnotify. unfold bind at 1, execute.
  rewrite bool_decide_eq_false_2 by lia.
  unfold bind at 1.
  destruct (permitted_kickUserWithRetry session userId (js_or nickname userId)
              (set_running (running st2 + 1) st2))
    as (st3 & Hkick & Hm3 & tr3 & Ht3 & Hk3 & _).
  rewrite Hkick.
  unfold bind, log, ret. eexists. split; [reflexivity|].
  cbn [world emit set_running]. rewrite Hm3. cbn [world set_running].
  rewrite Hm2. split; [done|].
  exists (tr2 ++ tr3 ++ [Log (LogKicked (js_or nickname userId) userId reason)]).
  cbn [trace emit set_running]. rewrite Ht3. cbn [trace set_running].
  rewrite Ht2, <- !app_assoc. split; [done|].
  rewrite !kick_calls_app, Hk2, Hk3. done.
Qed.

Lemma survivors_nil (members : list Member.t) : survivors [] members = members.
Proof.
  unfold survivors. induction members as [|m members IH]; [done|].
  rewrite filter_cons_True by (simpl; apply not_elem_of_nil). by rewrite IH.
Qed.

Lemma survivors_one member (members : list Member.t) :
  survivors [member] members
  = filter (λ m, Guild.is_user (User.id (Member.user member)) m = false)
      members.
Proof.
  unfold survivors. apply list_filter_iff. intros m. simpl.
  rewrite list_elem_of_singleton. unfold Guild.is_user.
  rewrite bool_decide_eq_false. done.
Qed.

Lemma survivors_app (hits1 hits2 members : list Member.t) :
  survivors (hits1 ++ hits2) members = survivors hits2 (survivors hits1 members).
Proof.
  unfold survivors. rewrite list_filter_filter. apply list_filter_iff.
  intros m. rewrite fmap_app, elem_of_app. tauto.
Qed.

Lemma counted_counted c n1 h1 n2 h2 :
  counted (counted c n1 h1) n2 h2 = counted c (n1 + n2) (h1 + h2).
Proof.
  unfold counted. cbn [scannedCount blacklistedCount kickedCount
                       failedKickCount].
  f_equal; lia.
Qed.

Lemma counted_zero c : counted c 0 0 = c.
Proof.
  destruct c. unfold counted. cbn [scannedCount blacklistedCount kickedCount
                                   failedKickCount].
  f_equal; lia.
Qed.

(** One member of a scan: a flagged member is removed with one call. *)
Lemma permitted_scan_member session member c st :
  running st < maxConcurrent config →
  let hits :=
    filter (λ member,
              member_flagged (blacklistManager st) (nicknameMatchMode config)
                member = true) [member] in
  ∃ st' tr,
    scan_member (Platform0 := Guild.permitted) config session member c st
    = (Ok (counted c 1 (length hits)), st')
    ∧ Guild.members (world st') = survivors hits (Guild.members (world st))
    ∧ blacklistManager st' = blacklistManager st
    ∧ running st' = running st
    ∧ trace st' = trace st ++ tr
    ∧ kick_calls tr = length hits.
Proof.
  intros Hfree. cbv zeta. unfold scan_member.
  unfold bind at 1, read_blacklistManager. unfold bind at 1.
  rewrite scan_decision.
  destruct (member_flagged (blacklistManager st) (nicknameMatchMode config)
              member) eqn:Hhit.
  - rewrite filter_cons_True, filter_nil by done.
    unfold member_flagged in Hhit. rewrite Hhit.
    set (userId := User.id (Member.user member)) in *.
    set (nickname := getUserNickname (Some member) None) in *.
    apply should_kick_spec in Hhit.
    destruct (permitted_checkAndKickUser session userId nickname st
                Hhit Hfree) as (st1 & Hkick & Hm1 & tr1 & Ht1 & Hk1).
    destruct (tidy_checkAndKickUser (Platform0 := Guild.permitted) config
                _ _ _ _ _ _ Hkick) as [(Hbm & _) Hrun].
    unfold bind at 1. unfold bind at 1. rewrite Hkick. unfold ret at 1.
    cbn [scannedCount blacklistedCount].
    rewrite survivors_one. fold userId. rewrite <- Hm1.
    unfold bind, counted. cbn [length].
    destruct (_ && _); unfold sleep, ret.
    + eexists _, (tr1 ++ [_]).
      split; [reflexivity|]. cbn [world emit set_world elapse
        Guild.permitted Guild.platform Guild.members blacklistManager
        running trace].
      split; [done|]. split; [done|]. split; [by apply Hrun|].
      rewrite Ht1, <- app_assoc. split; [done|].
      rewrite kick_calls_app, Hk1. done.
    + eexists _, tr1. split; [reflexivity|].
      split; [done|]. split; [done|]. split; [by apply Hrun|].
      split; [done|]. done.
  - rewrite filter_cons_False, filter_nil by (rewrite Hhit; done).
    unfold member_flagged in Hhit. rewrite Hhit.
    unfold bind at 1. unfold ret at 1.
    cbn [scannedCount blacklistedCount]. rewrite survivors_nil.
    unfold bind, counted. cbn [length]. rewrite !Z.add_0_r.
    destruct (_ && _); unfold sleep, ret.
    + eexists _, [_]. split; [reflexivity|]. done.
    + eexists _, []. split; [reflexivity|]. rewrite app_nil_r. done.
Qed.

Lemma permitted_scan_batch session (batch : list Member.t) c st :
  running st < maxConcurrent config →
  let hits :=
    filter (λ member,
              member_flagged (blacklistManager st) (nicknameMatchMode config)
                member = true) batch in
  ∃ st' tr,
    scan_batch (Platform0 := Guild.permitted) config session batch c st
    = (Ok (counted c (length batch) (length hits)), st')
    ∧ Guild.members (world st') = survivors hits (Guild.members (world st))
    ∧ blacklistManager st' = blacklistManager st
    ∧ running st' = running st
    ∧ trace st' = trace st ++ tr
    ∧ kick_calls tr = length hits.
Proof.
  cbv zeta. revert c st.
  induction batch as [|member batch IH]; intros c st Hfree.
  - exists st, []. cbn [scan_batch length]. rewrite filter_nil.
    cbn [length]. rewrite counted_zero, survivors_nil, app_nil_r. done.
  - change (member :: batch) with ([member] ++ batch).
    rewrite filter_app, !length_app.
    destruct (permitted_scan_member session member c st Hfree)
      as (st1 & tr1 & Hm & Hw1 & Hbm1 & Hr1 & Ht1 & Hk1).
    cbv zeta in Hm, Hw1, Hk1.
    assert (Hfree1 : running st1 < maxConcurrent config) by lia.
    destruct (IH (counted c 1 (length (filter (λ member,
                     member_flagged (blacklistManager st)
                       (nicknameMatchMode config) member = true) [member])))
                st1 Hfree1)
      as (st2 & tr2 & Hb & Hw2 & Hbm2 & Hr2 & Ht2 & Hk2).
    rewrite Hbm1 in Hb, Hw2, Hk2.
    exists st2, (tr1 ++ tr2).
    cbn [scan_batch app]. unfold bind at 1. rewrite Hm, Hb.
    rewrite counted_counted, survivors_app, Hw2, Hw1.
    split; [done|]. split; [done|]. split; [congruence|].
    split; [congruence|]. rewrite Ht2, Ht1, <- app_assoc. split; [done|].
    rewrite kick_calls_app. lia.
Qed.

(** The batch loop from index [i] on, with enough fuel for the members
    that are left. *)
Lemma permitted_scan_batches fuel (i : Z) session
    (filteredMembers : list Member.t) c st :
  1 ≤ batchSize config → 0 ≤ i →
  Z.of_nat (length filteredMembers) - i ≤ Z.of_nat fuel →
  running st < maxConcurrent config →
  let rest := drop (Z.to_nat i) filteredMembers in
  let hits :=
    filter (λ member,
              member_flagged (blacklistManager st) (nicknameMatchMode config)
                member = true) rest in
  ∃ st' tr,
    scan_batches (Platform0 := Guild.permitted) config fuel i session
      filteredMembers c st
    = (Ok (counted c (length rest) (length hits)), st')
    ∧ Guild.members (world st') = survivors hits (Guild.members (world st))
    ∧ blacklistManager st' = blacklistManager st
    ∧ running st' = running st
    ∧ trace st' = trace st ++ tr
    ∧ kick_calls tr = length hits.
Proof.
  intros Hbs. cbv zeta. revert i c st.
  assert (Hdone : ∀ i c st,
    Z.of_nat (length filteredMembers) ≤ i →
    ∃ st' tr,
      (Ok c, st)
      = (Ok (counted c (length (drop (Z.to_nat i) filteredMembers))
               (length (filter (λ member,
                  member_flagged (blacklistManager st)
                    (nicknameMatchMode config) member = true)
                  (drop (Z.to_nat i) filteredMembers)))), st')
      ∧ Guild.members (world st')
        = survivors (filter (λ member,
                  member_flagged (blacklistManager st)
                    (nicknameMatchMode config) member = true)
                  (drop (Z.to_nat i) filteredMembers))
            (Guild.members (world st))
      ∧ blacklistManager st' = blacklistManager st
      ∧ running st' = running st
      ∧ trace st' = trace st ++ tr
      ∧ kick_calls tr
        = length (filter (λ member,
                  member_flagged (blacklistManager st)
                    (nicknameMatchMode config) member = true)
                  (drop (Z.to_nat i) filteredMembers))).
  { intros i c st Hge. exists st, []. rewrite drop_ge by lia.
    rewrite filter_nil. cbn [length].
    rewrite counted_zero, survivors_nil, app_nil_r. done. }
  induction fuel as [|fuel IH]; intros i c st Hi Hfuel Hfree;
    cbn [scan_batches].
  - rewrite (proj2 (Z.ltb_ge i (Z.of_nat (length filteredMembers))))
      by lia.
    unfold ret. apply Hdone. lia.
  - destruct (i <? Z.of_nat (length filteredMembers)) eqn:Hlt.
    2:{ apply Z.ltb_ge in Hlt. unfold ret. by apply Hdone. }
    apply Z.ltb_lt in Hlt.
    rewrite slice_take_drop by lia.
    set (rest := drop (Z.to_nat i) filteredMembers) in *.
    assert (Hsplit : rest = take (Z.to_nat (batchSize config)) rest
                            ++ drop (Z.to_nat (i + batchSize config))
                                 filteredMembers).
    { unfold rest. rewrite Z2Nat.inj_add by lia.
      rewrite <- drop_drop. by rewrite take_drop. }
    set (batch := take (Z.to_nat (batchSize config)) rest) in *.
    rewrite Hsplit, filter_app, !length_app.
    destruct (permitted_scan_batch session batch c st Hfree)
      as (st1 & tr1 & Hb & Hw1 & Hbm1 & Hr1 & Ht1 & Hk1).
    cbv zeta in Hb, Hw1, Hk1.
    unfold bind at 1. rewrite Hb. unfold bind at 1.
    assert (Hs : ∃ st2 tr2,
      (if i + batchSize config <? Z.of_nat (length filteredMembers)
       then sleep (Platform0 := Guild.permitted) 1000 else ret ()) st1
      = (Ok (), st2)
      ∧ Guild.members (world st2) = Guild.members (world st1)
      ∧ blacklistManager st2 = blacklistManager st1
      ∧ running st2 = running st1
      ∧ trace st2 = trace st1 ++ tr2
      ∧ kick_calls tr2 = 0%nat).
    { destruct (_ <? _); unfold sleep, ret.
      - by eexists _, [_].
      - exists st1, []. by rewrite app_nil_r. }
    destruct Hs as (st2 & tr2 & Hsleep & Hw2 & Hbm2 & Hr2 & Ht2 & Hk2).
    rewrite Hsleep.
    assert (Hi' : 0 ≤ i + batchSize config) by lia.
    assert (Hfuel' : Z.of_nat (length filteredMembers)
                     - (i + batchSize config) ≤ Z.of_nat fuel) by lia.
    assert (Hfree2 : running st2 < maxConcurrent config) by lia.
    destruct (IH (i + batchSize config)
                (counted c (length batch)
                   (length (filter (λ member,
                      member_flagged (blacklistManager st)
                        (nicknameMatchMode config) member = true) batch)))
                st2 Hi' Hfuel' Hfree2)
      as (st3 & tr3 & Hrest & Hw3 & Hbm3 & Hr3 & Ht3 & Hk3).
    rewrite Hbm2, Hbm1 in Hrest, Hw3, Hk3.
    exists st3, (tr1 ++ tr2 ++ tr3).
    rewrite Hrest, counted_counted, survivors_app, Hw3, Hw2, Hw1.
    split; [done|]. split; [done|]. split; [congruence|].
    split; [congruence|]. rewrite Ht3, Ht2, Ht1, <- !app_assoc.
    split; [done|]. rewrite !kick_calls_app. lia.
Qed.

(** A member that was examined and is still listed was not flagged. *)
Lemma survivors_not_flagged (this : BlacklistManager.t) matchMode
    (examined listed : list Member.t) member :
  member ∈ survivors
             (filter (λ member, member_flagged this matchMode member = true)
                examined) listed →
  member ∈ examined →
  member_flagged this matchMode member = false.
Proof.
  unfold survivors. intros [Hno _]%list_elem_of_filter Hex.
  apply not_true_is_false. intros Hflag. apply Hno.
  apply list_elem_of_fmap. exists member. split; [done|].
  by apply list_elem_of_filter.
Qed.

(** On a platform that carries out every removal and lists the
    members as they are, a scan with a batch size and a number of
    attempts of at least 1, started while a scheduler slot is free,
    runs to its end: exactly the listed members with the identifier of
    a flagged examined member are gone from the guild, every other
    member is still listed, each flagged member cost one removal call,
    the report counts each of them as removed and none as failed, and
    no examined member that is still listed is flagged. *)
Theorem scan_removes_every_flagged_member session st :
  enableJoinScan config = true →
  1 ≤ batchSize config →
  running st < maxConcurrent config →
  let listed := Guild.members (world st) in
  let examined := scanned_members config (Some listed) in
  let hits :=
    filter (λ member,
              member_flagged (blacklistManager st) (nicknameMatchMode config)
                member = true) examined in
  ∃ st' tr scanTime,
    scanExistingMembers (Platform0 := Guild.permitted) config session st
    = (Ok (), st')
    ∧ Guild.members (world st') = survivors hits listed
    ∧ trace st' = trace st ++ tr
    ∧ kick_calls tr = length hits
    ∧ last tr
      = Some (Log (scan_summary (Z.of_nat (length examined))
                     (Z.of_nat (length hits)) (Z.of_nat (length hits)) 0
                     scanTime))
    ∧ ∀ member,
        member ∈ Guild.members (world st') → member ∈ examined →
        member_flagged (blacklistManager st) (nicknameMatchMode config)
          member = false.
Proof.
  intros Hscan Hbs Hfree. cbv zeta.
  set (listed := Guild.members (world st)).
  set (examined := scanned_members config (Some listed)).
  set (hits := filter (λ member,
                 member_flagged (blacklistManager st)
                   (nicknameMatchMode config) member = true) examined).
  unfold scanExistingMembers. rewrite Hscan. cbn [negb].
  unfold bind at 1, date_now.
  cbn [Date_now Guild.permitted Guild.platform].
  unfold bind at 1, log at 1.
  set (st1 := emit (Log (LogScanStart (Session.guildId session)))
                (set_world (world st) st)).
  unfold try_catch, bind at 1, bot_getGuildMemberList.
  cbn [getGuildMemberList Guild.permitted Guild.platform].
  change (Guild.members (world st1)) with listed.
  set (st2 := emit (CallMemberList (Session.guildId session))
                (set_world (world st1) st1)).
  fold (scanned_members config (Some listed)). fold examined.
  destruct (permitted_scan_batches (length examined) 0 session examined
              {| scannedCount := 0; blacklistedCount := 0;
                 kickedCount := 0; failedKickCount := 0 |} st2 Hbs)
    as (st3 & tr3 & Hb & Hw3 & Hbm3 & Hr3 & Ht3 & Hk3);
    [done|lia|done|].
  cbv zeta in Hb, Hw3, Hk3.
  change (drop (Z.to_nat 0) examined) with examined in *.
  change (blacklistManager st2) with (blacklistManager st) in *.
  fold hits in Hb, Hw3, Hk3.
  change (Guild.members (world st2)) with listed in Hw3.
  unfold bind at 1. rewrite Hb. unfold bind at 1, date_now.
  cbn [Date_now Guild.permitted Guild.platform].
  unfold counted.
  cbn [scannedCount blacklistedCount kickedCount failedKickCount].
  rewrite !Z.add_0_l.
  set (scanTime := Guild.clock (world st3) - Guild.clock (world st)).
  assert (Hst2 : trace st2
                 = trace st ++ [Log (LogScanStart (Session.guildId session));
                                CallMemberList (Session.guildId session)])
    by (cbn; by rewrite <- app_assoc).
  assert (Hend : ∀ entry st4,
    Guild.members (world st4) = Guild.members (world st3) →
    trace st4 = trace st3 ++ [Log entry] →
    entry = scan_summary (Z.of_nat (length examined))
              (Z.of_nat (length hits)) (Z.of_nat (length hits)) 0 scanTime →
    ∃ st' tr scanTime0,
      (Ok (), st4) = (Ok (), st')
      ∧ Guild.members (world st') = survivors hits listed
      ∧ trace st' = trace st ++ tr
      ∧ kick_calls tr = length hits
      ∧ last tr
        = Some (Log (scan_summary (Z.of_nat (length examined))
                       (Z.of_nat (length hits)) (Z.of_nat (length hits)) 0
                       scanTime0))
      ∧ ∀ member,
          member ∈ Guild.members (world st') → member ∈ examined →
          member_flagged (blacklistManager st) (nicknameMatchMode config)
            member = false).
  { intros entry st4 Hw4 Ht4 ->.
    exists st4, ([Log (LogScanStart (Session.guildId session));
                  CallMemberList (Session.guildId session)] ++ tr3
                 ++ [Log (scan_summary (Z.of_nat (length examined))
                            (Z.of_nat (length hits)) (Z.of_nat (length hits))
                            0 scanTime)]), scanTime.
    split; [done|]. split; [congruence|].
    split; [rewrite Ht4, Ht3, Hst2, <- !app_assoc; done|].
    split; [rewrite !kick_calls_app, Hk3;
            unfold scan_summary; by destruct (_ <? _)|].
    split; [by rewrite !app_assoc, last_snoc|].
    intros member Hin Hex. rewrite Hw4, Hw3 in Hin.
    by apply (survivors_not_flagged _ _ examined listed). }
  unfold bind, updateStats, log, ret.
  unfold scan_summary in Hend |- *.
  destruct (enableStats config); destruct (0 <? Z.of_nat (length hits));
    (eapply Hend; [| |reflexivity]); done.
Qed.

End PermittedFacts.

(** Three members, one of them blacklisted by identifier and one a
    bot with a blacklisted identifier: the first is removed, the other
    two stay. *)
Lemma scan_removes_every_flagged_member_witness :
  let cfg := Scripted.config [lit "111"; lit "999"] [] contains in
  let session := Scripted.session "" "g" None in
  let group := [Scripted.member "111" None; Scripted.member "222" None;
                Guild.bot_member "999"] in
  let st := apply cfg {| Guild.members := group; Guild.clock := 0 |} in
  1 ≤ retryAttempts cfg
  ∧ enableJoinScan cfg = true
  ∧ 1 ≤ batchSize cfg
  ∧ running st < maxConcurrent cfg
  ∧ ∃ st',
      scanExistingMembers (Platform0 := Guild.permitted) cfg session st
      = (Ok (), st')
      ∧ Guild.members (world st')
        = [Scripted.member "222" None; Guild.bot_member "999"].
Proof.
  cbv zeta.
  set (cfg := Scripted.config [lit "111"; lit "999"] [] contains).
  set (session := Scripted.session "" "g" None).
  set (group := [Scripted.member "111" None; Scripted.member "222" None;
                 Guild.bot_member "999"]).
  set (st := apply cfg {| Guild.members := group; Guild.clock := 0 |}).
  assert (H0 : 1 ≤ retryAttempts cfg) by (simpl; lia).
  assert (H1 : enableJoinScan cfg = true) by reflexivity.
  assert (H2 : 1 ≤ batchSize cfg) by (simpl; lia).
  assert (H3 : running st < maxConcurrent cfg) by (simpl; lia).
  split; [exact H0|]. split; [exact H1|]. split; [exact H2|].
  split; [exact H3|].
  destruct (scan_removes_every_flagged_member cfg H0 session st H1 H2 H3)
    as (st' & tr & scanTime & Hrun & Hw & _).
  exists st'. split; [exact Hrun|]. rewrite Hw. vm_compute. reflexivity.
Defined.

